(** * kube-ingress-aws-controller: stack records and ingress normalisation

    A shallow embedding of the parts of the controller that its
    specification makes claims about:

    - package [aws], the CloudFormation stack wrapper: the [Stack] record,
      [IsComplete], [ShouldDelete], [Err], [isManagedStack],
      [mapToManagedStack], [findManagedStacks];
    - package [kubernetes], adapter.go and the ingress client: the
      [Adapter], [newIngress], [ListIngress], [ListResources],
      [UpdateIngressLoadBalancer].

    Go maps are finite maps ([gmap]) whose lookup of an absent key reads
    as the zero value; a pointer receiver that may be nil is an [option];
    a Go [error] result is an [option error] ([None] is nil). *)

From Stdlib Require Import ZArith String Ascii List Bool Lia.
From stdpp Require Import base option gmap strings list fin_maps pretty.

Local Open Scope string_scope.
Local Open Scope list_scope.
Local Open Scope Z_scope.

(** ** Go runtime pieces used by the code *)

(** [time.Time] as the instant it denotes: seconds since January 1, year 1,
    00:00:00 UTC, and the nanosecond offset within that second.  The
    values compared in [ShouldDelete] carry no monotonic clock reading
    ([UTC()] strips it), so [After] compares wall instants. *)
Record Time : Type := mkTime { sec : Z; nsec : Z }.

(** [time.Time{}] *)
Definition zeroTime : Time := mkTime 0 0.

(** [func (t Time) IsZero() bool] *)
Definition IsZero (t : Time) : bool :=
  (sec t =? 0) && (nsec t =? 0).

(** [func (t Time) After(u Time) bool] *)
Definition After (t u : Time) : bool :=
  (sec t >? sec u) || ((sec t =? sec u) && (nsec t >? nsec u)).

(** The instant [t] is not later than [u]: the order "≤" on instants. *)
Definition time_le (t u : Time) : Prop :=
  sec t < sec u \/ (sec t = sec u /\ nsec t <= nsec u).

(** [strings.HasPrefix] *)
Definition HasPrefix (s pre : string) : bool := String.prefix pre s.

(** [strings.HasSuffix] *)
Definition HasSuffix (s suf : string) : bool :=
  (String.length suf <=? String.length s)%nat
  && String.eqb
       (String.substring (String.length s - String.length suf)
                         (String.length suf) s)
       suf.

(** Reading a [map[string]string] at a key: the zero value when absent. *)
Definition mapIndex (m : gmap string string) (k : string) : string :=
  default "" (m !! k).

(** [aws.StringValue]: the pointed-to string, or the empty one for nil. *)
Definition StringValue (p : option string) : string := default "" p.

(** ** Errors

    Package-level error variables are compared by identity
    ([errors.Is]), so each one is a constructor of its own.  An error made
    at the call site keeps what it was made from: [errors.New(text)], or
    [fmt.Errorf(format, args...)] with its format and operands, where
    [ErrorfV] has error operands printed with [%v] (message only) and
    [ErrorfW] has a last operand wrapped with [%w]. *)
Inductive sentinel : Type :=
| ErrMissingKubernetesEnv
| ErrInvalidIngressUpdateParams
| ErrInvalidIngressUpdateARNParams
| ErrUpdateNotNeeded
| ErrInvalidConfiguration
| ErrInvalidCertificates
| ErrResourceNotFound
| ErrNoPermissionToAccessResource.

#[warnings="-register-all"] Inductive error : Type :=
| errVar (v : sentinel)
| errorsNew (text : string)
| Errorf (format : string) (args : list string)
| ErrorfV (format : string) (errs : list error)
| ErrorfW (format : string) (args : list string) (inner : error).

Definition sentinel_eqb (a b : sentinel) : bool :=
  match a, b with
  | ErrMissingKubernetesEnv, ErrMissingKubernetesEnv
  | ErrInvalidIngressUpdateParams, ErrInvalidIngressUpdateParams
  | ErrInvalidIngressUpdateARNParams, ErrInvalidIngressUpdateARNParams
  | ErrUpdateNotNeeded, ErrUpdateNotNeeded
  | ErrInvalidConfiguration, ErrInvalidConfiguration
  | ErrInvalidCertificates, ErrInvalidCertificates
  | ErrResourceNotFound, ErrResourceNotFound
  | ErrNoPermissionToAccessResource, ErrNoPermissionToAccessResource => true
  | _, _ => false
  end.

(** [errors.Is(err, target)] for a package-level [target]. *)
Fixpoint errors_Is (err : error) (target : sentinel) : bool :=
  match err with
  | errVar v => sentinel_eqb v target
  | errorsNew _ | Errorf _ _ | ErrorfV _ _ => false
  | ErrorfW _ _ inner => errors_Is inner target
  end.

(** ** AWS SDK types and constants used by the code *)

Module cloudformation.
Definition StackStatusCreateInProgress := "CREATE_IN_PROGRESS".
Definition StackStatusCreateFailed := "CREATE_FAILED".
Definition StackStatusCreateComplete := "CREATE_COMPLETE".
Definition StackStatusRollbackInProgress := "ROLLBACK_IN_PROGRESS".
Definition StackStatusRollbackFailed := "ROLLBACK_FAILED".
Definition StackStatusRollbackComplete := "ROLLBACK_COMPLETE".
Definition StackStatusDeleteInProgress := "DELETE_IN_PROGRESS".
Definition StackStatusDeleteFailed := "DELETE_FAILED".
Definition StackStatusDeleteComplete := "DELETE_COMPLETE".
Definition StackStatusUpdateInProgress := "UPDATE_IN_PROGRESS".
Definition StackStatusUpdateCompleteCleanupInProgress :=
  "UPDATE_COMPLETE_CLEANUP_IN_PROGRESS".
Definition StackStatusUpdateComplete := "UPDATE_COMPLETE".
Definition StackStatusUpdateRollbackInProgress :=
  "UPDATE_ROLLBACK_IN_PROGRESS".
Definition StackStatusUpdateRollbackFailed := "UPDATE_ROLLBACK_FAILED".
Definition StackStatusUpdateRollbackCompleteCleanupInProgress :=
  "UPDATE_ROLLBACK_COMPLETE_CLEANUP_IN_PROGRESS".
Definition StackStatusUpdateRollbackComplete := "UPDATE_ROLLBACK_COMPLETE".
Definition StackStatusReviewInProgress := "REVIEW_IN_PROGRESS".

(** The SDK records hold [*string] fields. *)
Record Tag : Type := mkTag { Key : option string; Value : option string }.
Record Output : Type :=
  mkOutput { OutputKey : option string; OutputValue : option string }.
Record StackParameter : Type :=
  mkStackParameter { ParameterKey : option string; ParameterValue : option string }.
Record Stack : Type := mkStack {
  StackName : option string;
  StackStatus : option string;
  StackStatusReason : option string;
  Outputs : list Output;
  Parameters : list StackParameter;
  Tags : list Tag
}.

Definition OnFailureDelete := "DELETE".

Record CreateStackInput : Type := mkCreateStackInput {
  create_StackName : option string;
  create_OnFailure : option string;
  create_Parameters : list StackParameter;
  create_Tags : list Tag;
  create_TemplateBody : option string;
  create_TimeoutInMinutes : option Z;
  create_EnableTerminationProtection : option bool
}.

Record UpdateStackInput : Type := mkUpdateStackInput {
  update_StackName : option string;
  update_Parameters : list StackParameter;
  update_Tags : list Tag;
  update_TemplateBody : option string
}.
End cloudformation.

Module elbv2.
Definition LoadBalancerSchemeEnumInternal := "internal".
Definition LoadBalancerSchemeEnumInternetFacing := "internet-facing".
End elbv2.

(** ** Package aws *)

Module aws.

Definition certificateARNTagLegacy := "ingress:certificate-arn".
Definition certificateARNTagPrefix := "ingress:certificate-arn/".
Definition ingressOwnerTag := "ingress:owner".
Definition cwAlarmConfigHashTag := "cloudwatch:alarm-config-hash".
Definition extraListenersTag := "ingress:extra-listeners".

Definition outputLoadBalancerDNSName := "LoadBalancerDNSName".
Definition outputLoadBalancerARN := "LoadBalancerARN".
Definition parameterLoadBalancerSchemeParameter := "LoadBalancerSchemeParameter".
Definition parameterLoadBalancerSecurityGroupParameter :=
  "LoadBalancerSecurityGroupParameter".
Definition parameterListenerSslPolicyParameter := "ListenerSslPolicyParameter".
Definition parameterIpAddressTypeParameter := "IpAddressType".
Definition parameterLoadBalancerTypeParameter := "Type".
Definition parameterLoadBalancerWAFWebACLIDParameter :=
  "LoadBalancerWAFWebACLIDParameter".
Definition parameterHTTP2Parameter := "HTTP2".

(** Modelled from the spec: the tag names and values of package aws that
    are declared outside the stack wrapper.  Section 4.2 and section 6 of the
    specification give them: a managed stack is tagged
    [kubernetes:application] = controllerID and
    [kubernetes.io/cluster/<clusterID>] = [owned]; the legacy tag is
    [KubernetesCluster]. *)
Definition kubernetesCreatorTag := "kubernetes:application".
Definition clusterIDTagPrefix := "kubernetes.io/cluster/".
Definition resourceLifecycleOwned := "owned".
Definition clusterIDTag := "KubernetesCluster".

(** Modelled from the spec: the load-balancer type and IP address type
    names of package aws, declared outside the stack wrapper.  Section 3 of the
    specification: IP address type (ipv4 | dualstack), load-balancer type
    (application | network). *)
Definition LoadBalancerTypeApplication := "application".
Definition LoadBalancerTypeNetwork := "network".
Definition IPAddressTypeIPV4 := "ipv4".
Definition IPAddressTypeDualstack := "dualstack".

Record ExtraListener : Type := mkExtraListener {
  ListenProtocol : string;
  ListenPort : Z;
  TargetPort : Z;
  PodLabel : string;
  Namespace : string
}.

Record CNIEndpoint : Type := mkCNIEndpoint {
  cniNamespace : string;
  Podlabel : string
}.

(** [type Stack struct] *)
Record Stack : Type := mkStack {
  Name : string;
  status : string;
  statusReason : string;
  DNSName : string;
  Scheme : string;
  SecurityGroup : string;
  SSLPolicy : string;
  IpAddressType : string;
  LoadBalancerType : string;
  HTTP2 : bool;
  ExtraListeners : list ExtraListener;
  OwnerIngress : string;
  CWAlarmConfigHash : string;
  TargetGroupARNs : list string;
  WAFWebACLID : string;
  CertificateARNs : gmap string Time;
  tags : gmap string string;
  loadbalancerARN : string
}.

(** [&Stack{}] *)
Definition emptyStack : Stack :=
  mkStack "" "" "" "" "" "" "" "" "" false [] "" "" [] "" ∅ ∅ "".

(** [switch s.status { case c1, c2, ...: }] over string constants. *)
Definition status_in (st : string) (cases : list string) : bool :=
  existsb (String.eqb st) cases.

Definition completeStatuses : list string :=
  [ cloudformation.StackStatusCreateComplete;
    cloudformation.StackStatusUpdateComplete;
    cloudformation.StackStatusRollbackComplete;
    cloudformation.StackStatusUpdateRollbackComplete ].

(** [func (s *Stack) IsComplete() bool] *)
Definition IsComplete (s : option Stack) : bool :=
  match s with
  | None => false
  | Some s => if status_in (status s) completeStatuses then true else false
  end.

(** The loop of [ShouldDelete] over the certificate map: the first TTL
    that is zero or after [now] makes the function return false.  The
    result does not depend on the order in which the map is visited. *)
Fixpoint noValidCertificate (now : Time) (certs : list (string * Time)) : bool :=
  match certs with
  | [] => true
  | (_, t) :: rest =>
      if IsZero t || After t now then false
      else noValidCertificate now rest
  end.

(** [func (s *Stack) ShouldDelete() bool]; [now] is [time.Now().UTC()]. *)
Definition ShouldDelete (s : option Stack) (now : Time) : bool :=
  match s with
  | None => false
  | Some s => noValidCertificate now (map_to_list (CertificateARNs s))
  end.

Definition okStatuses : list string :=
  [ cloudformation.StackStatusCreateInProgress;
    cloudformation.StackStatusCreateComplete;
    cloudformation.StackStatusUpdateInProgress;
    cloudformation.StackStatusUpdateComplete;
    cloudformation.StackStatusUpdateCompleteCleanupInProgress;
    cloudformation.StackStatusDeleteInProgress;
    cloudformation.StackStatusDeleteComplete ].

(** [func (s *Stack) Err() error] *)
Definition Err (s : option Stack) : option error :=
  match s with
  | None => None
  | Some s =>
      if status_in (status s) okStatuses then None
      else if negb (String.eqb (statusReason s) "") then
        Some (Errorf "unexpected status %s: %s" [status s; statusReason s])
      else Some (Errorf "unexpected status %s" [status s])
  end.

(** [strings.Contains] *)
Fixpoint Contains (s sub : string) : bool :=
  String.prefix sub s
  || match s with
     | EmptyString => false
     | String _ rest => Contains rest sub
     end.

(** [strings.TrimPrefix] *)
Definition TrimPrefix (s pre : string) : string :=
  if HasPrefix s pre
  then String.substring (String.length pre)
                        (String.length s - String.length pre) s
  else s.

(** [func newStackOutput(outputs []*cloudformation.Output) stackOutput] *)
Definition newStackOutput (outputs : list cloudformation.Output)
  : gmap string string :=
  foldl (fun result o =>
           <[StringValue (cloudformation.OutputKey o) :=
               StringValue (cloudformation.OutputValue o)]> result)
        ∅ outputs.

(** [func (o stackOutput) dnsName() string] *)
Definition dnsName (o : gmap string string) : string :=
  mapIndex o outputLoadBalancerDNSName.

(** [func (o stackOutput) lbARN() string] *)
Definition lbARN (o : gmap string string) : string :=
  mapIndex o outputLoadBalancerARN.

(** [func (o stackOutput) targetGroupARNs() (arns []string)]; the order of
    the result follows the order in which the map is visited. *)
Definition targetGroupARNs (o : gmap string string) : list string :=
  foldl (fun arns kv => if Contains kv.1 "TargetGroupARN"
                        then arns ++ [kv.2] else arns)
        [] (map_to_list o).

(** [func convertStackParameters(parameters []*cloudformation.Parameter)] *)
Definition convertStackParameters
  (parameters : list cloudformation.StackParameter) : gmap string string :=
  foldl (fun result p =>
           <[StringValue (cloudformation.ParameterKey p) :=
               StringValue (cloudformation.ParameterValue p)]> result)
        ∅ parameters.

(** [func convertCloudFormationTags(tags []*cloudformation.Tag)]: a later
    tag with the same key overwrites an earlier one. *)
Definition convertCloudFormationTags (cfTags : list cloudformation.Tag)
  : gmap string string :=
  foldl (fun ret tag =>
           <[StringValue (cloudformation.Key tag) :=
               StringValue (cloudformation.Value tag)]> ret)
        ∅ cfTags.

(** [func isManagedStack(cfTags []*cloudformation.Tag, clusterID string,
    controllerID string) bool] *)
Definition isManagedStack (cfTags : list cloudformation.Tag)
  (clusterID controllerID : string) : bool :=
  let tags := convertCloudFormationTags cfTags in
  if negb (String.eqb (mapIndex tags kubernetesCreatorTag) controllerID)
  then false
  else String.eqb (mapIndex tags (clusterIDTagPrefix +:+ clusterID))
                  resourceLifecycleOwned
       || String.eqb (mapIndex tags clusterIDTag) clusterID.

Section StackInventory.

(** Library functions the decoding of a stack goes through:
    [time.Parse(time.RFC3339, -)], [base64.StdEncoding.DecodeString] (whose
    error the code drops) and [json.Unmarshal] into a listener slice. *)
Variable time_Parse_RFC3339 : string -> error + Time.
Variable base64_DecodeString : string -> string.
Variable json_Unmarshal : string -> error + list ExtraListener.

(** What the loop of [mapToManagedStack] over the tags has built so far. *)
Record tagScan : Type := mkTagScan {
  scanCertificateARNs : gmap string Time;
  scanOwnerIngress : string;
  scanExtraListeners : list ExtraListener
}.

(** One iteration of [for key, value := range tags]. *)
Definition scanTag (acc : tagScan) (key value : string) : error + tagScan :=
  let certs1 :=
    if HasPrefix key certificateARNTagPrefix then
      let arn := TrimPrefix key certificateARNTagPrefix in
      let ttl := match time_Parse_RFC3339 value with
                 | inr ttl => ttl
                 | inl _ => zeroTime
                 end in
      <[arn := ttl]> (scanCertificateARNs acc)
    else scanCertificateARNs acc in
  let certs2 :=
    if String.eqb key certificateARNTagLegacy
    then <[value := zeroTime]> certs1 else certs1 in
  let owner :=
    if String.eqb key ingressOwnerTag then value else scanOwnerIngress acc in
  if String.eqb key extraListenersTag then
    match json_Unmarshal (base64_DecodeString value) with
    | inl err => inl err
    | inr listeners => inr (mkTagScan certs2 owner listeners)
    end
  else inr (mkTagScan certs2 owner (scanExtraListeners acc)).

(** The loop over the tags.  Go visits a map in an unspecified order; here
    the tags are visited in the order of [map_to_list]. *)
Fixpoint scanTags (acc : tagScan) (kvs : list (string * string))
  : error + tagScan :=
  match kvs with
  | [] => inr acc
  | (key, value) :: rest =>
      match scanTag acc key value with
      | inl err => inl err
      | inr acc' => scanTags acc' rest
      end
  end.

(** [func mapToManagedStack(stack *cloudformation.Stack)], returning a
    stack and an error:
    on a decoding error the code returns [&Stack{}] with the error. *)
Definition mapToManagedStack (stack : cloudformation.Stack)
  : Stack * option error :=
  let outputs := newStackOutput (cloudformation.Outputs stack) in
  let tags := convertCloudFormationTags (cloudformation.Tags stack) in
  let parameters := convertStackParameters (cloudformation.Parameters stack) in
  match scanTags (mkTagScan ∅ "" []) (map_to_list tags) with
  | inl err => (emptyStack, Some err)
  | inr scan =>
      let http2 :=
        if String.eqb (mapIndex parameters parameterHTTP2Parameter) "false"
        then false else true in
      (mkStack
         (StringValue (cloudformation.StackName stack))
         (StringValue (cloudformation.StackStatus stack))
         (StringValue (cloudformation.StackStatusReason stack))
         (dnsName outputs)
         (mapIndex parameters parameterLoadBalancerSchemeParameter)
         (mapIndex parameters parameterLoadBalancerSecurityGroupParameter)
         (mapIndex parameters parameterListenerSslPolicyParameter)
         (mapIndex parameters parameterIpAddressTypeParameter)
         (mapIndex parameters parameterLoadBalancerTypeParameter)
         http2
         (scanExtraListeners scan)
         (scanOwnerIngress scan)
         (mapIndex tags cwAlarmConfigHashTag)
         (targetGroupARNs outputs)
         (mapIndex parameters parameterLoadBalancerWAFWebACLIDParameter)
         (scanCertificateARNs scan)
         tags
         (lbARN outputs),
       None)
  end.

(** The callback of [findManagedStacks] on one page: every stack that
    [isManagedStack] accepts is decoded and appended, together with the
    decoding error if there is one. *)
Fixpoint collectManaged (clusterID controllerID : string)
  (page : list cloudformation.Stack) (acc : list Stack * list error)
  : list Stack * list error :=
  match page with
  | [] => acc
  | s :: rest =>
      let acc' :=
        if isManagedStack (cloudformation.Tags s) clusterID controllerID then
          let '(stack, err) := mapToManagedStack s in
          let errors := match err with
                        | Some e => acc.2 ++ [e]
                        | None => acc.2
                        end in
          (acc.1 ++ [stack], errors)
        else acc in
      collectManaged clusterID controllerID rest acc'
  end.

(** [func findManagedStacks(svc, clusterID, controllerID string)
    ([]*Stack, error)].  [pages] are the pages [DescribeStacksPages] hands
    to the callback (which always asks for the next one) and [err] is what
    the call returns in the end. *)
Definition findManagedStacks (pages : list (list cloudformation.Stack))
  (err : option error) (clusterID controllerID : string)
  : error + list Stack :=
  let '(stacks, errors) :=
    foldl (fun acc page => collectManaged clusterID controllerID page acc)
          ([], []) pages in
  match err with
  | Some err =>
      inl (ErrorfW "findManagedStacks failed to list stacks: %w" [] err)
  | None =>
      if (0 <? length errors)%nat
      then inl (ErrorfV "mapToManagedStacks returned errors: %v" errors)
      else inr stacks
  end.

End StackInventory.

(** *** Creating, updating and deleting a stack *)

Definition parameterLoadBalancerSubnetsParameter := "LoadBalancerSubnetsParameter".
Definition parameterTargetGroupHealthCheckPathParameter :=
  "TargetGroupHealthCheckPathParameter".
Definition parameterTargetGroupHealthCheckPortParameter :=
  "TargetGroupHealthCheckPortParameter".
Definition parameterTargetGroupHealthCheckIntervalParameter :=
  "TargetGroupHealthCheckIntervalParameter".
Definition parameterTargetGroupHealthCheckTimeoutParameter :=
  "TargetGroupHealthCheckTimeoutParameter".
Definition parameterTargetGroupTargetPortParameter :=
  "TargetGroupTargetPortParameter".
Definition parameterTargetGroupHTTPTargetPortParameter :=
  "TargetGroupHTTPTargetPortParameter".
Definition parameterTargetGroupVPCIDParameter := "TargetGroupVPCIDParameter".

(** [func mergeTags(tags ...map[string]string) map[string]string]: the maps
    are copied one after the other into a fresh map. *)
Definition mergeTags (tags : list (gmap string string)) : gmap string string :=
  foldl (fun mergedTags tagMap =>
           foldl (fun m kv => <[kv.1 := kv.2]> m) mergedTags (map_to_list tagMap))
        ∅ tags.

(** [func cfParam(key, value string) *cloudformation.Parameter] *)
Definition cfParam (key value : string) : cloudformation.StackParameter :=
  cloudformation.mkStackParameter (Some key) (Some value).

(** [func cfTag(key, value string) *cloudformation.Tag] *)
Definition cfTag (key value : string) : cloudformation.Tag :=
  cloudformation.mkTag (Some key) (Some value).

(** [func tagMapToCloudformationTags(tags map[string]string)]; the order of
    the result follows the order in which the map is visited. *)
Definition tagMapToCloudformationTags (tags : gmap string string)
  : list cloudformation.Tag :=
  List.map (fun kv => cloudformation.mkTag (Some kv.1) (Some kv.2))
           (map_to_list tags).

(** [type healthCheck struct]; the two durations are in nanoseconds. *)
Record healthCheck : Type := mkHealthCheck {
  path : string;
  port : N;
  interval : Z;
  timeout : Z
}.

Record denyResp : Type := mkDenyResp {
  statusCode : Z;
  contentType : string;
  body : string
}.

Section StackOperations.

(** The alarm list of a stack specification is declared elsewhere in the
    package; the code here takes its length and its [Hash()]. *)
Variable CloudWatchAlarm : Type.
Variable cwAlarms_Hash : list CloudWatchAlarm -> string.

(** Library functions: [t.Format(time.RFC3339)], [json.Marshal] of a
    listener slice (its error is dropped), [base64.StdEncoding.EncodeToString]
    and [fmt.Sprintf] with verb [%.0f] of the seconds of a duration. *)
Variable time_Format_RFC3339 : Time -> string.
Variable json_Marshal : list ExtraListener -> string.
Variable base64_EncodeToString : string -> string.
Variable Sprintf_seconds : Z -> string.

(** [type stackSpec struct] *)
Record stackSpec : Type := mkStackSpec {
  name : string;
  scheme : string;
  ownerIngress : string;
  subnets : list string;
  certificateARNs : gmap string Time;
  securityGroupID : string;
  clusterID : string;
  vpcID : string;
  spec_healthCheck : option healthCheck;
  albHealthyThresholdCount : N;
  albUnhealthyThresholdCount : N;
  nlbHealthyThresholdCount : N;
  targetType : string;
  targetPort : N;
  targetHTTPS : bool;
  httpDisabled : bool;
  httpTargetPort : N;
  timeoutInMinutes : N;
  stackTerminationProtection : bool;
  idleConnectionTimeoutSeconds : N;
  deregistrationDelayTimeoutSeconds : N;
  controllerID : string;
  sslPolicy : string;
  ipAddressType : string;
  loadbalancerType : string;
  albLogsS3Bucket : string;
  albLogsS3Prefix : string;
  wafWebAclId : string;
  cwAlarms : list CloudWatchAlarm;
  httpRedirectToHTTPS : bool;
  nlbCrossZone : bool;
  extraListeners : list ExtraListener;
  http2 : bool;
  denyInternalDomains : bool;
  denyInternalDomainsResponse : denyResp;
  internalDomains : list string;
  spec_tags : gmap string string
}.

(** The conversion [int64(u)] of a [uint] (64 bits wide): from 2^63 on the
    value wraps around to the negative numbers. *)
Definition int64_of_uint (u : N) : Z :=
  let z := Z.of_N u mod 2 ^ 64 in
  if z <? 2 ^ 63 then z else z - 2 ^ 64.

(** [fmt.Sprintf] with verb [%t] *)
Definition Sprintf_t (b : bool) : string := if b then "true" else "false".

(** [fmt.Sprintf] with verb [%d] of an unsigned integer *)
Definition Sprintf_d (n : N) : string := pretty n.

(** The parameter list [createStack] and [updateStack] build, each in its
    own copy of the same statements. *)
Definition stackParameters (spec : stackSpec)
  : list cloudformation.StackParameter :=
  let params :=
    [ cfParam parameterLoadBalancerSchemeParameter (scheme spec);
      cfParam parameterLoadBalancerSecurityGroupParameter (securityGroupID spec);
      cfParam parameterLoadBalancerSubnetsParameter
              (String.concat "," (subnets spec));
      cfParam parameterTargetGroupVPCIDParameter (vpcID spec);
      cfParam parameterTargetGroupTargetPortParameter
              (Sprintf_d (targetPort spec));
      cfParam parameterListenerSslPolicyParameter (sslPolicy spec);
      cfParam parameterIpAddressTypeParameter (ipAddressType spec);
      cfParam parameterLoadBalancerTypeParameter (loadbalancerType spec);
      cfParam parameterHTTP2Parameter (Sprintf_t (http2 spec)) ] in
  let params :=
    if negb (String.eqb (wafWebAclId spec) "")
    then params ++ [cfParam parameterLoadBalancerWAFWebACLIDParameter
                            (wafWebAclId spec)]
    else params in
  let params :=
    if negb (httpDisabled spec)
       && negb (N.eqb (httpTargetPort spec) (targetPort spec))
    then params ++ [cfParam parameterTargetGroupHTTPTargetPortParameter
                            (Sprintf_d (httpTargetPort spec))]
    else params in
  match spec_healthCheck spec with
  | Some hc =>
      params ++
      [ cfParam parameterTargetGroupHealthCheckPathParameter (path hc);
        cfParam parameterTargetGroupHealthCheckPortParameter (Sprintf_d (port hc));
        cfParam parameterTargetGroupHealthCheckIntervalParameter
                (Sprintf_seconds (interval hc));
        cfParam parameterTargetGroupHealthCheckTimeoutParameter
                (Sprintf_seconds (timeout hc)) ]
  | None => params
  end.

(** The tag list [createStack] and [updateStack] build: the merged tags,
    then one tag per certificate, the owner, the alarm hash and the extra
    listeners.  The certificate map is visited in the order of
    [map_to_list]. *)
Definition stackTagList (spec : stackSpec) : list cloudformation.Tag :=
  let stackTags : gmap string string :=
    <[clusterIDTagPrefix +:+ clusterID spec := resourceLifecycleOwned]>
      (<[kubernetesCreatorTag := controllerID spec]> ∅) in
  let tags := mergeTags [spec_tags spec; stackTags] in
  let cfTags := tagMapToCloudformationTags tags in
  let cfTags :=
    cfTags ++ List.map (fun kv => cfTag (certificateARNTagPrefix +:+ kv.1)
                                        (time_Format_RFC3339 kv.2))
                       (map_to_list (certificateARNs spec)) in
  let cfTags :=
    if negb (String.eqb (ownerIngress spec) "")
    then cfTags ++ [cfTag ingressOwnerTag (ownerIngress spec)] else cfTags in
  let cfTags :=
    if (0 <? length (cwAlarms spec))%nat
    then cfTags ++ [cfTag cwAlarmConfigHashTag (cwAlarms_Hash (cwAlarms spec))]
    else cfTags in
  if (0 <? length (extraListeners spec))%nat
  then cfTags ++ [cfTag extraListenersTag
                        (base64_EncodeToString
                           (json_Marshal (extraListeners spec)))]
  else cfTags.

(** The requests the three functions send to CloudFormation. *)
Inductive cfCall : Type :=
| callCreateStack (input : cloudformation.CreateStackInput)
| callUpdateStack (input : cloudformation.UpdateStackInput)
| callUpdateTerminationProtection (stackName : string) (enable : bool)
| callDeleteStack (stackName : string).

(** [func createStack(svc, spec *stackSpec) (string, error)].  [template] is
    what [generateTemplate(spec)] returns and [reply] what [svc.CreateStack]
    answers (an error, or the stack id). *)
Definition createStack (w : list cfCall) (spec : stackSpec)
  (template : error + string) (reply : error + option string)
  : list cfCall * (string * option error) :=
  match template with
  | inl err => (w, ("", Some err))
  | inr template =>
      let params :=
        cloudformation.mkCreateStackInput
          (Some (name spec))
          (Some cloudformation.OnFailureDelete)
          (stackParameters spec)
          (stackTagList spec)
          (Some template)
          (Some (int64_of_uint (timeoutInMinutes spec)))
          (Some (stackTerminationProtection spec)) in
      (w ++ [callCreateStack params],
       match reply with
       | inl err => (name spec, Some err)
       | inr stackId => (StringValue stackId, None)
       end)
  end.

(** [func updateStack(svc, spec *stackSpec) (string, error)].
    [protectionReply] is the error of [svc.UpdateTerminationProtection], if
    it is called and fails; [reply] is what [svc.UpdateStack] answers. *)
Definition updateStack (w : list cfCall) (spec : stackSpec)
  (template : error + string) (protectionReply : option error)
  (reply : error + option string)
  : list cfCall * (string * option error) :=
  match template with
  | inl err => (w, ("", Some err))
  | inr template =>
      let params :=
        cloudformation.mkUpdateStackInput
          (Some (name spec))
          (stackParameters spec)
          (stackTagList spec)
          (Some template) in
      let sendUpdate (w : list cfCall) :=
        (w ++ [callUpdateStack params],
         match reply with
         | inl err => (name spec, Some err)
         | inr stackId => (StringValue stackId, None)
         end) in
      if stackTerminationProtection spec then
        let w := w ++ [callUpdateTerminationProtection
                         (name spec) (stackTerminationProtection spec)] in
        match protectionReply with
        | Some err => (w, (name spec, Some err))
        | None => sendUpdate w
        end
      else sendUpdate w
  end.

(** [func deleteStack(svc, stackName string) error] *)
Definition deleteStack (w : list cfCall) (stackName : string)
  (protectionReply deleteReply : option error) : list cfCall * option error :=
  let w := w ++ [callUpdateTerminationProtection stackName false] in
  match protectionReply with
  | Some err => (w, Some err)
  | None => (w ++ [callDeleteStack stackName], deleteReply)
  end.

End StackOperations.

(** *** Looking a stack up by name *)

Section StackLookup.

Variable time_Parse_RFC3339 : string -> error + Time.
Variable base64_DecodeString : string -> string.
Variable json_Unmarshal : string -> error + list ExtraListener.

(** Two error variables of the package that are declared in another
    file. *)
Variable ErrLoadBalancerStackNotFound : error.
Variable ErrLoadBalancerStackNotReady : error.

(** [func getCFStackByName(svc, stackName string)]: [reply] is what
    [svc.DescribeStacks] answers, an error or the stacks of the response,
    each of them a pointer that may be nil. *)
Definition getCFStackByName (reply : error + list (option cloudformation.Stack))
  : error + cloudformation.Stack :=
  match reply with
  | inl err => inl err
  | inr stacks =>
      if (length stacks <? 1)%nat then inl ErrLoadBalancerStackNotFound
      else match stacks with
           | Some stack :: _ => inr stack
           | None :: _ | [] => inl ErrLoadBalancerStackNotReady
           end
  end.

(** [func getStack(svc, stackName string)], returning a stack pointer and
    an error. *)
Definition getStack (reply : error + list (option cloudformation.Stack))
  : option Stack * option error :=
  match getCFStackByName reply with
  | inl _ => (None, Some ErrLoadBalancerStackNotReady)
  | inr stack =>
      let '(s, err) :=
        mapToManagedStack time_Parse_RFC3339 base64_DecodeString json_Unmarshal
          stack in
      (Some s, err)
  end.

End StackLookup.

End aws.

(** ** Package fake: the EC2 mock *)

Module ec2.

Record Tag : Type := mkTag { Key : option string; Value : option string }.

Record InstanceState : Type := mkInstanceState { Code : option Z }.

Record Instance : Type := mkInstance {
  InstanceId : option string;
  Tags : list Tag;
  State : option InstanceState;
  PrivateIpAddress : option string;
  VpcId : option string
}.

Record Reservation : Type := mkReservation { Instances : list Instance }.

Record DescribeInstancesOutput : Type :=
  mkDescribeInstancesOutput { Reservations : list Reservation }.

End ec2.

Module fake.

Definition dipSplitSize : nat := 2.

(** What the [response] field of a canned answer holds: an
    [*ec2.DescribeInstancesOutput], or a value of another dynamic type
    (nil included), which the type assertion of the instance calls
    refuses. *)
Inductive apiOutput : Type :=
| instancesOutput (out : ec2.DescribeInstancesOutput)
| otherOutput.

(** [ApiResponse] is declared elsewhere in the package; these are the two
    fields the mock reads. *)
Record ApiResponse : Type := mkApiResponse {
  response : apiOutput;
  err : option error
}.

(** [type TestInstance struct] *)
Record TestInstance : Type := mkTestInstance {
  test_Id : string;
  test_Tags : gmap string string;
  test_PrivateIp : string;
  test_VpcId : string;
  test_State : Z
}.

(** One instance of [MockDIOutput]; the tags follow the order in which the
    map is visited. *)
Definition mockInstance (i : TestInstance) : ec2.Instance :=
  ec2.mkInstance
    (Some (test_Id i))
    (List.map (fun kv => ec2.mkTag (Some kv.1) (Some kv.2))
              (map_to_list (test_Tags i)))
    (Some (ec2.mkInstanceState (Some (test_State i))))
    (Some (test_PrivateIp i))
    (Some (test_VpcId i)).

(** [func MockDIOutput(mockedInstances ...TestInstance)
    *ec2.DescribeInstancesOutput]: one reservation with all the instances. *)
Definition MockDIOutput (mockedInstances : list TestInstance)
  : ec2.DescribeInstancesOutput :=
  ec2.mkDescribeInstancesOutput
    [ec2.mkReservation (List.map mockInstance mockedInstances)].

(** The Go slice expression [l[lo:hi]]. *)
Definition slice {A : Type} (l : list A) (lo hi : nat) : list A :=
  firstn (hi - lo) (skipn lo l).

Section Paging.

(** [R(response, err)] builds a canned answer; it is declared elsewhere in
    the package. *)
Variable R : apiOutput -> option error -> ApiResponse.

(** [func MockDIPOutput(e error, mockedInstances ...TestInstance)
    []*ApiResponse] *)
Definition MockDIPOutput (e : option error) (mockedInstances : list TestInstance)
  : list ApiResponse :=
  let pages := (length mockedInstances / dipSplitSize)%nat in
  let result :=
    List.map (fun i =>
                R (instancesOutput
                     (MockDIOutput
                        (slice mockedInstances (i * dipSplitSize)
                               ((i + 1) * dipSplitSize))))
                  e)
             (seq 0 pages) in
  if negb (length mockedInstances mod dipSplitSize =? 0)%nat
  then result ++ [R (instancesOutput
                       (MockDIOutput (skipn (pages * dipSplitSize) mockedInstances)))
                    e]
  else result.

End Paging.

(** [func (m *MockEc2Client) DescribeInstancesPages(params, f)]: [pages] is
    [m.Outputs.DescribeInstancesPages]; the callback [f] works on a state
    [S] and answers whether it wants another page. *)
Definition DescribeInstancesPages {S : Type} (pages : list ApiResponse)
  (f : S -> ec2.DescribeInstancesOutput -> bool -> S * bool) (s : S)
  : S * option error :=
  let s' :=
    foldl (fun s resp =>
             match response resp with
             | instancesOutput out => (f s out true).1
             | otherOutput => s
             end)
          s pages in
  (s', match pages with
       | first :: _ => err first
       | [] => None
       end).

(** [func (m *MockEc2Client) DescribeInstances(...)]; [canned] is
    [m.Outputs.DescribeInstances]. *)
Definition DescribeInstances (canned : ApiResponse)
  : option ec2.DescribeInstancesOutput * option error :=
  match response canned with
  | instancesOutput out => (Some out, err canned)
  | otherOutput => (None, err canned)
  end.

End fake.

(** ** Package kubernetes *)

Module kubernetes.

(** [type IngressType string] *)
Definition TypeIngress := "ingress".
Definition TypeRouteGroup := "routegroup".

Definition DefaultClusterLocalDomain := ".cluster.local".
Definition loadBalancerTypeNLB := "nlb".
Definition loadBalancerTypeALB := "alb".

Definition loadBalancerTypesIngressToAWS : gmap string string :=
  <[loadBalancerTypeALB := aws.LoadBalancerTypeApplication]>
    (<[loadBalancerTypeNLB := aws.LoadBalancerTypeNetwork]> ∅).

Definition loadBalancerTypesAWSToIngress : gmap string string :=
  <[aws.LoadBalancerTypeApplication := loadBalancerTypeALB]>
    (<[aws.LoadBalancerTypeNetwork := loadBalancerTypeNLB]> ∅).

(** [type Ingress struct]: the controller's business object. *)
Record Ingress : Type := mkIngress {
  ResourceType : string;
  Namespace : string;
  Name : string;
  Shared : bool;
  HTTP2 : bool;
  ClusterLocal : bool;
  CertificateARN : string;
  Hostname : string;
  ExtraListeners : list aws.ExtraListener;
  Scheme : string;
  SecurityGroup : string;
  SSLPolicy : string;
  IPAddressType : string;
  LoadBalancerType : string;
  WAFWebACLID : string;
  Hostnames : list string
}.

(** *** The Kubernetes objects and the ingress client *)

Record kubeItemMetadata : Type := mkKubeItemMetadata {
  md_Namespace : string;
  md_Name : string;
  UID : string;
  Annotations : gmap string string;
  SelfLink : string;
  ResourceVersion : string;
  Generation : Z;
  CreationTimestamp : Time;
  DeletionTimestamp : Time;
  Labels : gmap string string
}.

Record ingressItemRule : Type := mkIngressItemRule { Host : string }.

Record ingressSpec : Type := mkIngressSpec {
  Rules : list ingressItemRule;
  IngressClassName : string
}.

Record ingressLoadBalancer : Type :=
  mkIngressLoadBalancer { lb_Hostname : string }.

Record ingressLoadBalancerStatus : Type :=
  mkIngressLoadBalancerStatus { lb_Ingress : list ingressLoadBalancer }.

Record ingressStatus : Type :=
  mkIngressStatus { LoadBalancer : ingressLoadBalancerStatus }.

Record ingress : Type := mkKubeIngress {
  Metadata : kubeItemMetadata;
  Spec : ingressSpec;
  Status : ingressStatus
}.

Record ingressListMetadata : Type := mkIngressListMetadata {
  list_SelfLink : string;
  list_ResourceVersion : string
}.

Record ingressList : Type := mkIngressList {
  Kind : string;
  APIVersion : string;
  list_Metadata : ingressListMetadata;
  Items : list ingress
}.

Record patchIngressStatus : Type :=
  mkPatchIngressStatus { patch_Status : ingressStatus }.

(** The routegroup object is declared outside adapter.go; these are the
    fields the adapter reads: [rg.Metadata], [rg.Spec.Hosts] and the
    [Hostname] of each entry of [rg.Status.LoadBalancer.Routegroup]. *)
Record routegroup : Type := mkRoutegroup {
  rg_Metadata : kubeItemMetadata;
  rg_Spec_Hosts : list string;
  rg_Status_LoadBalancer_Routegroup : list ingressLoadBalancer
}.

Record routegroupList : Type :=
  mkRoutegroupList { rg_Items : list routegroup }.

Definition ingressALBIPAddressType := "alb.ingress.kubernetes.io/ip-address-type".
Definition ingressListResource (apiVersion : string) : string :=
  "/apis/" +:+ apiVersion +:+ "/ingresses".
Definition ingressPatchStatusResource (apiVersion ns name : string) : string :=
  "/apis/" +:+ apiVersion +:+ "/namespaces/" +:+ ns +:+ "/ingresses/"
  +:+ name +:+ "/status".
Definition ingressCertificateARNAnnotation := "zalando.org/aws-load-balancer-ssl-cert".
Definition ingressSchemeAnnotation := "zalando.org/aws-load-balancer-scheme".
Definition ingressSharedAnnotation := "zalando.org/aws-load-balancer-shared".
Definition ingressSecurityGroupAnnotation :=
  "zalando.org/aws-load-balancer-security-group".
Definition ingressSSLPolicyAnnotation := "zalando.org/aws-load-balancer-ssl-policy".
Definition ingressLoadBalancerTypeAnnotation := "zalando.org/aws-load-balancer-type".
Definition ingressHTTP2Annotation := "zalando.org/aws-load-balancer-http2".
Definition ingressWAFWebACLIDAnnotation := "zalando.org/aws-waf-web-acl-id".
Definition ingressNLBExtraListenersAnnotation := "zalando.org/aws-nlb-extra-listeners".
Definition ingressClassAnnotation := "kubernetes.io/ingress.class".

(** [func getAnnotationsString(annotations map[string]string, key string,
    defaultValue string) string] *)
Definition getAnnotationsString (annotations : gmap string string)
  (key defaultValue : string) : string :=
  match annotations !! key with
  | Some val => val
  | None => defaultValue
  end.

(** [func getIngressClassName(spec ingressSpec, defaultValue string) string] *)
Definition getIngressClassName (spec : ingressSpec) (defaultValue : string)
  : string :=
  if negb (String.eqb (IngressClassName spec) "")
  then IngressClassName spec else defaultValue.

Record ingressClient : Type := mkIngressClient { apiVersion : string }.

(** *** The API server as the adapter sees it

    The HTTP client behind [kubeClient] is outside the adapter.  Every
    request the adapter makes is appended to a log, and what the server
    answers is an argument of the function that makes the request. *)
Inductive Call : Type :=
| callGet (resource : string)
| callPatch (resource : string) (payload : patchIngressStatus)
| callListRoutegroups
| callPatchRoutegroup (ns name newHostName : string).

(** Is the request a status PATCH (of an ingress or of a routegroup)? *)
Definition isPatch (c : Call) : bool :=
  match c with
  | callPatch _ _ | callPatchRoutegroup _ _ _ => true
  | callGet _ | callListRoutegroups => false
  end.

(** The answer to a GET whose body is decoded into an [A]: the request
    fails, reading the body fails, or the body is handed to
    [json.Unmarshal]. *)
Inductive getReply (A : Type) : Type :=
| GetError (err : error)
| ReadError (err : error)
| Body (decoded : error + A).
Arguments GetError {A} err.
Arguments ReadError {A} err.
Arguments Body {A} decoded.

(** [func (ic *ingressClient) listIngress(c client)], returning the
    decoded list or an error. *)
Definition listIngress (ic : ingressClient) (w : list Call)
  (reply : getReply ingressList) : list Call * (error + ingressList) :=
  (w ++ [callGet (ingressListResource (apiVersion ic))],
   match reply with
   | GetError err => inl (ErrorfW "failed to get ingress list: %w" [] err)
   | ReadError err => inl err
   | Body decoded => decoded
   end).

(** [func (ic *ingressClient) updateIngressLoadBalancer(c client, ns, name,
    newHostName string) error]; [reply] is the error of [c.patch], if any. *)
Definition updateIngressLoadBalancer (ic : ingressClient) (w : list Call)
  (ns name newHostName : string) (reply : option error)
  : list Call * option error :=
  let patchStatus :=
    mkPatchIngressStatus
      (mkIngressStatus
         (mkIngressLoadBalancerStatus [mkIngressLoadBalancer newHostName])) in
  let resource := ingressPatchStatusResource (apiVersion ic) ns name in
  (w ++ [callPatch resource patchStatus],
   match reply with
   | Some err =>
       Some (ErrorfW "failed to patch ingress %s/%s = %q: %w"
                     [ns; name; newHostName] err)
   | None => None
   end).

(** Modelled from the spec: [listRoutegroups], declared outside adapter.go.
    Section 6: the controller lists the RouteGroup CRD through the
    Kubernetes REST client; the listing yields the routegroups or an
    error. *)
Definition listRoutegroups (w : list Call) (reply : error + routegroupList)
  : list Call * (error + routegroupList) :=
  (w ++ [callListRoutegroups], reply).

(** Modelled from the spec: [updateRoutegroupLoadBalancer], declared outside
    adapter.go.  Section 6: PATCH routegroup status analogously to the
    ingress status, with the new hostname. *)
Definition updateRoutegroupLoadBalancer (w : list Call)
  (ns name newHostName : string) (reply : option error)
  : list Call * option error :=
  (w ++ [callPatchRoutegroup ns name newHostName], reply).

(** *** adapter.go *)

(** [type Adapter struct].  The two client handles ([kubeClient],
    [clientset]) are not fields here: the requests go to the call log. *)
Record Adapter : Type := mkAdapter {
  cniPodNamespace : string;
  cniPodLabelSelector : string;
  adapterIngressClient : ingressClient;
  ingressFilters : list string;
  ingressDefaultSecurityGroup : string;
  ingressDefaultSSLPolicy : string;
  ingressDefaultLoadBalancerType : string;
  clusterLocalDomain : string;
  routeGroupSupport : bool;
  extraCNIEndpoints : list aws.CNIEndpoint
}.

(** [a.extraCNIEndpoints = eps] *)
Definition set_extraCNIEndpoints (eps : list aws.CNIEndpoint) (a : Adapter)
  : Adapter :=
  mkAdapter (cniPodNamespace a) (cniPodLabelSelector a) (adapterIngressClient a)
            (ingressFilters a) (ingressDefaultSecurityGroup a)
            (ingressDefaultSSLPolicy a) (ingressDefaultLoadBalancerType a)
            (clusterLocalDomain a) (routeGroupSupport a) eps.

(** [a.routeGroupSupport = b] *)
Definition set_routeGroupSupport (b : bool) (a : Adapter) : Adapter :=
  mkAdapter (cniPodNamespace a) (cniPodLabelSelector a) (adapterIngressClient a)
            (ingressFilters a) (ingressDefaultSecurityGroup a)
            (ingressDefaultSSLPolicy a) (ingressDefaultLoadBalancerType a)
            (clusterLocalDomain a) b (extraCNIEndpoints a).

(** The configuration record is declared outside adapter.go; [NewAdapter]
    reads its [BaseURL] only. *)
Record Config : Type := mkConfig { BaseURL : string }.

(** [func NewAdapter(config *Config, ingressAPIVersion string, ...)];
    [newSimpleClient_err] is the error of [newSimpleClient], if any. *)
Definition NewAdapter (config : option Config) (ingressAPIVersion : string)
  (ingressClassFilters : list string)
  (ingressDefaultSecurityGroup ingressDefaultSSLPolicy
     ingressDefaultLoadBalancerType clusterLocalDomain : string)
  (disableInstrumentedHttpClient : bool)
  (newSimpleClient_err : option error) : error + Adapter :=
  match config with
  | None => inl (errVar ErrInvalidConfiguration)
  | Some config =>
      if String.eqb (BaseURL config) "" then inl (errVar ErrInvalidConfiguration)
      else match newSimpleClient_err with
           | Some err => inl err
           | None =>
               inr (mkAdapter "" "" (mkIngressClient ingressAPIVersion)
                      ingressClassFilters
                      ingressDefaultSecurityGroup
                      ingressDefaultSSLPolicy
                      (mapIndex loadBalancerTypesAWSToIngress
                                ingressDefaultLoadBalancerType)
                      clusterLocalDomain
                      true
                      [])
           end
  end.

(** The loop of [newIngress] over the decoded extra listeners: a listener
    with another protocol ends it with an error; before that, every
    listener gets the namespace of the resource and one more CNI endpoint
    is appended to the adapter. *)
Fixpoint checkExtraListeners (a : Adapter) (ns : string)
  (listeners : list aws.ExtraListener)
  : Adapter * (error + list aws.ExtraListener) :=
  match listeners with
  | [] => (a, inr [])
  | listener :: rest =>
      if negb (String.eqb (aws.ListenProtocol listener) "TCP")
         && negb (String.eqb (aws.ListenProtocol listener) "UDP")
         && negb (String.eqb (aws.ListenProtocol listener) "TCP_UDP")
      then (a, inl (errorsNew
             "only TCP, UDP, or TCP_UDP are allowed as protocols for extra listeners"))
      else
        let a' := set_extraCNIEndpoints
                    (extraCNIEndpoints a
                       ++ [aws.mkCNIEndpoint ns (aws.PodLabel listener)]) a in
        match checkExtraListeners a' ns rest with
        | (a'', inl err) => (a'', inl err)
        | (a'', inr rest') =>
            (a'', inr (aws.mkExtraListener
                         (aws.ListenProtocol listener) (aws.ListenPort listener)
                         (aws.TargetPort listener) (aws.PodLabel listener) ns
                       :: rest'))
        end
  end.

Section Normalizer.

(** [aws.SSLPolicies] (a table of package aws, only tested for membership)
    and [json.Unmarshal] into a listener slice. *)
Variable SSLPolicies : gmap string bool.
Variable json_Unmarshal : string -> error + list aws.ExtraListener.

(** The extra-listener block of [newIngress]. *)
Definition parseExtraListeners (a : Adapter) (metadata : kubeItemMetadata)
  (loadBalancerType : string) : Adapter * (error + list aws.ExtraListener) :=
  match Annotations metadata !! ingressNLBExtraListenersAnnotation with
  | None => (a, inr [])
  | Some rawlisteners =>
      if negb (String.eqb loadBalancerType loadBalancerTypeNLB)
      then (a, inl (errorsNew "extra listeners are only supported on NLBs"))
      else match json_Unmarshal rawlisteners with
           | inl err =>
               (a, inl (ErrorfV
                  "unable to parse aws-nlb-extra-listeners annotation: %v" [err]))
           | inr extraListeners =>
               checkExtraListeners a (md_Namespace metadata) extraListeners
           end
  end.

(** [func (a *Adapter) newIngress(typ IngressType, metadata kubeItemMetadata,
    host string, hostnames []string)], returning the record or an error,
    and the adapter as the call leaves it. *)
Definition newIngress (a : Adapter) (typ : string) (metadata : kubeItemMetadata)
  (host : string) (hostnames : list string) : Adapter * (error + Ingress) :=
  let annotations := Annotations metadata in
  let scheme :=
    if String.eqb (getAnnotationsString annotations ingressSchemeAnnotation "")
                  elbv2.LoadBalancerSchemeEnumInternal
    then elbv2.LoadBalancerSchemeEnumInternal
    else elbv2.LoadBalancerSchemeEnumInternetFacing in
  let shared :=
    if String.eqb (getAnnotationsString annotations ingressSharedAnnotation "")
                  "false"
    then false else true in
  let ipAddressType :=
    if String.eqb (getAnnotationsString annotations ingressALBIPAddressType "")
                  aws.IPAddressTypeDualstack
    then aws.IPAddressTypeDualstack else aws.IPAddressTypeIPV4 in
  let sslPolicy :=
    getAnnotationsString annotations ingressSSLPolicyAnnotation
                         (ingressDefaultSSLPolicy a) in
  let sslPolicy :=
    match SSLPolicies !! sslPolicy with
    | Some _ => sslPolicy
    | None => ingressDefaultSSLPolicy a
    end in
  let hasLB := bool_decide (is_Some (annotations !! ingressLoadBalancerTypeAnnotation)) in
  let loadBalancerType :=
    match annotations !! ingressLoadBalancerTypeAnnotation with
    | Some v => v
    | None =>
        if String.eqb scheme elbv2.LoadBalancerSchemeEnumInternal
        then loadBalancerTypeALB
        else ingressDefaultLoadBalancerType a
    end in
  let hasSG := bool_decide (is_Some (annotations !! ingressSecurityGroupAnnotation)) in
  let securityGroup :=
    match annotations !! ingressSecurityGroupAnnotation with
    | Some v => v
    | None => ingressDefaultSecurityGroup a
    end in
  let hasWAF := bool_decide (is_Some (annotations !! ingressWAFWebACLIDAnnotation)) in
  let wafWebAclId := mapIndex annotations ingressWAFWebACLIDAnnotation in
  match parseExtraListeners a metadata loadBalancerType with
  | (a', inl err) => (a', inl err)
  | (a', inr extraListeners) =>
      let checked : error + string :=
        if String.eqb loadBalancerType loadBalancerTypeNLB && (hasSG || hasWAF)
        then
          if hasLB
          then inl (errorsNew
            "security group or WAF are not supported by NLB (configured by annotation)")
          else inr loadBalancerTypeALB
        else inr loadBalancerType in
      match checked with
      | inl err => (a', inl err)
      | inr loadBalancerType =>
          let loadBalancerType :=
            match loadBalancerTypesIngressToAWS !! loadBalancerType with
            | Some _ => loadBalancerType
            | None => ingressDefaultLoadBalancerType a'
            end in
          let loadBalancerType :=
            mapIndex loadBalancerTypesIngressToAWS loadBalancerType in
          let ipAddressType :=
            if String.eqb loadBalancerType aws.LoadBalancerTypeNetwork
            then aws.IPAddressTypeIPV4 else ipAddressType in
          let http2 :=
            if String.eqb
                 (getAnnotationsString annotations ingressHTTP2Annotation "")
                 "false"
            then false else true in
          (a', inr (mkIngress
                      typ
                      (md_Namespace metadata)
                      (md_Name metadata)
                      shared
                      http2
                      (length hostnames <? 1)%nat
                      (getAnnotationsString annotations
                                            ingressCertificateARNAnnotation "")
                      host
                      extraListeners
                      scheme
                      securityGroup
                      sslPolicy
                      ipAddressType
                      loadBalancerType
                      wafWebAclId
                      hostnames))
      end
  end.

(** The first non-empty hostname of a load-balancer status, or the empty
    string: the first loop of [newIngressFromKube] and of
    [newIngressFromRouteGroup]. *)
Fixpoint firstHostname (lbs : list ingressLoadBalancer) : string :=
  match lbs with
  | [] => ""
  | lb :: rest =>
      if negb (String.eqb (lb_Hostname lb) "") then lb_Hostname lb
      else firstHostname rest
  end.

(** The test of the second loop: a non-empty host outside the cluster-local
    domain. *)
Definition externalHost (a : Adapter) (host : string) : bool :=
  negb (String.eqb host "")
  && (String.eqb (clusterLocalDomain a) ""
      || negb (HasSuffix host (clusterLocalDomain a))).

(** [func (a *Adapter) newIngressFromKube(kubeIngress *ingress)] *)
Definition newIngressFromKube (a : Adapter) (kubeIngress : ingress)
  : Adapter * (error + Ingress) :=
  let host := firstHostname (lb_Ingress (LoadBalancer (Status kubeIngress))) in
  let hostnames :=
    List.filter (externalHost a) (List.map Host (Rules (Spec kubeIngress))) in
  newIngress a TypeIngress (Metadata kubeIngress) host hostnames.

(** [func (a *Adapter) newIngressFromRouteGroup(rg *routegroup)] *)
Definition newIngressFromRouteGroup (a : Adapter) (rg : routegroup)
  : Adapter * (error + Ingress) :=
  let host := firstHostname (rg_Status_LoadBalancer_Routegroup rg) in
  let hostnames := List.filter (externalHost a) (rg_Spec_Hosts rg) in
  newIngress a TypeRouteGroup (rg_Metadata rg) host hostnames.

(** [func (a *Adapter) supportedIngressClass(ingressClass string) bool] *)
Definition supportedIngressClass (a : Adapter) (ingressClass : string) : bool :=
  existsb (fun v => String.eqb v ingressClass) (ingressFilters a).

(** [func (a *Adapter) supportedCRD(metadata kubeItemMetadata) bool] *)
Definition supportedCRD (a : Adapter) (metadata : kubeItemMetadata) : bool :=
  if (length (ingressFilters a) =? 0)%nat then true
  else supportedIngressClass a
         (getAnnotationsString (Annotations metadata) ingressClassAnnotation "").

(** [func (a *Adapter) supportedIngress(ingress *ingress) bool] *)
Definition supportedIngress (a : Adapter) (ingress : ingress) : bool :=
  if (length (ingressFilters a) =? 0)%nat then true
  else
    let ingressClass := getIngressClassName (Spec ingress) "" in
    let ingressClass :=
      if String.eqb ingressClass ""
      then getAnnotationsString (Annotations (Metadata ingress))
                                ingressClassAnnotation ""
      else ingressClass in
    supportedIngressClass a ingressClass.

(** The loop of [ListIngress] over the items: an unsupported item is
    skipped; an item whose normalisation fails is logged and not appended. *)
Fixpoint collectIngress (a : Adapter) (items : list ingress) (ret : list Ingress)
  : Adapter * list Ingress :=
  match items with
  | [] => (a, ret)
  | ingress :: rest =>
      if negb (supportedIngress a ingress) then collectIngress a rest ret
      else match newIngressFromKube a ingress with
           | (a', inr ing) => collectIngress a' rest (ret ++ [ing])
           | (a', inl _) => collectIngress a' rest ret
           end
  end.

(** [func (a *Adapter) ListIngress() ([]*Ingress, error)] *)
Definition ListIngress (a : Adapter) (w : list Call)
  (reply : getReply ingressList) : Adapter * list Call * (error + list Ingress) :=
  match listIngress (adapterIngressClient a) w reply with
  | (w', inl err) => (a, w', inl err)
  | (w', inr il) =>
      let '(a', ret) := collectIngress a (Items il) [] in
      (a', w', inr ret)
  end.

(** The loop of [ListRoutegroups] over the items. *)
Fixpoint collectRoutegroups (a : Adapter) (items : list routegroup)
  (ret : list Ingress) : Adapter * list Ingress :=
  match items with
  | [] => (a, ret)
  | rg :: rest =>
      if negb (supportedCRD a (rg_Metadata rg)) then collectRoutegroups a rest ret
      else match newIngressFromRouteGroup a rg with
           | (a', inr ing) => collectRoutegroups a' rest (ret ++ [ing])
           | (a', inl _) => collectRoutegroups a' rest ret
           end
  end.

(** [func (a *Adapter) ListRoutegroups() ([]*Ingress, error)] *)
Definition ListRoutegroups (a : Adapter) (w : list Call)
  (reply : error + routegroupList)
  : Adapter * list Call * (error + list Ingress) :=
  match listRoutegroups w reply with
  | (w', inl err) => (a, w', inl err)
  | (w', inr rgs) =>
      let '(a', ret) := collectRoutegroups a (rg_Items rgs) [] in
      (a', w', inr ret)
  end.

(** [func (a *Adapter) ListResources() ([]*Ingress, error)]: the replies
    are what the server answers to the ingress listing and, if it is
    asked, to the routegroup listing. *)
Definition ListResources (a : Adapter) (w : list Call)
  (ingressReply : getReply ingressList) (routegroupReply : error + routegroupList)
  : Adapter * list Call * (error + list Ingress) :=
  match ListIngress a w ingressReply with
  | (a, w, inl err) => (a, w, inl err)
  | (a, w, inr ings) =>
      if routeGroupSupport a then
        match ListRoutegroups a w routegroupReply with
        | (a, w, inl err) =>
            if errors_Is err ErrResourceNotFound
               || errors_Is err ErrNoPermissionToAccessResource
            then (set_routeGroupSupport false a, w, inr (ings ++ []))
            else (a, w, inl err)
        | (a, w, inr rgs) => (a, w, inr (ings ++ rgs))
        end
      else (a, w, inr (ings ++ []))
  end.

End Normalizer.

(** [func (a *Adapter) UpdateIngressLoadBalancer(ingress *Ingress,
    loadBalancerDNSName string) error]; [reply] is the error of the PATCH,
    if one is made and fails. *)
Definition UpdateIngressLoadBalancer (a : Adapter) (w : list Call)
  (ingress : option Ingress) (loadBalancerDNSName : string)
  (reply : option error) : list Call * option error :=
  match ingress with
  | None => (w, Some (errVar ErrInvalidIngressUpdateParams))
  | Some ingress =>
      if String.eqb loadBalancerDNSName ""
      then (w, Some (errVar ErrInvalidIngressUpdateParams))
      else
        let loadBalancerDNSName :=
          if String.eqb loadBalancerDNSName DefaultClusterLocalDomain
          then "" else loadBalancerDNSName in
        if String.eqb (Hostname ingress) loadBalancerDNSName
        then (w, Some (errVar ErrUpdateNotNeeded))
        else if String.eqb (ResourceType ingress) TypeRouteGroup then
          updateRoutegroupLoadBalancer w (Namespace ingress) (Name ingress)
                                       loadBalancerDNSName reply
        else if String.eqb (ResourceType ingress) TypeIngress then
          updateIngressLoadBalancer (adapterIngressClient a) w
                                    (Namespace ingress) (Name ingress)
                                    loadBalancerDNSName reply
        else (w, Some (Errorf
               "unknown resourceType '%s', failed to update Kubernetes resource"
               [ResourceType ingress]))
  end.

(** [func (a *Adapter) WithTargetCNIPodSelector(ns string, selector string)] *)
Definition WithTargetCNIPodSelector (a : Adapter) (ns selector : string)
  : Adapter :=
  mkAdapter ns selector (adapterIngressClient a)
            (ingressFilters a) (ingressDefaultSecurityGroup a)
            (ingressDefaultSSLPolicy a) (ingressDefaultLoadBalancerType a)
            (clusterLocalDomain a) (routeGroupSupport a) (extraCNIEndpoints a).

End kubernetes.

(** ** Notions the specification uses *)

(** The instant [t] is strictly before [u]. *)
Definition time_lt (t u : Time) : Prop :=
  sec t < sec u \/ (sec t = sec u /\ nsec t < nsec u).

(** A CloudFormation status is in progress when its name says so. *)
Definition inProgressStatus (st : string) : bool := HasSuffix st "_IN_PROGRESS".

(** The tags of a stack contain [key] = [value]. *)
Definition tagsContain (cfTags : list cloudformation.Tag) (key value : string)
  : Prop :=
  aws.convertCloudFormationTags cfTags !! key = Some value.

(** Section 4.2 as it is worded: the new pair of tags, or the legacy tag. *)
Definition managedAsWorded (cfTags : list cloudformation.Tag)
  (clusterID controllerID : string) : Prop :=
  (tagsContain cfTags aws.kubernetesCreatorTag controllerID
   /\ tagsContain cfTags (aws.clusterIDTagPrefix +:+ clusterID)
                  aws.resourceLifecycleOwned)
  \/ tagsContain cfTags aws.clusterIDTag clusterID.

(** The DNS name as [UpdateIngressLoadBalancer] compares it: the
    cluster-local sentinel stands for the empty hostname. *)
Definition clusterLocalToEmpty (loadBalancerDNSName : string) : string :=
  if String.eqb loadBalancerDNSName kubernetes.DefaultClusterLocalDomain
  then "" else loadBalancerDNSName.

(** The record a later listing yields once the status hostname is [h]. *)
Definition withHostname (h : string) (i : kubernetes.Ingress) : kubernetes.Ingress :=
  kubernetes.mkIngress
    (kubernetes.ResourceType i) (kubernetes.Namespace i) (kubernetes.Name i)
    (kubernetes.Shared i) (kubernetes.HTTP2 i) (kubernetes.ClusterLocal i)
    (kubernetes.CertificateARN i) h (kubernetes.ExtraListeners i)
    (kubernetes.Scheme i) (kubernetes.SecurityGroup i) (kubernetes.SSLPolicy i)
    (kubernetes.IPAddressType i) (kubernetes.LoadBalancerType i)
    (kubernetes.WAFWebACLID i) (kubernetes.Hostnames i).

(** The stack record [mapToManagedStack] decodes from a CloudFormation
    stack, and the test [findManagedStacks] applies to its tags. *)
Definition decodedStack (time_Parse_RFC3339 : string -> error + Time)
  (base64_DecodeString : string -> string)
  (json_Unmarshal : string -> error + list aws.ExtraListener)
  (s : cloudformation.Stack) : aws.Stack :=
  (aws.mapToManagedStack time_Parse_RFC3339 base64_DecodeString json_Unmarshal s).1.

Definition managedBy (clusterID controllerID : string)
  (s : cloudformation.Stack) : bool :=
  aws.isManagedStack (cloudformation.Tags s) clusterID controllerID.

(** What a listing keeps of one item: the record of a supported item whose
    normalisation succeeds, nothing otherwise. *)
Definition normalisedIngress (SSLPolicies : gmap string bool)
  (json_Unmarshal : string -> error + list aws.ExtraListener)
  (a : kubernetes.Adapter) (i : kubernetes.ingress) : option kubernetes.Ingress :=
  if kubernetes.supportedIngress a i then
    match (kubernetes.newIngressFromKube SSLPolicies json_Unmarshal a i).2 with
    | inr ing => Some ing
    | inl _ => None
    end
  else None.

Definition normalisedRoutegroup (SSLPolicies : gmap string bool)
  (json_Unmarshal : string -> error + list aws.ExtraListener)
  (a : kubernetes.Adapter) (rg : kubernetes.routegroup)
  : option kubernetes.Ingress :=
  if kubernetes.supportedCRD a (kubernetes.rg_Metadata rg) then
    match (kubernetes.newIngressFromRouteGroup SSLPolicies json_Unmarshal a rg).2
    with
    | inr ing => Some ing
    | inl _ => None
    end
  else None.

(** The hostnames a status PATCH writes. *)
Definition patchedHostnames (c : kubernetes.Call) : list string :=
  match c with
  | kubernetes.callPatch _ payload =>
      List.map kubernetes.lb_Hostname
        (kubernetes.lb_Ingress
           (kubernetes.LoadBalancer (kubernetes.patch_Status payload)))
  | kubernetes.callPatchRoutegroup _ _ newHostName => [newHostName]
  | kubernetes.callGet _ | kubernetes.callListRoutegroups => []
  end.

(** The instances a canned page of the EC2 mock carries. *)
Definition outputInstances (out : ec2.DescribeInstancesOutput)
  : list ec2.Instance :=
  concat (List.map ec2.Instances (ec2.Reservations out)).

Definition pageInstances (resp : fake.ApiResponse) : list ec2.Instance :=
  match fake.response resp with
  | fake.instancesOutput out => outputInstances out
  | fake.otherOutput => []
  end.

(** A page callback that appends the instances of each page to what it has
    seen, and answers [more out] when asked whether it wants another page. *)
Definition collectInstances (more : ec2.DescribeInstancesOutput -> bool)
  (seen : list ec2.Instance) (out : ec2.DescribeInstancesOutput)
  (lastPage : bool) : list ec2.Instance * bool :=
  (seen ++ outputInstances out, more out).

(** The requests of a log that switch termination protection off, and the
    ones that change or delete a stack. *)
Definition disablesProtection (c : aws.cfCall) : bool :=
  match c with
  | aws.callUpdateTerminationProtection _ enable => negb enable
  | _ => false
  end.

Definition isUpdateStack (c : aws.cfCall) : bool :=
  match c with aws.callUpdateStack _ => true | _ => false end.

Definition isDeleteStack (c : aws.cfCall) : bool :=
  match c with aws.callDeleteStack _ => true | _ => false end.

(** The number of status PATCH requests in a call log. *)
Definition patchCount (w : list kubernetes.Call) : nat :=
  length (List.filter kubernetes.isPatch w).

(** What the API server answers to one [ListResources] call: to the
    ingress listing and, if it is asked, to the routegroup listing. *)
Record tickReplies : Type := mkTickReplies {
  ingressReply : kubernetes.getReply kubernetes.ingressList;
  routegroupReply : error + kubernetes.routegroupList
}.

(** A run of [ListResources] calls, one per reconcile tick (section 5 of
    the specification: ticks are serial), the adapter and the call log
    being carried from one call to the next. *)
Fixpoint runTicks (SSLPolicies : gmap string bool)
  (json_Unmarshal : string -> error + list aws.ExtraListener)
  (a : kubernetes.Adapter) (w : list kubernetes.Call) (ticks : list tickReplies)
  : kubernetes.Adapter * list kubernetes.Call :=
  match ticks with
  | [] => (a, w)
  | t :: rest =>
      let '(a', w', _) :=
        kubernetes.ListResources SSLPolicies json_Unmarshal a w
          (ingressReply t) (routegroupReply t) in
      runTicks SSLPolicies json_Unmarshal a' w' rest
  end.

(** ** Concrete inputs *)

Module fixtures.

(** 2026-01-01T00:00:00Z, in seconds since year 1. *)
Definition now : Time := mkTime 63902822400 0.

Definition stackWithCertificates (certs : gmap string Time) : aws.Stack :=
  aws.mkStack "stack" cloudformation.StackStatusCreateComplete "" "x.elb"
    "internet-facing" "" "" "ipv4" "application" true [] "" "" [] ""
    certs ∅ "".

(** A stack whose only certificate tag is a legacy one: its TTL is zero. *)
Definition legacyStack : aws.Stack :=
  stackWithCertificates (<["arn:legacy" := zeroTime]> ∅).

(** Scenario S2: ARN-A expires in 24 hours, ARN-B expired an hour ago. *)
Definition drainingStack : aws.Stack :=
  stackWithCertificates
    (<["arn:A" := mkTime (63902822400 + 86400) 0]>
       (<["arn:B" := mkTime (63902822400 - 3600) 0]> ∅)).

Definition stackWithStatus (st reason : string) : aws.Stack :=
  aws.mkStack "stack" st reason "" "" "" "" "" "" true [] "" "" [] "" ∅ ∅ "".

Definition legacyTags : list cloudformation.Tag :=
  [cloudformation.mkTag (Some "KubernetesCluster") (Some "cluster-1")].

Definition metadata (annotations : gmap string string)
  : kubernetes.kubeItemMetadata :=
  kubernetes.mkKubeItemMetadata "default" "myingress" "" annotations "" "" 1
    zeroTime zeroTime ∅.

(** A controller whose default load-balancer type is NLB. *)
Definition nlbAdapter : kubernetes.Adapter :=
  kubernetes.mkAdapter "" "" (kubernetes.mkIngressClient "networking.k8s.io/v1")
    [] "sg-default" "ELBSecurityPolicy-2016-08" kubernetes.loadBalancerTypeNLB
    "" true [].

Definition sslPolicies : gmap string bool :=
  <["ELBSecurityPolicy-2016-08" := true]> ∅.

(** A stand-in for [json.Unmarshal] that agrees with it on the two inputs
    used below: the JSON text of the empty list decodes to the empty
    list, and the lone opening brace is rejected. *)
Definition unmarshal (raw : string) : error + list aws.ExtraListener :=
  if String.eqb raw "[]" then inr []
  else inl (errorsNew "unexpected end of JSON input").

Definition kubeIngress (annotations : gmap string string)
  : kubernetes.ingress :=
  kubernetes.mkKubeIngress (metadata annotations)
    (kubernetes.mkIngressSpec [kubernetes.mkIngressItemRule "foo.bar.org"] "")
    (kubernetes.mkIngressStatus (kubernetes.mkIngressLoadBalancerStatus [])).

(** [aws-load-balancer-type: nlb] together with a WAF web-ACL annotation. *)
Definition nlbWithWAF : gmap string string :=
  <[kubernetes.ingressLoadBalancerTypeAnnotation := "nlb"]>
    (<[kubernetes.ingressWAFWebACLIDAnnotation := "abc"]> ∅).

(** Scenario S4 with an extra-listeners annotation that does not parse. *)
Definition wafWithBadListeners : gmap string string :=
  <[kubernetes.ingressWAFWebACLIDAnnotation := "abc"]>
    (<[kubernetes.ingressNLBExtraListenersAnnotation := "{"]> ∅).

(** Scenario S4: no type annotation, a WAF web-ACL annotation. *)
Definition wafOnly : gmap string string :=
  <[kubernetes.ingressWAFWebACLIDAnnotation := "abc"]> ∅.

(** [aws-load-balancer-type: nlb] asking for a dualstack address type. *)
Definition nlbDualstack : gmap string string :=
  <[kubernetes.ingressLoadBalancerTypeAnnotation := "nlb"]>
    (<[kubernetes.ingressALBIPAddressType := "dualstack"]> ∅).

(** A normalised ingress with no status hostname yet. *)
Definition record : kubernetes.Ingress :=
  kubernetes.mkIngress kubernetes.TypeIngress "default" "myingress" true true
    false "" "" [] "internet-facing" "" "" "ipv4" "application" "" ["foo.bar.org"].

Definition permissionDenied : error := errVar ErrNoPermissionToAccessResource.

Definition emptyIngressList : kubernetes.ingressList :=
  kubernetes.mkIngressList "IngressList" "networking.k8s.io/v1"
    (kubernetes.mkIngressListMetadata "" "") [].

(** A type annotation that names no load-balancer type, together with a
    WAF web-ACL annotation. *)
Definition unknownTypeWithWAF : gmap string string :=
  <[kubernetes.ingressLoadBalancerTypeAnnotation := "bogus"]>
    (<[kubernetes.ingressWAFWebACLIDAnnotation := "abc"]> ∅).

(** [aws-load-balancer-scheme: internal], no type annotation. *)
Definition internalScheme : gmap string string :=
  <[kubernetes.ingressSchemeAnnotation := "internal"]> ∅.

(** The double-quote character, and a word between double quotes. *)
Definition dq : string := String (ascii_of_nat 34) EmptyString.

Definition quoted (word : string) : string := dq +:+ word +:+ dq.

(** One TCP listener as an ingress annotation gives it, and its JSON
    text. *)
Definition tcpListener : aws.ExtraListener :=
  aws.mkExtraListener "TCP" 22 2222 "application=ssh" "".

Definition listenersJSON : string :=
  "[{" +:+ quoted "protocol" +:+ ":" +:+ quoted "TCP" +:+ ","
  +:+ quoted "listenport" +:+ ":22," +:+ quoted "targetport" +:+ ":2222,"
  +:+ quoted "podlabel" +:+ ":" +:+ quoted "application=ssh" +:+ "}]".

(** The same listener as a record of namespace [default] holds it, the
    JSON text [json.Marshal] gives for it and the base64 text of that. *)
Definition storedListener : aws.ExtraListener :=
  aws.mkExtraListener "TCP" 22 2222 "application=ssh" "default".

Definition storedListenersJSON : string :=
  "[{" +:+ quoted "protocol" +:+ ":" +:+ quoted "TCP" +:+ ","
  +:+ quoted "listenport" +:+ ":22," +:+ quoted "targetport" +:+ ":2222,"
  +:+ quoted "podlabel" +:+ ":" +:+ quoted "application=ssh" +:+ ","
  +:+ quoted "Namespace" +:+ ":" +:+ quoted "default" +:+ "}]".

Definition storedListenersBase64 : string :=
  "W3sicHJvdG9jb2wiOiJUQ1AiLCJsaXN0ZW5wb3J0IjoyMiwidGFyZ2V0cG9ydCI6MjIyMiwicG9kbGFiZWwiOiJhcHBsaWNhdGlvbj1zc2giLCJOYW1lc3BhY2UiOiJkZWZhdWx0In1d".

(** A stand-in for [json.Unmarshal] that agrees with it on the inputs used
    below: the empty list, the two listener texts, and the lone opening
    brace, which is rejected. *)
Definition unmarshalListeners (raw : string) : error + list aws.ExtraListener :=
  if String.eqb raw "[]" then inr []
  else if String.eqb raw listenersJSON then inr [tcpListener]
  else if String.eqb raw storedListenersJSON then inr [storedListener]
  else inl (errorsNew "unexpected end of JSON input").

(** A stand-in for [json.Marshal] on the two listener lists used below. *)
Definition marshalListeners (listeners : list aws.ExtraListener) : string :=
  match listeners with
  | [] => "[]"
  | _ :: _ => storedListenersJSON
  end.

(** Stand-ins for the base64 codec on the texts used below; what does not
    decode gives the empty text. *)
Definition base64Encode (text : string) : string :=
  if String.eqb text "[]" then "W10="
  else if String.eqb text "{" then "ew=="
  else storedListenersBase64.

Definition base64Decode (text : string) : string :=
  if String.eqb text "W10=" then "[]"
  else if String.eqb text "ew==" then "{"
  else if String.eqb text storedListenersBase64 then storedListenersJSON
  else "".

(** 2026-01-02T00:00:00Z, and stand-ins for [time.Parse] and [Format] with
    the RFC 3339 layout that know this one instant. *)
Definition tomorrow : Time := mkTime (63902822400 + 86400) 0.

Definition parseTime (value : string) : error + Time :=
  if String.eqb value "2026-01-02T00:00:00Z" then inr tomorrow
  else inl (errorsNew "cannot parse time").

Definition formatTime (t : Time) : string :=
  if (sec t =? sec tomorrow) && (nsec t =? 0) then "2026-01-02T00:00:00Z"
  else "0001-01-01T00:00:00Z".

(** [%.0f] of the seconds of a duration that is a whole number of
    seconds. *)
Definition sprintfSeconds (nanoseconds : Z) : string :=
  pretty (nanoseconds / 1000000000).

(** A stand-in for the hash of an alarm configuration. *)
Definition alarmsHash (alarms : list unit) : string :=
  match alarms with [] => "" | _ :: _ => "alarm-hash" end.

(** Listener annotation with a type annotation [nlb], alone and together
    with a security group. *)
Definition nlbWithListeners : gmap string string :=
  <[kubernetes.ingressLoadBalancerTypeAnnotation := "nlb"]>
    (<[kubernetes.ingressNLBExtraListenersAnnotation := listenersJSON]> ∅).

Definition nlbWithListenersAndSG : gmap string string :=
  <[kubernetes.ingressSecurityGroupAnnotation := "sg-custom"]> nlbWithListeners.



(** A CloudFormation stack with a dated certificate tag, a legacy
    certificate tag and, if [listeners] is given, a listener tag. *)
Definition taggedStack (listeners : option string) : cloudformation.Stack :=
  cloudformation.mkStack (Some "stack")
    (Some cloudformation.StackStatusCreateComplete) None [] []
    ([cloudformation.mkTag (Some "ingress:certificate-arn/arn:A")
                           (Some "2026-01-02T00:00:00Z");
      cloudformation.mkTag (Some "ingress:certificate-arn") (Some "arn:legacy")]
     ++ match listeners with
        | Some value =>
            [cloudformation.mkTag (Some "ingress:extra-listeners") (Some value)]
        | None => []
        end).

(** Three tags, two of them with the same key. *)
Definition repeatedTags : list cloudformation.Tag :=
  [cloudformation.mkTag (Some "team") (Some "a");
   cloudformation.mkTag (Some "env") (Some "test");
   cloudformation.mkTag (Some "team") (Some "b")].

(** The specification of an internet-facing network load balancer with a
    certificate, an owner, an alarm and a listener. *)
Definition spec : aws.stackSpec unit :=
  aws.mkStackSpec unit
    "stack" "internet-facing" "default/myingress" ["subnet-1"; "subnet-2"]
    (<["arn:A" := tomorrow]> ∅) "sg-default" "cluster-1" "vpc-1"
    (Some (aws.mkHealthCheck "/healthz" 9999 10000000000 5000000000))
    5 2 3 "instance" 9999 false false 9999 15 true 60 20
    "kube-ingress-aws-controller" "ELBSecurityPolicy-2016-08" "ipv4" "network"
    "" "" "waf-1" [tt] false true [storedListener] true false
    (aws.mkDenyResp 401 "text/plain" "Unauthorized") []
    (<["team" := "a"]> ∅).

Definition testInstance (id : string) : fake.TestInstance :=
  fake.mkTestInstance id (<["Name" := id]> ∅) "10.0.0.1" "vpc-1" 16.

End fixtures.

(** * Properties *)

(** ** Instants *)

Lemma IsZero_true_iff (t : Time) : IsZero t = true <-> t = zeroTime.
Proof.
  destruct t as [s n]; unfold IsZero, zeroTime; simpl.
  rewrite andb_true_iff, !Z.eqb_eq.
  split; [intros [-> ->]; reflexivity | intros H; inversion H; auto].
Qed.

Lemma After_true_iff (t u : Time) : After t u = true <-> time_lt u t.
Proof.
  unfold After, time_lt.
  rewrite orb_true_iff, andb_true_iff, Z.eqb_eq, !Z.gtb_gt. lia.
Qed.

Lemma After_false_iff (t u : Time) : After t u = false <-> time_le t u.
Proof.
  rewrite <- not_true_iff_false, After_true_iff.
  unfold time_lt, time_le. lia.
Qed.

(** ** Stacks: deletion *)

Lemma noValidCertificate_true_iff (now : Time) (certs : list (string * Time)) :
  aws.noValidCertificate now certs = true <->
  forall arn t, (arn, t) ∈ certs -> IsZero t = false /\ After t now = false.
Proof.
  induction certs as [|[arn0 t0] rest IH]; simpl.
  - split; [intros _ arn t Hin; inversion Hin | reflexivity].
  - destruct (IsZero t0 || After t0 now) eqn:E.
    + split; [discriminate|].
      intros H. destruct (H arn0 t0) as [Hz Ha]; [left|].
      rewrite Hz, Ha in E. discriminate.
    + apply orb_false_iff in E. rewrite IH. split.
      * intros H arn t Hin. apply elem_of_cons in Hin as [Heq|Hin].
        -- inversion Heq; subst. exact E.
        -- eauto.
      * intros H arn t Hin. apply (H arn t). now right.
Qed.

Lemma ShouldDelete_true_iff (s : aws.Stack) (now : Time) :
  aws.ShouldDelete (Some s) now = true <->
  forall arn t, aws.CertificateARNs s !! arn = Some t ->
                IsZero t = false /\ After t now = false.
Proof.
  unfold aws.ShouldDelete. rewrite noValidCertificate_true_iff.
  split; intros H arn t Hl.
  - apply (H arn t). now apply elem_of_map_to_list.
  - apply (H arn t). now apply elem_of_map_to_list.
Qed.

(** C1, as amended.  For every stack, [ShouldDelete] answers true exactly
    when every TTL in [CertificateARNs] is not the zero instant and is not
    later than now: a zero TTL keeps the stack although the zero instant
    lies in the past. *)
Theorem ShouldDelete_iff_all_ttls_set_and_passed (s : aws.Stack) (now : Time) :
  aws.ShouldDelete (Some s) now = true <->
  forall arn t, aws.CertificateARNs s !! arn = Some t ->
                t <> zeroTime /\ time_le t now.
Proof.
  rewrite ShouldDelete_true_iff.
  split; intros H arn t Hl; destruct (H arn t Hl) as [Hz Ha]; split.
  - intros Heq. apply IsZero_true_iff in Heq. congruence.
  - now apply After_false_iff.
  - apply not_true_iff_false. intros Hq. now apply IsZero_true_iff in Hq.
  - now apply After_false_iff.
Qed.

(** C1, as worded, fails on a stack whose only TTL is the zero instant:
    every TTL is at or before now, and yet the stack is not
    deletion-eligible. *)
Lemma ShouldDelete_zero_ttl_not_eligible :
  ~ (aws.ShouldDelete (Some fixtures.legacyStack) fixtures.now = true <->
     forall arn t, aws.CertificateARNs fixtures.legacyStack !! arn = Some t ->
                   time_le t fixtures.now).
Proof.
  intros [_ H].
  assert (Hc : aws.ShouldDelete (Some fixtures.legacyStack) fixtures.now = false)
    by (vm_compute; reflexivity).
  rewrite H in Hc; [discriminate|].
  intros arn t Hl. simpl in Hl.
  apply lookup_insert_Some in Hl as [[_ <-]|[_ Hl]].
  - left. reflexivity.
  - rewrite lookup_empty in Hl. discriminate.
Qed.

(** C2.  A stack with at least one TTL that is the zero instant or lies
    strictly after now is not a deletion candidate: [ShouldDelete] answers
    false. *)
Theorem ShouldDelete_false_of_live_ttl (s : aws.Stack) (now : Time)
  (arn : string) (t : Time) :
  aws.CertificateARNs s !! arn = Some t ->
  t = zeroTime \/ time_lt now t ->
  aws.ShouldDelete (Some s) now = false.
Proof.
  intros Hl Hlive. apply not_true_iff_false. intros Hd.
  destruct (proj1 (ShouldDelete_true_iff s now) Hd arn t Hl) as [Hz Ha].
  destruct Hlive as [Heq|Hlt].
  - apply IsZero_true_iff in Heq. congruence.
  - apply After_true_iff in Hlt. congruence.
Qed.

(** Scenario S2: the draining stack is kept because ARN-A is still valid. *)
Lemma ShouldDelete_false_of_live_ttl_witness :
  aws.ShouldDelete (Some fixtures.drainingStack) fixtures.now = false.
Proof.
  apply (ShouldDelete_false_of_live_ttl fixtures.drainingStack fixtures.now
           "arn:A" (mkTime (63902822400 + 86400) 0)).
  - vm_compute. reflexivity.
  - right. left. vm_compute. reflexivity.
Defined.

(** C10.  [ShouldDelete] of a nil stack is false, and a stack whose
    certificate map is empty is deletion-eligible at once. *)
Theorem ShouldDelete_nil_and_no_certificates :
  (forall now, aws.ShouldDelete None now = false)
  /\ (forall s now, aws.CertificateARNs s = ∅ ->
                    aws.ShouldDelete (Some s) now = true).
Proof.
  split; [reflexivity|].
  intros s now He. apply ShouldDelete_true_iff.
  intros arn t Hl. rewrite He, lookup_empty in Hl. discriminate.
Qed.

(** A nil stack, and the stack [&Stack{}] with no certificate at all. *)
Lemma ShouldDelete_nil_and_no_certificates_witness :
  aws.ShouldDelete None fixtures.now = false
  /\ aws.ShouldDelete (Some aws.emptyStack) fixtures.now = true.
Proof.
  split.
  - apply (proj1 ShouldDelete_nil_and_no_certificates fixtures.now).
  - apply (proj2 ShouldDelete_nil_and_no_certificates aws.emptyStack fixtures.now).
    reflexivity.
Defined.

(** ** Stacks: status *)

Lemma status_in_true_iff (st : string) (cases : list string) :
  aws.status_in st cases = true <-> In st cases.
Proof.
  unfold aws.status_in. rewrite existsb_exists. split.
  - intros (c & Hin & Heq). apply String.eqb_eq in Heq. now subst.
  - intros Hin. exists st. split; [assumption | apply String.eqb_refl].
Qed.

Lemma IsComplete_true_iff (s : aws.Stack) :
  aws.IsComplete (Some s) = true <-> In (aws.status s) aws.completeStatuses.
Proof.
  unfold aws.IsComplete. rewrite <- status_in_true_iff.
  destruct (aws.status_in _ _); intuition congruence.
Qed.

Lemma Err_nil_iff (s : aws.Stack) :
  aws.Err (Some s) = None <-> In (aws.status s) aws.okStatuses.
Proof.
  unfold aws.Err. rewrite <- status_in_true_iff.
  destruct (aws.status_in _ _); [intuition congruence|].
  destruct (negb _); intuition congruence.
Qed.

(** C4, as amended.  [IsComplete] is true exactly for CREATE_COMPLETE,
    UPDATE_COMPLETE, ROLLBACK_COMPLETE and UPDATE_ROLLBACK_COMPLETE.  [Err]
    is nil exactly for CREATE_IN_PROGRESS, CREATE_COMPLETE,
    UPDATE_IN_PROGRESS, UPDATE_COMPLETE,
    UPDATE_COMPLETE_CLEANUP_IN_PROGRESS, DELETE_IN_PROGRESS and
    DELETE_COMPLETE; for every other status it is an error made from the
    status, and from the reason when there is one. *)
Theorem IsComplete_and_Err_by_status (s : aws.Stack) :
  let st := aws.status s in
  (aws.IsComplete (Some s) = true <->
     st = "CREATE_COMPLETE" \/ st = "UPDATE_COMPLETE"
     \/ st = "ROLLBACK_COMPLETE" \/ st = "UPDATE_ROLLBACK_COMPLETE")
  /\ (aws.Err (Some s) = None <->
        st = "CREATE_IN_PROGRESS" \/ st = "CREATE_COMPLETE"
        \/ st = "UPDATE_IN_PROGRESS" \/ st = "UPDATE_COMPLETE"
        \/ st = "UPDATE_COMPLETE_CLEANUP_IN_PROGRESS"
        \/ st = "DELETE_IN_PROGRESS" \/ st = "DELETE_COMPLETE")
  /\ (aws.Err (Some s) <> None ->
        aws.Err (Some s) =
          Some (if String.eqb (aws.statusReason s) ""
                then Errorf "unexpected status %s" [st]
                else Errorf "unexpected status %s: %s" [st; aws.statusReason s])).
Proof.
  intros st. split; [|split].
  - rewrite IsComplete_true_iff. fold st.
    let l := eval vm_compute in aws.completeStatuses in
    change aws.completeStatuses with l.
    cbn [In]. intuition congruence.
  - rewrite Err_nil_iff. fold st.
    let l := eval vm_compute in aws.okStatuses in
    change aws.okStatuses with l.
    cbn [In]. intuition congruence.
  - unfold aws.Err. fold st.
    destruct (aws.status_in st aws.okStatuses); [intros H; now destruct H|].
    intros _. destruct (String.eqb (aws.statusReason s) ""); reflexivity.
Qed.

(** UPDATE_ROLLBACK_FAILED with a reason. *)
Lemma IsComplete_and_Err_by_status_witness :
  aws.Err (Some (fixtures.stackWithStatus "UPDATE_ROLLBACK_FAILED" "boom")) =
  Some (Errorf "unexpected status %s: %s" ["UPDATE_ROLLBACK_FAILED"; "boom"]).
Proof.
  apply (proj2 (proj2 (IsComplete_and_Err_by_status
                         (fixtures.stackWithStatus "UPDATE_ROLLBACK_FAILED" "boom")))).
  vm_compute. discriminate.
Defined.

(** C4, as worded, fails twice.  ROLLBACK_IN_PROGRESS is an in-progress
    status for which [Err] is an error; DELETE_COMPLETE is neither one of
    the four complete statuses nor in progress, and [Err] is nil. *)
Lemma Err_not_by_progress :
  (inProgressStatus "ROLLBACK_IN_PROGRESS" = true
   /\ aws.Err (Some (fixtures.stackWithStatus "ROLLBACK_IN_PROGRESS" "")) <> None)
  /\ (aws.IsComplete (Some (fixtures.stackWithStatus "DELETE_COMPLETE" "")) = false
      /\ inProgressStatus "DELETE_COMPLETE" = false
      /\ aws.Err (Some (fixtures.stackWithStatus "DELETE_COMPLETE" "")) = None).
Proof.
  repeat split; vm_compute; congruence.
Qed.

(** ** Stacks: inventory *)

Lemma isManagedStack_true_iff (cfTags : list cloudformation.Tag)
  (clusterID controllerID : string) :
  let tags := aws.convertCloudFormationTags cfTags in
  aws.isManagedStack cfTags clusterID controllerID = true <->
  mapIndex tags aws.kubernetesCreatorTag = controllerID
  /\ (mapIndex tags (aws.clusterIDTagPrefix +:+ clusterID)
        = aws.resourceLifecycleOwned
      \/ mapIndex tags aws.clusterIDTag = clusterID).
Proof.
  intros tags. unfold aws.isManagedStack. fold tags.
  destruct (String.eqb (mapIndex tags aws.kubernetesCreatorTag) controllerID) eqn:E;
    simpl.
  - apply String.eqb_eq in E.
    rewrite orb_true_iff, !String.eqb_eq. tauto.
  - apply String.eqb_neq in E. split; [discriminate | tauto].
Qed.

(** C3, as amended.  A stack is accepted as managed exactly when its
    [kubernetes:application] tag is the controller id and, besides, its
    [kubernetes.io/cluster/<clusterID>] tag is [owned] or its legacy
    [KubernetesCluster] tag is the cluster id (an absent tag reads as the
    empty string).  A stack without the [kubernetes:application] tag is
    rejected for every non-empty controller id, whatever its legacy tag. *)
Theorem isManagedStack_requires_controller_tag
  (cfTags : list cloudformation.Tag) (clusterID controllerID : string) :
  let tags := aws.convertCloudFormationTags cfTags in
  (aws.isManagedStack cfTags clusterID controllerID = true <->
     mapIndex tags "kubernetes:application" = controllerID
     /\ (mapIndex tags ("kubernetes.io/cluster/" +:+ clusterID) = "owned"
         \/ mapIndex tags "KubernetesCluster" = clusterID))
  /\ (controllerID <> "" ->
      tags !! "kubernetes:application" = None ->
      aws.isManagedStack cfTags clusterID controllerID = false).
Proof.
  intros tags. split.
  - apply isManagedStack_true_iff.
  - intros Hne Hnone. apply not_true_iff_false. intros Hm.
    apply isManagedStack_true_iff in Hm as [Hc _].
    unfold mapIndex, aws.kubernetesCreatorTag in Hc. fold tags in Hc.
    rewrite Hnone in Hc. simpl in Hc. congruence.
Qed.

(** A stack that carries the legacy tag only. *)
Lemma isManagedStack_requires_controller_tag_witness :
  aws.isManagedStack fixtures.legacyTags "cluster-1" "kube-ingress-aws-controller"
  = false.
Proof.
  apply (proj2 (isManagedStack_requires_controller_tag
                  fixtures.legacyTags "cluster-1" "kube-ingress-aws-controller")).
  - discriminate.
  - vm_compute. reflexivity.
Defined.

(** C3, as worded, fails on a stack that carries the legacy tag only: the
    wording accepts it, the inventory rejects it. *)
Lemma isManagedStack_legacy_only_rejected :
  managedAsWorded fixtures.legacyTags "cluster-1" "kube-ingress-aws-controller"
  /\ aws.isManagedStack fixtures.legacyTags "cluster-1"
       "kube-ingress-aws-controller" = false.
Proof.
  split.
  - right. vm_compute. reflexivity.
  - vm_compute. reflexivity.
Qed.

(** ** Ingress normalisation *)

Section NormalizerProperties.

Import kubernetes.

Variable SSLPolicies : gmap string bool.
Variable json_Unmarshal : string -> error + list aws.ExtraListener.

(** Normalisation touches the adapter only through [extraCNIEndpoints],
    and its result does not depend on the endpoints gathered so far. *)
Lemma set_extraCNIEndpoints_twice (eps eps' : list aws.CNIEndpoint) (a : Adapter) :
  set_extraCNIEndpoints eps (set_extraCNIEndpoints eps' a)
  = set_extraCNIEndpoints eps a.
Proof. reflexivity. Qed.

Lemma set_extraCNIEndpoints_same (a : Adapter) :
  set_extraCNIEndpoints (extraCNIEndpoints a) a = a.
Proof. now destruct a. Qed.

Lemma checkExtraListeners_adapter (a : Adapter) (ns : string)
  (listeners : list aws.ExtraListener) :
  exists eps, (checkExtraListeners a ns listeners).1 = set_extraCNIEndpoints eps a.
Proof.
  revert a. induction listeners as [|l rest IH]; intros a; simpl.
  - exists (extraCNIEndpoints a). now rewrite set_extraCNIEndpoints_same.
  - destruct (negb (String.eqb (aws.ListenProtocol l) "TCP")
              && negb (String.eqb (aws.ListenProtocol l) "UDP")
              && negb (String.eqb (aws.ListenProtocol l) "TCP_UDP")); simpl.
    + exists (extraCNIEndpoints a). now rewrite set_extraCNIEndpoints_same.
    + destruct (IH (set_extraCNIEndpoints
                      (extraCNIEndpoints a
                         ++ [aws.mkCNIEndpoint ns (aws.PodLabel l)]) a))
        as [eps Heps].
      exists eps.
      destruct (checkExtraListeners _ ns rest) as [a' [err|ls]];
        simpl in *; now rewrite Heps.
Qed.

Lemma checkExtraListeners_result (eps : list aws.CNIEndpoint) (a : Adapter)
  (ns : string) (listeners : list aws.ExtraListener) :
  (checkExtraListeners (set_extraCNIEndpoints eps a) ns listeners).2
  = (checkExtraListeners a ns listeners).2.
Proof.
  revert eps a. induction listeners as [|l rest IH]; intros eps a; simpl.
  - reflexivity.
  - destruct (negb (String.eqb (aws.ListenProtocol l) "TCP")
              && negb (String.eqb (aws.ListenProtocol l) "UDP")
              && negb (String.eqb (aws.ListenProtocol l) "TCP_UDP")); simpl.
    + reflexivity.
    + specialize (IH (extraCNIEndpoints a
                        ++ [aws.mkCNIEndpoint ns (aws.PodLabel l)]) a) as IH1.
      specialize (IH (eps ++ [aws.mkCNIEndpoint ns (aws.PodLabel l)]) a) as IH2.
      rewrite set_extraCNIEndpoints_twice.
      destruct (checkExtraListeners (set_extraCNIEndpoints (eps ++ _) a) ns rest)
        as [a1 r1].
      destruct (checkExtraListeners (set_extraCNIEndpoints (_ ++ _) a) ns rest)
        as [a2 r2].
      simpl in *. rewrite IH1, <- IH2.
      destruct r1; reflexivity.
Qed.

Lemma parseExtraListeners_adapter (a : Adapter) (metadata : kubeItemMetadata)
  (loadBalancerType : string) :
  exists eps,
    (parseExtraListeners json_Unmarshal a metadata loadBalancerType).1
    = set_extraCNIEndpoints eps a.
Proof.
  unfold parseExtraListeners.
  destruct (Annotations metadata !! ingressNLBExtraListenersAnnotation);
    [|exists (extraCNIEndpoints a); now rewrite set_extraCNIEndpoints_same].
  destruct (negb _);
    [exists (extraCNIEndpoints a); now rewrite set_extraCNIEndpoints_same|].
  destruct (json_Unmarshal _);
    [exists (extraCNIEndpoints a); now rewrite set_extraCNIEndpoints_same|].
  apply checkExtraListeners_adapter.
Qed.

Lemma parseExtraListeners_result (eps : list aws.CNIEndpoint) (a : Adapter)
  (metadata : kubeItemMetadata) (loadBalancerType : string) :
  (parseExtraListeners json_Unmarshal (set_extraCNIEndpoints eps a) metadata
                       loadBalancerType).2
  = (parseExtraListeners json_Unmarshal a metadata loadBalancerType).2.
Proof.
  unfold parseExtraListeners.
  destruct (Annotations metadata !! ingressNLBExtraListenersAnnotation);
    [|reflexivity].
  destruct (negb _); [reflexivity|].
  destruct (json_Unmarshal _); [reflexivity|].
  apply checkExtraListeners_result.
Qed.

Lemma newIngress_adapter (a : Adapter) (typ : string) (metadata : kubeItemMetadata)
  (host : string) (hostnames : list string) :
  exists eps,
    (newIngress SSLPolicies json_Unmarshal a typ metadata host hostnames).1
    = set_extraCNIEndpoints eps a.
Proof.
  unfold newIngress.
  match goal with
  | |- context [parseExtraListeners json_Unmarshal a metadata ?t] =>
      destruct (parseExtraListeners_adapter a metadata t) as [eps Heps];
      destruct (parseExtraListeners json_Unmarshal a metadata t) as [a' [err|ls]]
  end; simpl in Heps; exists eps; [exact Heps|].
  match goal with |- context [if ?c then _ else _] => destruct c end.
  - match goal with |- context [if ?c then _ else _] => destruct c end;
      exact Heps.
  - exact Heps.
Qed.

Lemma newIngress_result (eps : list aws.CNIEndpoint) (a : Adapter) (typ : string)
  (metadata : kubeItemMetadata) (host : string) (hostnames : list string) :
  (newIngress SSLPolicies json_Unmarshal (set_extraCNIEndpoints eps a)
              typ metadata host hostnames).2
  = (newIngress SSLPolicies json_Unmarshal a typ metadata host hostnames).2.
Proof.
  unfold newIngress.
  change (ingressDefaultLoadBalancerType (set_extraCNIEndpoints eps a))
    with (ingressDefaultLoadBalancerType a).
  change (ingressDefaultSSLPolicy (set_extraCNIEndpoints eps a))
    with (ingressDefaultSSLPolicy a).
  change (ingressDefaultSecurityGroup (set_extraCNIEndpoints eps a))
    with (ingressDefaultSecurityGroup a).
  match goal with
  | |- context [parseExtraListeners json_Unmarshal a metadata ?t] =>
      pose proof (parseExtraListeners_result eps a metadata t) as HR;
      destruct (parseExtraListeners_adapter a metadata t) as [e2 H2];
      destruct (parseExtraListeners_adapter
                  (set_extraCNIEndpoints eps a) metadata t) as [e1 H1];
      destruct (parseExtraListeners json_Unmarshal a metadata t) as [a2 r2];
      destruct (parseExtraListeners json_Unmarshal
                  (set_extraCNIEndpoints eps a) metadata t) as [a1 r1]
  end.
  simpl in HR, H1, H2. subst a1 a2 r1.
  destruct r2 as [err|ls]; [reflexivity|].
  match goal with |- context [if ?c then _ else _] => destruct c end.
  - match goal with |- context [if ?c then _ else _] => destruct c end;
      reflexivity.
  - reflexivity.
Qed.

Lemma newIngressFromKube_adapter (a : Adapter) (k : ingress) :
  exists eps,
    (newIngressFromKube SSLPolicies json_Unmarshal a k).1
    = set_extraCNIEndpoints eps a.
Proof. apply newIngress_adapter. Qed.

Lemma newIngressFromKube_result (eps : list aws.CNIEndpoint) (a : Adapter)
  (k : ingress) :
  (newIngressFromKube SSLPolicies json_Unmarshal (set_extraCNIEndpoints eps a) k).2
  = (newIngressFromKube SSLPolicies json_Unmarshal a k).2.
Proof.
  unfold newIngressFromKube.
  change (externalHost (set_extraCNIEndpoints eps a)) with (externalHost a).
  apply newIngress_result.
Qed.

Lemma newIngressFromRouteGroup_adapter (a : Adapter) (rg : routegroup) :
  exists eps,
    (newIngressFromRouteGroup SSLPolicies json_Unmarshal a rg).1
    = set_extraCNIEndpoints eps a.
Proof. apply newIngress_adapter. Qed.

Lemma collectIngress_result (eps : list aws.CNIEndpoint) (a : Adapter)
  (items : list ingress) (ret : list Ingress) :
  (collectIngress SSLPolicies json_Unmarshal (set_extraCNIEndpoints eps a)
                  items ret).2
  = (collectIngress SSLPolicies json_Unmarshal a items ret).2.
Proof.
  revert eps a ret. induction items as [|x rest IH]; intros eps a ret; simpl.
  - reflexivity.
  - change (supportedIngress (set_extraCNIEndpoints eps a) x)
      with (supportedIngress a x).
    destruct (negb (supportedIngress a x)); [apply IH|].
    pose proof (newIngressFromKube_result eps a x) as HR.
    destruct (newIngressFromKube_adapter a x) as [e2 H2].
    destruct (newIngressFromKube_adapter (set_extraCNIEndpoints eps a) x)
      as [e1 H1].
    destruct (newIngressFromKube SSLPolicies json_Unmarshal a x) as [a2 r2].
    destruct (newIngressFromKube SSLPolicies json_Unmarshal
                (set_extraCNIEndpoints eps a) x) as [a1 r1].
    simpl in HR, H1, H2. subst a1 a2 r1.
    rewrite set_extraCNIEndpoints_twice.
    destruct r2 as [err|ing]; now rewrite !IH.
Qed.

Lemma collectIngress_adapter (a : Adapter) (items : list ingress)
  (ret : list Ingress) :
  exists eps,
    (collectIngress SSLPolicies json_Unmarshal a items ret).1
    = set_extraCNIEndpoints eps a.
Proof.
  revert a ret. induction items as [|x rest IH]; intros a ret; simpl.
  - exists (extraCNIEndpoints a). now rewrite set_extraCNIEndpoints_same.
  - destruct (negb (supportedIngress a x)); [apply IH|].
    destruct (newIngressFromKube_adapter a x) as [e H].
    destruct (newIngressFromKube SSLPolicies json_Unmarshal a x) as [a' r].
    simpl in H. subst a'.
    destruct r as [err|ing].
    + destruct (IH (set_extraCNIEndpoints e a) ret) as [e' H'].
      exists e'. now rewrite H', set_extraCNIEndpoints_twice.
    + destruct (IH (set_extraCNIEndpoints e a) (ret ++ [ing])) as [e' H'].
      exists e'. now rewrite H', set_extraCNIEndpoints_twice.
Qed.

Lemma collectRoutegroups_adapter (a : Adapter) (items : list routegroup)
  (ret : list Ingress) :
  exists eps,
    (collectRoutegroups SSLPolicies json_Unmarshal a items ret).1
    = set_extraCNIEndpoints eps a.
Proof.
  revert a ret. induction items as [|x rest IH]; intros a ret; simpl.
  - exists (extraCNIEndpoints a). now rewrite set_extraCNIEndpoints_same.
  - destruct (negb (supportedCRD a (rg_Metadata x))); [apply IH|].
    destruct (newIngressFromRouteGroup_adapter a x) as [e H].
    destruct (newIngressFromRouteGroup SSLPolicies json_Unmarshal a x) as [a' r].
    simpl in H. subst a'.
    destruct r as [err|ing].
    + destruct (IH (set_extraCNIEndpoints e a) ret) as [e' H'].
      exists e'. now rewrite H', set_extraCNIEndpoints_twice.
    + destruct (IH (set_extraCNIEndpoints e a) (ret ++ [ing])) as [e' H'].
      exists e'. now rewrite H', set_extraCNIEndpoints_twice.
Qed.

(** An item whose normalisation fails leaves no trace in the records. *)
Lemma collectIngress_drop (x : ingress) :
  (forall a, exists err,
      (newIngressFromKube SSLPolicies json_Unmarshal a x).2 = inl err) ->
  forall pre post a ret,
    (collectIngress SSLPolicies json_Unmarshal a (pre ++ x :: post) ret).2
    = (collectIngress SSLPolicies json_Unmarshal a (pre ++ post) ret).2.
Proof.
  intros Hx pre post. induction pre as [|y pre IH]; intros a ret; simpl.
  - destruct (negb (supportedIngress a x)); [reflexivity|].
    destruct (Hx a) as [err He].
    destruct (newIngressFromKube_adapter a x) as [e H].
    destruct (newIngressFromKube SSLPolicies json_Unmarshal a x) as [a' r].
    simpl in He, H. subst a' r. apply collectIngress_result.
  - destruct (negb (supportedIngress a y)); [apply IH|].
    destruct (newIngressFromKube SSLPolicies json_Unmarshal a y) as [a' [err|ing]];
      apply IH.
Qed.

Lemma newIngress_nlb_annotation_rejected (a : Adapter) (typ : string)
  (metadata : kubeItemMetadata) (host : string) (hostnames : list string) :
  Annotations metadata !! ingressLoadBalancerTypeAnnotation = Some "nlb" ->
  is_Some (Annotations metadata !! ingressSecurityGroupAnnotation)
  \/ is_Some (Annotations metadata !! ingressWAFWebACLIDAnnotation) ->
  exists err,
    (newIngress SSLPolicies json_Unmarshal a typ metadata host hostnames).2
    = inl err.
Proof.
  intros Hlb Hsgwaf. unfold newIngress. rewrite Hlb.
  destruct (parseExtraListeners json_Unmarshal a metadata "nlb")
    as [a' [err|ls]]; [eauto|].
  assert (Hb : bool_decide (is_Some
                 (Annotations metadata !! ingressSecurityGroupAnnotation))
               || bool_decide (is_Some
                 (Annotations metadata !! ingressWAFWebACLIDAnnotation)) = true).
  { apply orb_true_iff.
    destruct Hsgwaf; [left|right]; now apply bool_decide_eq_true. }
  rewrite Hb.
  change (String.eqb "nlb" loadBalancerTypeNLB) with true.
  rewrite (bool_decide_eq_true_2 (is_Some (Some "nlb"))) by eauto.
  simpl. eauto.
Qed.

Lemma network_type_is_nlb (loadBalancerType : string) :
  mapIndex loadBalancerTypesIngressToAWS loadBalancerType = "network" ->
  loadBalancerType = "nlb".
Proof.
  unfold mapIndex, loadBalancerTypesIngressToAWS.
  destruct (String.eqb_spec loadBalancerType loadBalancerTypeALB) as [-> | Ha];
    [discriminate|].
  destruct (String.eqb_spec loadBalancerType loadBalancerTypeNLB) as [-> | Hn];
    [reflexivity|].
  rewrite lookup_insert_ne by congruence.
  rewrite lookup_insert_ne by congruence.
  rewrite lookup_empty. discriminate.
Qed.

Lemma unknown_type_is_unmapped (loadBalancerType : string) :
  loadBalancerType <> "nlb" -> loadBalancerType <> "alb" ->
  loadBalancerTypesIngressToAWS !! loadBalancerType = None.
Proof.
  intros Hn Ha. unfold loadBalancerTypesIngressToAWS.
  rewrite lookup_insert_ne by (unfold loadBalancerTypeALB; congruence).
  rewrite lookup_insert_ne by (unfold loadBalancerTypeNLB; congruence).
  apply lookup_empty.
Qed.

(** With a security-group or WAF web-ACL annotation, a record of type
    [network] comes from one place only: a type annotation that is neither
    [nlb] nor [alb], replaced by the controller default [nlb] after the NLB
    check. *)
Lemma newIngress_network_with_sg_or_waf (a : Adapter) (typ : string)
  (metadata : kubeItemMetadata) (host : string) (hostnames : list string)
  (ing : Ingress) :
  is_Some (Annotations metadata !! ingressSecurityGroupAnnotation)
  \/ is_Some (Annotations metadata !! ingressWAFWebACLIDAnnotation) ->
  (newIngress SSLPolicies json_Unmarshal a typ metadata host hostnames).2
    = inr ing ->
  LoadBalancerType ing = "network" ->
  exists v,
    Annotations metadata !! ingressLoadBalancerTypeAnnotation = Some v
    /\ v <> "nlb" /\ v <> "alb"
    /\ ingressDefaultLoadBalancerType a = "nlb".
Proof.
  intros Hsgwaf. unfold newIngress.
  assert (Hb : bool_decide (is_Some
                 (Annotations metadata !! ingressSecurityGroupAnnotation))
               || bool_decide (is_Some
                 (Annotations metadata !! ingressWAFWebACLIDAnnotation)) = true).
  { apply orb_true_iff.
    destruct Hsgwaf; [left|right]; now apply bool_decide_eq_true. }
  rewrite Hb, andb_true_r.
  match goal with
  | |- context [parseExtraListeners json_Unmarshal a metadata ?t] =>
      destruct (parseExtraListeners_adapter a metadata t) as [eps Heps];
      destruct (parseExtraListeners json_Unmarshal a metadata t)
        as [a' [err|ls]]; [discriminate|]
  end.
  cbn [fst] in Heps. subst a'.
  change (ingressDefaultLoadBalancerType (set_extraCNIEndpoints eps a))
    with (ingressDefaultLoadBalancerType a).
  destruct (Annotations metadata !! ingressLoadBalancerTypeAnnotation)
    as [v|] eqn:Ev.
  - rewrite (bool_decide_eq_true_2 (is_Some (Some v))) by eauto.
    destruct (String.eqb_spec v loadBalancerTypeNLB) as [-> | Hn];
      [discriminate|].
    cbn [snd]. intros Heq Hnet. injection Heq as <-.
    cbn [LoadBalancerType] in Hnet. apply network_type_is_nlb in Hnet.
    destruct (loadBalancerTypesIngressToAWS !! v) eqn:Em; [contradiction|].
    exists v. split; [reflexivity|]. split; [exact Hn|]. split; [|exact Hnet].
    intros ->. discriminate.
  - rewrite (bool_decide_eq_false_2 (is_Some None))
      by (intros [? ?]; discriminate).
    destruct (String.eqb _ elbv2.LoadBalancerSchemeEnumInternal).
    + cbn [snd]. intros Heq Hnet. injection Heq as <-.
      cbn [LoadBalancerType] in Hnet. apply network_type_is_nlb in Hnet.
      vm_compute in Hnet. discriminate.
    + destruct (String.eqb_spec (ingressDefaultLoadBalancerType a)
                                loadBalancerTypeNLB) as [Ht | Hn].
      * cbn [snd]. intros Heq Hnet. injection Heq as <-.
        cbn [LoadBalancerType] in Hnet. apply network_type_is_nlb in Hnet.
        vm_compute in Hnet. discriminate.
      * cbn [snd]. intros Heq Hnet. injection Heq as <-.
        cbn [LoadBalancerType] in Hnet. apply network_type_is_nlb in Hnet.
        destruct (loadBalancerTypesIngressToAWS
                    !! ingressDefaultLoadBalancerType a); contradiction.
Qed.

(** C5, as far as the code goes.  For an ingress that carries a
    security-group or WAF web-ACL annotation: when its load-balancer-type
    annotation is [nlb], the normalisation rejects it with an error and
    [ListIngress] returns the very records it returns without that
    ingress; and the normalisation returns a record of type [network] only
    when the type annotation is set to a value that is neither [nlb] nor
    [alb] and the controller default is [nlb].  In that last case the
    record keeps the override and no error is reported. *)
Theorem nlb_with_sg_or_waf_annotation_is_dropped (metadata : kubeItemMetadata) :
  is_Some (Annotations metadata !! "zalando.org/aws-load-balancer-security-group")
  \/ is_Some (Annotations metadata !! "zalando.org/aws-waf-web-acl-id") ->
  (Annotations metadata !! "zalando.org/aws-load-balancer-type" = Some "nlb" ->
   (forall a typ host hostnames, exists err,
       (newIngress SSLPolicies json_Unmarshal a typ metadata host hostnames).2
       = inl err)
   /\ (forall a w kind apiv lm pre post spec st,
         (ListIngress SSLPolicies json_Unmarshal a w
            (Body (inr (mkIngressList kind apiv lm
                          (pre ++ mkKubeIngress metadata spec st :: post))))).2
         = (ListIngress SSLPolicies json_Unmarshal a w
              (Body (inr (mkIngressList kind apiv lm (pre ++ post))))).2))
  /\ (forall a typ host hostnames ing,
        (newIngress SSLPolicies json_Unmarshal a typ metadata host hostnames).2
        = inr ing ->
        LoadBalancerType ing = "network" ->
        exists v,
          Annotations metadata !! "zalando.org/aws-load-balancer-type" = Some v
          /\ v <> "nlb" /\ v <> "alb"
          /\ ingressDefaultLoadBalancerType a = "nlb").
Proof.
  intros Hsgwaf. split.
  - intros Hlb.
    assert (Hrej : forall a typ host hostnames, exists err,
               (newIngress SSLPolicies json_Unmarshal a typ metadata host
                           hostnames).2 = inl err).
    { intros. now apply newIngress_nlb_annotation_rejected. }
    split; [exact Hrej|].
    intros a w kind apiv lm pre post spec st.
    unfold ListIngress, listIngress. cbn [Items].
    pose proof (collectIngress_drop (mkKubeIngress metadata spec st)
                  (fun a => Hrej a _ _ _) pre post a []) as Hd.
    destruct (collectIngress SSLPolicies json_Unmarshal a
                (pre ++ mkKubeIngress metadata spec st :: post) []) as [a1 r1].
    destruct (collectIngress SSLPolicies json_Unmarshal a (pre ++ post) [])
      as [a2 r2].
    simpl in *. now subst.
  - intros a typ host hostnames ing.
    now apply newIngress_network_with_sg_or_waf.
Qed.

(** C7.  Every record the normalisation returns with load-balancer type
    [network] has IP address type [ipv4], whatever the ip-address-type
    annotation asks for. *)
Theorem network_implies_ipv4 (a : Adapter) (typ : string)
  (metadata : kubeItemMetadata) (host : string) (hostnames : list string)
  (ing : Ingress) :
  (newIngress SSLPolicies json_Unmarshal a typ metadata host hostnames).2
    = inr ing ->
  LoadBalancerType ing = "network" ->
  IPAddressType ing = "ipv4".
Proof.
  unfold newIngress.
  destruct (parseExtraListeners json_Unmarshal a metadata _)
    as [a' [err|ls]]; [discriminate|].
  match goal with |- context [if ?c then _ else _] => destruct c end.
  - match goal with |- context [if ?c then _ else _] => destruct c end;
      [discriminate|].
    cbn [snd]. intros Heq Hnet. injection Heq as <-.
    cbn [LoadBalancerType IPAddressType] in *.
    change aws.LoadBalancerTypeNetwork with "network".
    now rewrite Hnet.
  - cbn [snd]. intros Heq Hnet. injection Heq as <-.
    cbn [LoadBalancerType IPAddressType] in *.
    change aws.LoadBalancerTypeNetwork with "network".
    now rewrite Hnet.
Qed.

Lemma checkExtraListeners_error (a : Adapter) (ns : string)
  (listeners : list aws.ExtraListener) (err : error) :
  (checkExtraListeners a ns listeners).2 = inl err ->
  err = errorsNew
          "only TCP, UDP, or TCP_UDP are allowed as protocols for extra listeners".
Proof.
  revert a. induction listeners as [|l rest IH]; intros a; simpl.
  - discriminate.
  - destruct (negb (String.eqb (aws.ListenProtocol l) "TCP")
              && negb (String.eqb (aws.ListenProtocol l) "UDP")
              && negb (String.eqb (aws.ListenProtocol l) "TCP_UDP")); simpl.
    + intros H. now injection H as <-.
    + specialize (IH (set_extraCNIEndpoints
                        (extraCNIEndpoints a
                           ++ [aws.mkCNIEndpoint ns (aws.PodLabel l)]) a)).
      destruct (checkExtraListeners _ ns rest) as [a' [e|ls]]; simpl in *.
      * exact IH.
      * discriminate.
Qed.

Lemma alb_is_application :
  loadBalancerTypesIngressToAWS !! loadBalancerTypeALB = Some "application".
Proof. reflexivity. Qed.

(** The listener loop accepts a list exactly when every listener has one of
    the three protocols, and refuses any other list with one error. *)
Lemma checkExtraListeners_decides (a : Adapter) (ns : string)
  (listeners : list aws.ExtraListener) :
  (Forall (fun l => aws.ListenProtocol l = "TCP"
                    \/ aws.ListenProtocol l = "UDP"
                    \/ aws.ListenProtocol l = "TCP_UDP") listeners
   /\ exists checked, (checkExtraListeners a ns listeners).2 = inr checked)
  \/ (~ Forall (fun l => aws.ListenProtocol l = "TCP"
                         \/ aws.ListenProtocol l = "UDP"
                         \/ aws.ListenProtocol l = "TCP_UDP") listeners
      /\ (checkExtraListeners a ns listeners).2
         = inl (errorsNew
             "only TCP, UDP, or TCP_UDP are allowed as protocols for extra listeners")).
Proof.
  revert a. induction listeners as [|l rest IH]; intros a.
  - left. split; [constructor | eexists; reflexivity].
  - cbn [checkExtraListeners].
    destruct (String.eqb_spec (aws.ListenProtocol l) "TCP") as [Ht | Ht];
      [|destruct (String.eqb_spec (aws.ListenProtocol l) "UDP") as [Hu | Hu];
        [|destruct (String.eqb_spec (aws.ListenProtocol l) "TCP_UDP")
            as [Hb | Hb]]];
      cbn [negb andb].
    4: { right. split; [|reflexivity].
         intros Hall. inversion Hall as [|? ? [? | [? | ?]] ?]; contradiction. }
    all: assert (Hl : aws.ListenProtocol l = "TCP"
                      \/ aws.ListenProtocol l = "UDP"
                      \/ aws.ListenProtocol l = "TCP_UDP") by tauto.
    all: destruct (IH (set_extraCNIEndpoints
                         (extraCNIEndpoints a
                            ++ [aws.mkCNIEndpoint ns (aws.PodLabel l)]) a))
           as [[Hall [checked Hc]] | [Hnot He]].
    all: destruct (checkExtraListeners _ ns rest) as [a' [e | ls]];
      cbn [snd] in *; try discriminate.
    all: first
      [ left; split; [constructor; assumption | eexists; reflexivity]
      | right; split;
        [ intros Hall'; inversion Hall'; contradiction
        | injection He as ->; reflexivity ] ].
Qed.

(** C6, as amended.  An ingress with no load-balancer-type annotation whose
    type resolves to NLB (scheme not internal, controller default [nlb])
    and that carries a security-group or WAF web-ACL annotation is
    normalised to load-balancer type [application] (ALB) with no error,
    unless its extra-listeners annotation is refused.  Without that
    annotation, and with one whose listeners all have protocol TCP, UDP or
    TCP_UDP, there is no error and the type is [application]; an
    annotation that does not parse is reported with the parse error; a
    listener with another protocol is reported with the protocol error. *)
Theorem default_nlb_demoted_to_alb (a : Adapter) (typ : string)
  (metadata : kubeItemMetadata) (host : string) (hostnames : list string) :
  Annotations metadata !! "zalando.org/aws-load-balancer-type" = None ->
  Annotations metadata !! "zalando.org/aws-load-balancer-scheme" <> Some "internal" ->
  ingressDefaultLoadBalancerType a = "nlb" ->
  is_Some (Annotations metadata !! "zalando.org/aws-load-balancer-security-group")
  \/ is_Some (Annotations metadata !! "zalando.org/aws-waf-web-acl-id") ->
  let r := (newIngress SSLPolicies json_Unmarshal a typ metadata host hostnames).2 in
  match Annotations metadata !! "zalando.org/aws-nlb-extra-listeners" with
  | None => exists ing, r = inr ing /\ LoadBalancerType ing = "application"
  | Some raw =>
      match json_Unmarshal raw with
      | inl e =>
          r = inl (ErrorfV
                     "unable to parse aws-nlb-extra-listeners annotation: %v" [e])
      | inr listeners =>
          (Forall (fun l => aws.ListenProtocol l = "TCP"
                            \/ aws.ListenProtocol l = "UDP"
                            \/ aws.ListenProtocol l = "TCP_UDP") listeners ->
           exists ing, r = inr ing /\ LoadBalancerType ing = "application")
          /\ (~ Forall (fun l => aws.ListenProtocol l = "TCP"
                                 \/ aws.ListenProtocol l = "UDP"
                                 \/ aws.ListenProtocol l = "TCP_UDP") listeners ->
              r = inl (errorsNew
                "only TCP, UDP, or TCP_UDP are allowed as protocols for extra listeners"))
      end
  end.
Proof.
  intros Hlb Hscheme Hdef Hsgwaf. unfold newIngress.
  change ingressLoadBalancerTypeAnnotation
    with "zalando.org/aws-load-balancer-type".
  rewrite Hlb, Hdef.
  assert (Hs : String.eqb
                 (if String.eqb
                       (getAnnotationsString (Annotations metadata)
                                             ingressSchemeAnnotation "")
                       elbv2.LoadBalancerSchemeEnumInternal
                  then elbv2.LoadBalancerSchemeEnumInternal
                  else elbv2.LoadBalancerSchemeEnumInternetFacing)
                 elbv2.LoadBalancerSchemeEnumInternal = false).
  { unfold getAnnotationsString.
    change ingressSchemeAnnotation with "zalando.org/aws-load-balancer-scheme".
    destruct (Annotations metadata !! "zalando.org/aws-load-balancer-scheme")
      as [v|] eqn:E.
    - destruct (String.eqb v elbv2.LoadBalancerSchemeEnumInternal) eqn:Ev;
        [|reflexivity].
      apply String.eqb_eq in Ev. subst v. now destruct Hscheme.
    - reflexivity. }
  rewrite Hs.
  assert (Hb : bool_decide (is_Some
                 (Annotations metadata !! ingressSecurityGroupAnnotation))
               || bool_decide (is_Some
                 (Annotations metadata !! ingressWAFWebACLIDAnnotation)) = true).
  { apply orb_true_iff.
    destruct Hsgwaf; [left|right]; now apply bool_decide_eq_true. }
  rewrite Hb.
  change (String.eqb "nlb" loadBalancerTypeNLB) with true.
  rewrite (bool_decide_eq_false_2 (is_Some None)) by (intros [? ?]; discriminate).
  cbn [andb].
  unfold parseExtraListeners.
  change ingressNLBExtraListenersAnnotation
    with "zalando.org/aws-nlb-extra-listeners".
  destruct (Annotations metadata !! "zalando.org/aws-nlb-extra-listeners")
    as [raw|] eqn:Eraw.
  - change (negb (String.eqb "nlb" loadBalancerTypeNLB)) with false. cbn iota.
    destruct (json_Unmarshal raw) as [e|listeners] eqn:Ej.
    + reflexivity.
    + destruct (checkExtraListeners_decides a (md_Namespace metadata) listeners)
        as [[Hall [checked Hc]] | [Hnot He]];
        destruct (checkExtraListeners a (md_Namespace metadata) listeners)
          as [a' [err|ls]]; cbn [snd] in *; try discriminate.
      * split; [|intros Hn; contradiction].
        intros _. eexists. split; [reflexivity|].
        cbn [LoadBalancerType]. now rewrite alb_is_application.
      * split; [intros Hall; contradiction|].
        intros _. now injection He as ->.
  - cbn zeta. eexists. split; [reflexivity|].
    cbn [LoadBalancerType]. now rewrite alb_is_application.
Qed.

End NormalizerProperties.

(** [aws-load-balancer-type: nlb] with [aws-waf-web-acl-id: abc]. *)
Lemma nlb_with_sg_or_waf_annotation_is_dropped_witness :
  exists err,
    (kubernetes.newIngress fixtures.sslPolicies fixtures.unmarshal
       fixtures.nlbAdapter kubernetes.TypeIngress
       (fixtures.metadata fixtures.nlbWithWAF) "" ["foo.bar.org"]).2 = inl err.
Proof.
  apply (proj1 (proj1 (nlb_with_sg_or_waf_annotation_is_dropped
                         fixtures.sslPolicies fixtures.unmarshal
                         (fixtures.metadata fixtures.nlbWithWAF)
                         ltac:(right; vm_compute; eauto))
                      ltac:(vm_compute; reflexivity))).
Defined.

(** C5 fails on an ingress whose type annotation names no load-balancer
    type, under a controller whose default type is NLB: the NLB check sees
    the annotation value and is passed over, the value is then replaced by
    the default, and the record comes out with type [network] and the WAF
    web-ACL override, with no error; [ListIngress] returns it. *)
Lemma unknown_type_annotation_gives_nlb_with_waf :
  kubernetes.Annotations (fixtures.metadata fixtures.unknownTypeWithWAF)
    !! kubernetes.ingressWAFWebACLIDAnnotation = Some "abc"
  /\ kubernetes.ingressDefaultLoadBalancerType fixtures.nlbAdapter = "nlb"
  /\ kubernetes.newIngress fixtures.sslPolicies fixtures.unmarshal
       fixtures.nlbAdapter kubernetes.TypeIngress
       (fixtures.metadata fixtures.unknownTypeWithWAF) "" ["foo.bar.org"]
     = (fixtures.nlbAdapter,
        inr (kubernetes.mkIngress kubernetes.TypeIngress "default" "myingress"
               true true false "" "" [] "internet-facing" "sg-default"
               "ELBSecurityPolicy-2016-08" "ipv4" "network" "abc"
               ["foo.bar.org"]))
  /\ (kubernetes.ListIngress fixtures.sslPolicies fixtures.unmarshal
        fixtures.nlbAdapter []
        (kubernetes.Body
           (inr (kubernetes.mkIngressList "IngressList" "networking.k8s.io/v1"
                   (kubernetes.mkIngressListMetadata "" "")
                   [fixtures.kubeIngress fixtures.unknownTypeWithWAF])))).2
     = inr [kubernetes.mkIngress kubernetes.TypeIngress "default" "myingress"
              true true false "" "" [] "internet-facing" "sg-default"
              "ELBSecurityPolicy-2016-08" "ipv4" "network" "abc"
              ["foo.bar.org"]].
Proof. repeat split; vm_compute; reflexivity. Qed.

(** [aws-load-balancer-type: nlb] with [ip-address-type: dualstack]. *)
Lemma network_implies_ipv4_witness :
  kubernetes.IPAddressType
    (kubernetes.mkIngress kubernetes.TypeIngress "default" "myingress" true true
       false "" "" [] "internet-facing" "sg-default" "ELBSecurityPolicy-2016-08"
       "ipv4" "network" "" ["foo.bar.org"]) = "ipv4".
Proof.
  apply (network_implies_ipv4 fixtures.sslPolicies fixtures.unmarshal
           fixtures.nlbAdapter kubernetes.TypeIngress
           (fixtures.metadata fixtures.nlbDualstack) "" ["foo.bar.org"]).
  - vm_compute. reflexivity.
  - reflexivity.
Defined.

(** Scenario S4: controller default NLB, no type annotation,
    [aws-waf-web-acl-id: abc]. *)
Lemma default_nlb_demoted_to_alb_witness :
  exists ing,
    (kubernetes.newIngress fixtures.sslPolicies fixtures.unmarshal
       fixtures.nlbAdapter kubernetes.TypeIngress
       (fixtures.metadata fixtures.wafOnly) "" ["foo.bar.org"]).2 = inr ing
    /\ kubernetes.LoadBalancerType ing = "application".
Proof.
  exact (default_nlb_demoted_to_alb fixtures.sslPolicies fixtures.unmarshal
           fixtures.nlbAdapter kubernetes.TypeIngress
           (fixtures.metadata fixtures.wafOnly) "" ["foo.bar.org"]
           ltac:(vm_compute; reflexivity)
           ltac:(vm_compute; discriminate)
           ltac:(reflexivity)
           ltac:(right; vm_compute; eauto)).
Defined.

(** C6, as worded, fails on an ingress of scenario S4 whose extra-listeners
    annotation does not parse: there is no type annotation, the type
    resolves to NLB from the controller default, a WAF web-ACL annotation
    is set, and the normalisation reports an error. *)
Lemma default_nlb_with_waf_can_fail :
  kubernetes.Annotations (fixtures.metadata fixtures.wafWithBadListeners)
    !! kubernetes.ingressLoadBalancerTypeAnnotation = None
  /\ kubernetes.ingressDefaultLoadBalancerType fixtures.nlbAdapter = "nlb"
  /\ kubernetes.Annotations (fixtures.metadata fixtures.wafWithBadListeners)
       !! kubernetes.ingressWAFWebACLIDAnnotation = Some "abc"
  /\ (kubernetes.newIngress fixtures.sslPolicies fixtures.unmarshal
        fixtures.nlbAdapter kubernetes.TypeIngress
        (fixtures.metadata fixtures.wafWithBadListeners) "" ["foo.bar.org"]).2
     = inl (ErrorfV "unable to parse aws-nlb-extra-listeners annotation: %v"
                    [errorsNew "unexpected end of JSON input"]).
Proof. repeat split; vm_compute; reflexivity. Qed.

(** The demotion looks at the annotations only: with the controller default
    NLB and a default security group, an ingress without annotations stays
    on the network load balancer. *)
Example default_security_group_alone_keeps_nlb :
  (kubernetes.newIngress fixtures.sslPolicies fixtures.unmarshal
     fixtures.nlbAdapter kubernetes.TypeIngress (fixtures.metadata ∅) ""
     ["foo.bar.org"]).2
  = inr (kubernetes.mkIngress kubernetes.TypeIngress "default" "myingress" true
           true false "" "" [] "internet-facing" "sg-default"
           "ELBSecurityPolicy-2016-08" "ipv4" "network" "" ["foo.bar.org"]).
Proof. vm_compute. reflexivity. Qed.

(** ** Status write-back *)

Section WriteBackProperties.

Import kubernetes.

Variable SSLPolicies : gmap string bool.
Variable json_Unmarshal : string -> error + list aws.ExtraListener.

Lemma newIngress_hostname (a : Adapter) (typ : string)
  (metadata : kubeItemMetadata) (host : string) (hostnames : list string)
  (ing : Ingress) :
  (newIngress SSLPolicies json_Unmarshal a typ metadata host hostnames).2
    = inr ing ->
  Hostname ing = host /\ ResourceType ing = typ.
Proof.
  unfold newIngress.
  destruct (parseExtraListeners json_Unmarshal a metadata _)
    as [a' [err|ls]]; [discriminate|].
  match goal with |- context [if ?c then _ else _] => destruct c end.
  - match goal with |- context [if ?c then _ else _] => destruct c end;
      [discriminate|].
    cbn [snd]. intros Heq. injection Heq as <-. now split.
  - cbn [snd]. intros Heq. injection Heq as <-. now split.
Qed.

(** The record listed from an ingress whose status is the body of the
    PATCH carries the patched hostname as its status hostname. *)
Lemma relisted_hostname_is_patched (a : Adapter) (metadata : kubeItemMetadata)
  (spec : ingressSpec) (newHostName : string) (ing : Ingress) :
  (newIngressFromKube SSLPolicies json_Unmarshal a
     (mkKubeIngress metadata spec
        (mkIngressStatus
           (mkIngressLoadBalancerStatus [mkIngressLoadBalancer newHostName])))).2
    = inr ing ->
  Hostname ing = newHostName.
Proof.
  unfold newIngressFromKube. intros H.
  apply newIngress_hostname in H as [-> _]. cbn.
  destruct (String.eqb newHostName "") eqn:E; [|reflexivity].
  apply String.eqb_eq in E. now subst.
Qed.

End WriteBackProperties.

Lemma patchCount_app (w w' : list kubernetes.Call) :
  patchCount (w ++ w') = (patchCount w + patchCount w')%nat.
Proof. unfold patchCount. now rewrite List.filter_app, length_app. Qed.

Lemma UpdateIngressLoadBalancer_not_needed (a : kubernetes.Adapter)
  (w : list kubernetes.Call) (ing : kubernetes.Ingress) (dns : string)
  (reply : option error) :
  dns <> "" ->
  kubernetes.Hostname ing = clusterLocalToEmpty dns ->
  kubernetes.UpdateIngressLoadBalancer a w (Some ing) dns reply
  = (w, Some (errVar ErrUpdateNotNeeded)).
Proof.
  intros Hne Heq. unfold kubernetes.UpdateIngressLoadBalancer.
  apply String.eqb_neq in Hne. rewrite Hne.
  fold (clusterLocalToEmpty dns). rewrite Heq, String.eqb_refl. reflexivity.
Qed.

(** C8, as amended.  For a non-nil ingress and a non-empty DNS name,
    [UpdateIngressLoadBalancer] returns [ErrUpdateNotNeeded] and leaves the
    call log as it is whenever the status hostname of the ingress equals
    the DNS name (the cluster-local sentinel standing for the empty
    hostname).  Hence, when the first update of an ingress or routegroup
    is a PATCH that succeeds, a second update with the same DNS name, made
    on the record whose status hostname is the patched one, is
    short-circuited: exactly one PATCH is made in all. *)
Theorem UpdateIngressLoadBalancer_patches_once (a : kubernetes.Adapter)
  (w : list kubernetes.Call) (ing : kubernetes.Ingress) (dns : string) :
  dns <> "" ->
  (kubernetes.Hostname ing = clusterLocalToEmpty dns ->
   forall reply,
     kubernetes.UpdateIngressLoadBalancer a w (Some ing) dns reply
     = (w, Some (errVar ErrUpdateNotNeeded)))
  /\ (kubernetes.Hostname ing <> clusterLocalToEmpty dns ->
      kubernetes.ResourceType ing = "ingress"
      \/ kubernetes.ResourceType ing = "routegroup" ->
      forall reply,
        let first := kubernetes.UpdateIngressLoadBalancer a w (Some ing) dns None in
        let second :=
          kubernetes.UpdateIngressLoadBalancer a first.1
            (Some (withHostname (clusterLocalToEmpty dns) ing)) dns reply in
        first.2 = None
        /\ patchCount first.1 = S (patchCount w)
        /\ second.2 = Some (errVar ErrUpdateNotNeeded)
        /\ second.1 = first.1
        /\ patchCount second.1 = S (patchCount w)).
Proof.
  intros Hne. split.
  - intros Heq reply. now apply UpdateIngressLoadBalancer_not_needed.
  - intros Hdiff Htyp reply first second.
    assert (Hsecond : second = (first.1, Some (errVar ErrUpdateNotNeeded))).
    { apply UpdateIngressLoadBalancer_not_needed; [exact Hne | reflexivity]. }
    assert (Hfirst : first.2 = None /\ patchCount first.1 = S (patchCount w)).
    { subst first second. unfold kubernetes.UpdateIngressLoadBalancer.
      apply String.eqb_neq in Hne. rewrite Hne.
      fold (clusterLocalToEmpty dns).
      apply String.eqb_neq in Hdiff. rewrite Hdiff.
      destruct Htyp as [-> | ->]; cbn -[patchCount];
        (split; [reflexivity|]); rewrite patchCount_app; cbn; lia. }
    rewrite Hsecond. cbn [fst snd]. tauto.
Qed.

(** Scenario S5: the status is patched to [x.elb] once, and an update of
    the record that already has this hostname is not needed. *)
Lemma UpdateIngressLoadBalancer_patches_once_witness :
  (kubernetes.UpdateIngressLoadBalancer fixtures.nlbAdapter []
     (Some (withHostname "x.elb" fixtures.record)) "x.elb" None
   = ([], Some (errVar ErrUpdateNotNeeded)))
  /\ (let first :=
        kubernetes.UpdateIngressLoadBalancer fixtures.nlbAdapter []
          (Some fixtures.record) "x.elb" None in
      let second :=
        kubernetes.UpdateIngressLoadBalancer fixtures.nlbAdapter first.1
          (Some (withHostname "x.elb" fixtures.record)) "x.elb" None in
      first.2 = None
      /\ patchCount first.1 = 1%nat
      /\ second.2 = Some (errVar ErrUpdateNotNeeded)
      /\ second.1 = first.1
      /\ patchCount second.1 = 1%nat).
Proof.
  split.
  - apply (proj1 (UpdateIngressLoadBalancer_patches_once fixtures.nlbAdapter []
                    (withHostname "x.elb" fixtures.record) "x.elb"
                    ltac:(discriminate))
                 ltac:(reflexivity)
                 None).
  - apply (proj2 (UpdateIngressLoadBalancer_patches_once fixtures.nlbAdapter []
                    fixtures.record "x.elb" ltac:(discriminate))
                 ltac:(vm_compute; discriminate)
                 ltac:(left; reflexivity)
                 None).
Defined.

(** C8, as worded, fails for the empty DNS name: the status hostname of the
    ingress equals it, and the call returns [ErrInvalidIngressUpdateParams]
    instead of [ErrUpdateNotNeeded]. *)
Lemma UpdateIngressLoadBalancer_empty_name_is_invalid :
  kubernetes.Hostname fixtures.record = clusterLocalToEmpty ""
  /\ (kubernetes.UpdateIngressLoadBalancer fixtures.nlbAdapter []
        (Some fixtures.record) "" None).2
     = Some (errVar ErrInvalidIngressUpdateParams)
  /\ (kubernetes.UpdateIngressLoadBalancer fixtures.nlbAdapter []
        (Some fixtures.record) "" None).2
     <> Some (errVar ErrUpdateNotNeeded).
Proof. repeat split; vm_compute; congruence. Qed.

(** The call does not touch the record it is given: made twice on the same
    record, it sends the PATCH twice. *)
Example UpdateIngressLoadBalancer_same_record_twice :
  let first :=
    kubernetes.UpdateIngressLoadBalancer fixtures.nlbAdapter []
      (Some fixtures.record) "x.elb" None in
  let second :=
    kubernetes.UpdateIngressLoadBalancer fixtures.nlbAdapter first.1
      (Some fixtures.record) "x.elb" None in
  patchCount second.1 = 2%nat.
Proof. vm_compute. reflexivity. Qed.

(** ** The routegroup-support latch *)

Section LatchProperties.

Import kubernetes.

Variable SSLPolicies : gmap string bool.
Variable json_Unmarshal : string -> error + list aws.ExtraListener.

(** [ListIngress] makes one GET of the ingress listing and touches the
    adapter through [extraCNIEndpoints] only. *)
Lemma ListIngress_shape (a : Adapter) (w : list Call)
  (reply : getReply ingressList) :
  exists eps r,
    ListIngress SSLPolicies json_Unmarshal a w reply
    = (set_extraCNIEndpoints eps a,
       w ++ [callGet (ingressListResource (apiVersion (adapterIngressClient a)))],
       r).
Proof.
  unfold ListIngress, listIngress.
  destruct (match reply with
            | GetError err => _ | ReadError err => _ | Body decoded => _
            end) as [err|il].
  - exists (extraCNIEndpoints a), (inl err).
    now rewrite set_extraCNIEndpoints_same.
  - destruct (collectIngress_adapter SSLPolicies json_Unmarshal a (Items il) [])
      as [eps H].
    destruct (collectIngress SSLPolicies json_Unmarshal a (Items il) [])
      as [a' ret].
    simpl in H. subst a'. now exists eps, (inr ret).
Qed.

(** With routegroup support off, a tick lists the ingresses only and
    leaves the support off. *)
Lemma ListResources_support_off (a : Adapter) (w : list Call)
  (ingressReply : getReply ingressList)
  (routegroupReply : error + routegroupList) :
  routeGroupSupport a = false ->
  exists eps r,
    ListResources SSLPolicies json_Unmarshal a w ingressReply routegroupReply
    = (set_extraCNIEndpoints eps a,
       w ++ [callGet (ingressListResource (apiVersion (adapterIngressClient a)))],
       r).
Proof.
  intros Hoff. unfold ListResources.
  destruct (ListIngress_shape a w ingressReply) as (eps & r & ->).
  destruct r as [err|ings].
  - now exists eps, (inl err).
  - change (routeGroupSupport (set_extraCNIEndpoints eps a))
      with (routeGroupSupport a).
    rewrite Hoff. now exists eps, (inr (ings ++ [])).
Qed.

Lemma runTicks_support_off (ticks : list tickReplies) :
  forall (a : Adapter) (w : list Call),
    routeGroupSupport a = false ->
    routeGroupSupport (runTicks SSLPolicies json_Unmarshal a w ticks).1 = false
    /\ (runTicks SSLPolicies json_Unmarshal a w ticks).2
       = w ++ repeat
                (callGet (ingressListResource (apiVersion (adapterIngressClient a))))
                (length ticks).
Proof.
  induction ticks as [|t rest IH]; intros a w Hoff; simpl.
  - split; [exact Hoff | now rewrite app_nil_r].
  - destruct (ListResources_support_off a w (ingressReply t) (routegroupReply t)
                Hoff) as (eps & r & ->).
    destruct (IH (set_extraCNIEndpoints eps a)
                 (w ++ [callGet (ingressListResource
                                   (apiVersion (adapterIngressClient a)))])
                 Hoff) as [IH1 IH2].
    split; [exact IH1|].
    rewrite IH2, <- app_assoc. reflexivity.
Qed.

(** C9.  The [routeGroupSupport] flag latches.  An adapter made by
    [NewAdapter] has it true.  When it is true and the routegroup listing
    fails with resource-not-found or permission-denied, [ListResources]
    returns the ingress list without error and leaves the flag false.  Once
    it is false, it is false after any number of ticks, and the requests
    of these ticks are the ingress listings only: the routegroup listing
    is not attempted. *)
Theorem routeGroupSupport_latches :
  (forall config apiVersion filters sg ssl lbType domain disable clientErr a,
      NewAdapter config apiVersion filters sg ssl lbType domain disable clientErr
      = inr a ->
      routeGroupSupport a = true)
  /\ (forall a w ingressReply err a1 w1 ings,
        routeGroupSupport a = true ->
        ListIngress SSLPolicies json_Unmarshal a w ingressReply
        = (a1, w1, inr ings) ->
        errors_Is err ErrResourceNotFound
        || errors_Is err ErrNoPermissionToAccessResource = true ->
        ListResources SSLPolicies json_Unmarshal a w ingressReply (inl err)
        = (set_routeGroupSupport false a1, w1 ++ [callListRoutegroups], inr ings))
  /\ (forall a w ticks,
        routeGroupSupport a = false ->
        let run := runTicks SSLPolicies json_Unmarshal a w ticks in
        routeGroupSupport run.1 = false
        /\ (exists calls, run.2 = w ++ calls /\ callListRoutegroups ∉ calls)).
Proof.
  split; [|split].
  - intros config apiVersion filters sg ssl lbType domain disable clientErr a.
    unfold NewAdapter.
    destruct config as [config|]; [|discriminate].
    destruct (String.eqb (BaseURL config) ""); [discriminate|].
    destruct clientErr; [discriminate|].
    intros H. injection H as <-. reflexivity.
  - intros a w ingressReply err a1 w1 ings Hon HL Herr.
    unfold ListResources. rewrite HL.
    destruct (ListIngress_shape a w ingressReply) as (eps & r & HS).
    rewrite HS in HL. injection HL as <- <- ->.
    change (routeGroupSupport (set_extraCNIEndpoints eps a))
      with (routeGroupSupport a).
    rewrite Hon. unfold ListRoutegroups, listRoutegroups.
    rewrite Herr, app_nil_r. reflexivity.
  - intros a w ticks Hoff run.
    destruct (runTicks_support_off ticks a w Hoff) as [H1 H2].
    split; [exact H1|].
    eexists. split; [exact H2|].
    intros Hin. apply list_elem_of_In, repeat_spec in Hin. discriminate.
Qed.

End LatchProperties.

(** Scenario S6: a new adapter supports routegroups; the first tick meets a
    permission-denied routegroup listing; the two ticks after it list the
    ingresses only. *)
Lemma routeGroupSupport_latches_witness :
  let tick := mkTickReplies (kubernetes.Body (inr fixtures.emptyIngressList))
                            (inl fixtures.permissionDenied) in
  let first :=
    kubernetes.ListResources fixtures.sslPolicies fixtures.unmarshal
      fixtures.nlbAdapter [] (ingressReply tick) (routegroupReply tick) in
  let run := runTicks fixtures.sslPolicies fixtures.unmarshal
               first.1.1 first.1.2 [tick; tick] in
  kubernetes.routeGroupSupport fixtures.nlbAdapter = true
  /\ first.2 = inr []
  /\ kubernetes.routeGroupSupport first.1.1 = false
  /\ kubernetes.routeGroupSupport run.1 = false
  /\ (exists calls, run.2 = first.1.2 ++ calls
                    /\ kubernetes.callListRoutegroups ∉ calls).
Proof.
  intros tick first run.
  destruct (routeGroupSupport_latches fixtures.sslPolicies fixtures.unmarshal)
    as (Hnew & Hflip & Hstay).
  assert (Hfirst : first
                   = (kubernetes.set_routeGroupSupport false fixtures.nlbAdapter,
                      [kubernetes.callGet "/apis/networking.k8s.io/v1/ingresses"]
                        ++ [kubernetes.callListRoutegroups],
                      inr [])).
  { apply (Hflip fixtures.nlbAdapter [] (ingressReply tick)
                 fixtures.permissionDenied); reflexivity. }
  split.
  { apply (Hnew (Some (kubernetes.mkConfig "https://kubernetes.default"))
                "networking.k8s.io/v1" [] "sg-default"
                "ELBSecurityPolicy-2016-08" "network" "" false None).
    vm_compute. reflexivity. }
  split; [now rewrite Hfirst|].
  split; [now rewrite Hfirst|].
  apply (Hstay first.1.1 first.1.2 [tick; tick]).
  now rewrite Hfirst.
Defined.

(** ** The stack listing *)

Section InventoryProperties.

Variable time_Parse_RFC3339 : string -> error + Time.
Variable base64_DecodeString : string -> string.
Variable json_Unmarshal : string -> error + list aws.ExtraListener.


Lemma collectManaged_stacks (clusterID controllerID : string)
  (page : list cloudformation.Stack) (acc : list aws.Stack * list error) :
  (aws.collectManaged time_Parse_RFC3339 base64_DecodeString json_Unmarshal
     clusterID controllerID page acc).1
  = acc.1 ++ List.map (decodedStack time_Parse_RFC3339 base64_DecodeString
                           json_Unmarshal) (List.filter (managedBy clusterID controllerID) page).
Proof.
  revert acc. induction page as [|s rest IH]; intros acc; simpl.
  - now rewrite app_nil_r.
  - rewrite IH. unfold managedBy at 2.
    destruct (aws.isManagedStack (cloudformation.Tags s) clusterID controllerID).
    + cbn [List.map]. unfold decodedStack at 2.
      destruct (aws.mapToManagedStack _ _ _ s) as [stack err]; cbn [fst snd].
      now rewrite <- app_assoc.
    + reflexivity.
Qed.

Lemma collectManaged_pages (clusterID controllerID : string)
  (pages : list (list cloudformation.Stack)) (acc : list aws.Stack * list error) :
  (foldl (fun acc page =>
            aws.collectManaged time_Parse_RFC3339 base64_DecodeString
              json_Unmarshal clusterID controllerID page acc) acc pages).1
  = acc.1 ++ List.map (decodedStack time_Parse_RFC3339 base64_DecodeString
                           json_Unmarshal)
               (List.filter (managedBy clusterID controllerID) (concat pages)).
Proof.
  revert acc. induction pages as [|page rest IH]; intros acc; simpl.
  - now rewrite app_nil_r.
  - rewrite IH, collectManaged_stacks, List.filter_app, List.map_app.
    now rewrite app_assoc.
Qed.

(** The stacks [findManagedStacks] returns are the decoded stacks that
    [isManagedStack] accepts, page after page. *)
Lemma findManagedStacks_accepts_managed (clusterID controllerID : string)
  (pages : list (list cloudformation.Stack)) (err : option error)
  (stacks : list aws.Stack) :
  aws.findManagedStacks time_Parse_RFC3339 base64_DecodeString json_Unmarshal
    pages err clusterID controllerID = inr stacks ->
  stacks = List.map (decodedStack time_Parse_RFC3339 base64_DecodeString
                           json_Unmarshal)
             (List.filter (managedBy clusterID controllerID) (concat pages)).
Proof.
  unfold aws.findManagedStacks.
  pose proof (collectManaged_pages clusterID controllerID pages ([], [])) as H.
  destruct (foldl _ _ pages) as [acc errors].
  destruct err; [discriminate|].
  destruct (0 <? length errors)%nat; [discriminate|].
  intros Heq. injection Heq as <-. exact H.
Qed.

End InventoryProperties.

(** * Further properties of the code *)

(** ** Normalisation: the fields of a record *)

Section RecordProperties.

Import kubernetes.

Variable SSLPolicies : gmap string bool.
Variable json_Unmarshal : string -> error + list aws.ExtraListener.

Lemma loadBalancerTypesIngressToAWS_lookup (k v : string) :
  loadBalancerTypesIngressToAWS !! k = Some v <->
  (k = "alb" /\ v = "application") \/ (k = "nlb" /\ v = "network").
Proof.
  unfold loadBalancerTypesIngressToAWS.
  rewrite !lookup_insert_Some, lookup_empty.
  unfold loadBalancerTypeALB, loadBalancerTypeNLB,
    aws.LoadBalancerTypeApplication, aws.LoadBalancerTypeNetwork.
  split.
  - intros [[<- <-]|[_ [[<- <-]|[_ H]]]]; [now left | now right | discriminate].
  - intros [[-> ->]|[-> ->]]; [now left | right].
    split; [discriminate|]. now left.
Qed.

(** What [newIngress] does with the type it has after the NLB check: the
    two names it knows are translated, any other falls back on the
    controller default. *)
Lemma converted_type (a : Adapter) (lbt : string) :
  let lbt' := match loadBalancerTypesIngressToAWS !! lbt with
              | Some _ => lbt
              | None => ingressDefaultLoadBalancerType a
              end in
  let r := mapIndex loadBalancerTypesIngressToAWS lbt' in
  r = "application" \/ r = "network"
  \/ (r = "" /\ ingressDefaultLoadBalancerType a <> "alb"
      /\ ingressDefaultLoadBalancerType a <> "nlb").
Proof.
  intros lbt' r. subst r lbt'. unfold mapIndex.
  destruct (loadBalancerTypesIngressToAWS !! lbt) as [v|] eqn:E.
  - rewrite E. apply loadBalancerTypesIngressToAWS_lookup in E
      as [[_ ->]|[_ ->]]; simpl; auto.
  - destruct (loadBalancerTypesIngressToAWS !! ingressDefaultLoadBalancerType a)
      as [v|] eqn:E'.
    + apply loadBalancerTypesIngressToAWS_lookup in E'
        as [[_ ->]|[_ ->]]; simpl; auto.
    + simpl. right. right. split; [reflexivity|].
      split; intros Heq; rewrite Heq in E'; discriminate.
Qed.

(** X1.  The load-balancer type of a normalised record is [application] or
    [network]; it can only be empty when the default type of the adapter
    is neither [alb] nor [nlb]. *)
Theorem LoadBalancerType_of_record (a : Adapter) (typ : string)
  (metadata : kubeItemMetadata) (host : string) (hostnames : list string)
  (ing : Ingress) :
  (newIngress SSLPolicies json_Unmarshal a typ metadata host hostnames).2
    = inr ing ->
  LoadBalancerType ing = "application" \/ LoadBalancerType ing = "network"
  \/ (LoadBalancerType ing = ""
      /\ ingressDefaultLoadBalancerType a <> "alb"
      /\ ingressDefaultLoadBalancerType a <> "nlb").
Proof.
  unfold newIngress.
  destruct (parseExtraListeners_adapter json_Unmarshal a metadata
              match Annotations metadata !! ingressLoadBalancerTypeAnnotation with
              | Some v => v
              | None =>
                  if String.eqb
                       (if String.eqb
                             (getAnnotationsString (Annotations metadata)
                                                   ingressSchemeAnnotation "")
                             elbv2.LoadBalancerSchemeEnumInternal
                        then elbv2.LoadBalancerSchemeEnumInternal
                        else elbv2.LoadBalancerSchemeEnumInternetFacing)
                       elbv2.LoadBalancerSchemeEnumInternal
                  then loadBalancerTypeALB
                  else ingressDefaultLoadBalancerType a
              end) as [eps Heps].
  destruct (parseExtraListeners json_Unmarshal a metadata _)
    as [a' [err|ls]]; [discriminate|].
  simpl in Heps. subst a'.
  change (ingressDefaultLoadBalancerType (set_extraCNIEndpoints eps a))
    with (ingressDefaultLoadBalancerType a).
  match goal with |- context [if ?c then _ else _] => destruct c end.
  - match goal with |- context [if ?c then _ else _] => destruct c end;
      [discriminate|].
    cbn [snd]. intros Heq. injection Heq as <-. cbn [LoadBalancerType].
    apply converted_type.
  - cbn [snd]. intros Heq. injection Heq as <-. cbn [LoadBalancerType].
    apply converted_type.
Qed.



(** X3.  An ingress whose scheme annotation is [internal] and that has no
    load-balancer-type annotation gets an application load balancer,
    whatever the controller default is; it is refused only when it carries
    an extra-listeners annotation, with the error that says so. *)
Theorem internal_scheme_is_alb (a : Adapter) (typ : string)
  (metadata : kubeItemMetadata) (host : string) (hostnames : list string) :
  Annotations metadata !! "zalando.org/aws-load-balancer-scheme" = Some "internal" ->
  Annotations metadata !! "zalando.org/aws-load-balancer-type" = None ->
  match Annotations metadata !! "zalando.org/aws-nlb-extra-listeners" with
  | Some _ =>
      newIngress SSLPolicies json_Unmarshal a typ metadata host hostnames
      = (a, inl (errorsNew "extra listeners are only supported on NLBs"))
  | None =>
      exists ing,
        newIngress SSLPolicies json_Unmarshal a typ metadata host hostnames
        = (a, inr ing)
        /\ LoadBalancerType ing = "application"
        /\ Scheme ing = "internal"
  end.
Proof.
  intros Hs Hlb. unfold newIngress, parseExtraListeners, getAnnotationsString.
  change ingressSchemeAnnotation with "zalando.org/aws-load-balancer-scheme".
  change ingressLoadBalancerTypeAnnotation
    with "zalando.org/aws-load-balancer-type".
  change ingressNLBExtraListenersAnnotation
    with "zalando.org/aws-nlb-extra-listeners".
  rewrite Hs, Hlb.
  change (String.eqb "internal" elbv2.LoadBalancerSchemeEnumInternal) with true.
  cbn iota.
  change (String.eqb elbv2.LoadBalancerSchemeEnumInternal
                     elbv2.LoadBalancerSchemeEnumInternal) with true.
  cbn iota.
  change (String.eqb loadBalancerTypeALB loadBalancerTypeNLB) with false.
  cbn [negb andb].
  destruct (Annotations metadata !! "zalando.org/aws-nlb-extra-listeners").
  - reflexivity.
  - rewrite alb_is_application. eexists. split; [reflexivity|]. split; reflexivity.
Qed.

(** ** Normalisation: the extra listeners and the CNI endpoints *)

Lemma checkExtraListeners_ok (a a' : Adapter) (ns : string)
  (listeners checked : list aws.ExtraListener) :
  checkExtraListeners a ns listeners = (a', inr checked) ->
  checked
  = List.map (fun l => aws.mkExtraListener
                         (aws.ListenProtocol l) (aws.ListenPort l)
                         (aws.TargetPort l) (aws.PodLabel l) ns) listeners
  /\ Forall (fun l => aws.ListenProtocol l = "TCP"
                      \/ aws.ListenProtocol l = "UDP"
                      \/ aws.ListenProtocol l = "TCP_UDP") listeners
  /\ a' = set_extraCNIEndpoints
            (extraCNIEndpoints a
               ++ List.map (fun l => aws.mkCNIEndpoint ns (aws.PodLabel l))
                           listeners) a.
Proof.
  revert a a' checked.
  induction listeners as [|l rest IH]; intros a a' checked; simpl.
  - intros H. injection H as <- <-.
    rewrite app_nil_r, set_extraCNIEndpoints_same. auto.
  - destruct (negb (String.eqb (aws.ListenProtocol l) "TCP")
              && negb (String.eqb (aws.ListenProtocol l) "UDP")
              && negb (String.eqb (aws.ListenProtocol l) "TCP_UDP")) eqn:E;
      [discriminate|].
    destruct (checkExtraListeners _ ns rest) as [a1 [err|rest']] eqn:Er;
      [discriminate|].
    intros H. injection H as <- <-.
    apply IH in Er as [-> [Hall ->]].
    split; [reflexivity|]. split.
    + constructor; [|exact Hall].
      rewrite !andb_false_iff, !negb_false_iff, !String.eqb_eq in E. tauto.
    + rewrite set_extraCNIEndpoints_twice. cbn [extraCNIEndpoints set_extraCNIEndpoints].
      now rewrite <- app_assoc.
Qed.

Lemma checkExtraListeners_valid (a : Adapter) (ns : string)
  (listeners : list aws.ExtraListener) :
  Forall (fun l => aws.ListenProtocol l = "TCP"
                   \/ aws.ListenProtocol l = "UDP"
                   \/ aws.ListenProtocol l = "TCP_UDP") listeners ->
  exists a' checked, checkExtraListeners a ns listeners = (a', inr checked).
Proof.
  intros Hall. revert a. induction Hall as [|l rest Hl _ IH]; intros a; simpl.
  - eauto.
  - assert (E : negb (String.eqb (aws.ListenProtocol l) "TCP")
                && negb (String.eqb (aws.ListenProtocol l) "UDP")
                && negb (String.eqb (aws.ListenProtocol l) "TCP_UDP") = false).
    { destruct Hl as [Hp | [Hp | Hp]]; rewrite Hp; reflexivity. }
    rewrite E.
    destruct (IH (set_extraCNIEndpoints
                    (extraCNIEndpoints a
                       ++ [aws.mkCNIEndpoint ns (aws.PodLabel l)]) a))
      as (a' & checked & ->).
    eauto.
Qed.

(** X4.  In a normalised record the extra listeners are the decoded ones,
    each with the namespace of the resource written over its own; every
    one has protocol TCP, UDP or TCP_UDP; and the adapter has gained one
    CNI endpoint per listener, in order.  Without the annotation the
    record has no extra listener and the adapter is left as it was. *)
Theorem extra_listeners_of_record (a a' : Adapter) (typ : string)
  (metadata : kubeItemMetadata) (host : string) (hostnames : list string)
  (ing : Ingress) :
  newIngress SSLPolicies json_Unmarshal a typ metadata host hostnames
    = (a', inr ing) ->
  match Annotations metadata !! "zalando.org/aws-nlb-extra-listeners" with
  | None => ExtraListeners ing = [] /\ a' = a
  | Some raw =>
      exists listeners,
        json_Unmarshal raw = inr listeners
        /\ ExtraListeners ing
           = List.map (fun l => aws.mkExtraListener
                                  (aws.ListenProtocol l) (aws.ListenPort l)
                                  (aws.TargetPort l) (aws.PodLabel l)
                                  (md_Namespace metadata)) listeners
        /\ Forall (fun l => aws.ListenProtocol l = "TCP"
                            \/ aws.ListenProtocol l = "UDP"
                            \/ aws.ListenProtocol l = "TCP_UDP") listeners
        /\ extraCNIEndpoints a'
           = extraCNIEndpoints a
               ++ List.map (fun l => aws.mkCNIEndpoint (md_Namespace metadata)
                                                       (aws.PodLabel l))
                           listeners
  end.
Proof.
  unfold newIngress.
  destruct (parseExtraListeners json_Unmarshal a metadata _)
    as [a1 [err|ls]] eqn:Ep.
  { intros H. discriminate. }
  assert (Hrec : ExtraListeners ing = ls /\ a' = a1 ->
    match Annotations metadata !! "zalando.org/aws-nlb-extra-listeners" with
    | None => ExtraListeners ing = [] /\ a' = a
    | Some raw =>
        exists listeners,
          json_Unmarshal raw = inr listeners
          /\ ExtraListeners ing
             = List.map (fun l => aws.mkExtraListener
                                    (aws.ListenProtocol l) (aws.ListenPort l)
                                    (aws.TargetPort l) (aws.PodLabel l)
                                    (md_Namespace metadata)) listeners
          /\ Forall (fun l => aws.ListenProtocol l = "TCP"
                              \/ aws.ListenProtocol l = "UDP"
                              \/ aws.ListenProtocol l = "TCP_UDP") listeners
          /\ extraCNIEndpoints a'
             = extraCNIEndpoints a
                 ++ List.map (fun l => aws.mkCNIEndpoint (md_Namespace metadata)
                                                         (aws.PodLabel l))
                             listeners
    end).
  { intros [-> ->]. unfold parseExtraListeners in Ep.
    change ingressNLBExtraListenersAnnotation
      with "zalando.org/aws-nlb-extra-listeners" in Ep.
    destruct (Annotations metadata !! "zalando.org/aws-nlb-extra-listeners")
      as [raw|].
    - destruct (negb _) in Ep; [discriminate|].
      destruct (json_Unmarshal raw) as [e|listeners]; [discriminate|].
      apply checkExtraListeners_ok in Ep as [-> [Hall ->]].
      exists listeners. repeat split; auto.
    - injection Ep as <- <-. auto. }
  match goal with |- context [if ?c then _ else _] => destruct c end.
  - match goal with |- context [if ?c then _ else _] => destruct c end;
      [discriminate|].
    intros Heq. injection Heq as <- <-. apply Hrec. auto.
  - intros Heq. injection Heq as <- <-. apply Hrec. auto.
Qed.

(** X5.  An ingress that is refused can still change the adapter: with the
    type annotation [nlb], a security-group or WAF annotation and extra
    listeners that are all valid, the normalisation returns the NLB error
    after it has appended one CNI endpoint per listener. *)
Theorem refused_ingress_leaves_endpoints (a : Adapter) (typ : string)
  (metadata : kubeItemMetadata) (host : string) (hostnames : list string)
  (raw : string) (listeners : list aws.ExtraListener) :
  Annotations metadata !! "zalando.org/aws-load-balancer-type" = Some "nlb" ->
  is_Some (Annotations metadata !! "zalando.org/aws-load-balancer-security-group")
  \/ is_Some (Annotations metadata !! "zalando.org/aws-waf-web-acl-id") ->
  Annotations metadata !! "zalando.org/aws-nlb-extra-listeners" = Some raw ->
  json_Unmarshal raw = inr listeners ->
  Forall (fun l => aws.ListenProtocol l = "TCP"
                   \/ aws.ListenProtocol l = "UDP"
                   \/ aws.ListenProtocol l = "TCP_UDP") listeners ->
  newIngress SSLPolicies json_Unmarshal a typ metadata host hostnames
  = (set_extraCNIEndpoints
       (extraCNIEndpoints a
          ++ List.map (fun l => aws.mkCNIEndpoint (md_Namespace metadata)
                                                  (aws.PodLabel l)) listeners) a,
     inl (errorsNew
       "security group or WAF are not supported by NLB (configured by annotation)")).
Proof.
  intros Hlb Hsgwaf Hraw Hjson Hall. unfold newIngress, parseExtraListeners.
  change ingressLoadBalancerTypeAnnotation
    with "zalando.org/aws-load-balancer-type".
  change ingressNLBExtraListenersAnnotation
    with "zalando.org/aws-nlb-extra-listeners".
  rewrite Hlb, Hraw, Hjson.
  change (String.eqb "nlb" loadBalancerTypeNLB) with true. cbn [negb].
  destruct (checkExtraListeners_valid a (md_Namespace metadata) listeners Hall)
    as (a' & checked & Hc).
  rewrite Hc. apply checkExtraListeners_ok in Hc as (_ & _ & ->).
  assert (Hb : bool_decide (is_Some
                 (Annotations metadata !! ingressSecurityGroupAnnotation))
               || bool_decide (is_Some
                 (Annotations metadata !! ingressWAFWebACLIDAnnotation)) = true).
  { apply orb_true_iff.
    destruct Hsgwaf; [left|right]; now apply bool_decide_eq_true. }
  rewrite Hb.
  rewrite (bool_decide_eq_true_2 (is_Some (Some "nlb"))) by eauto.
  reflexivity.
Qed.

Lemma newIngress_without_annotations (a : Adapter) (typ : string)
  (metadata : kubeItemMetadata) (host : string) (hostnames : list string) :
  Annotations metadata = ∅ ->
  newIngress SSLPolicies json_Unmarshal a typ metadata host hostnames
  = (a, inr (mkIngress typ (md_Namespace metadata) (md_Name metadata)
               true true (length hostnames <? 1)%nat "" host []
               "internet-facing"
               (ingressDefaultSecurityGroup a)
               (ingressDefaultSSLPolicy a)
               "ipv4"
               (mapIndex loadBalancerTypesIngressToAWS
                         (ingressDefaultLoadBalancerType a))
               "" hostnames)).
Proof.
  intros He.
  unfold newIngress, parseExtraListeners, getAnnotationsString, mapIndex.
  rewrite He, !lookup_empty.
  rewrite (bool_decide_eq_false_2 (is_Some None))
    by (intros [? ?]; discriminate).
  cbn [orb andb default].
  change (String.eqb "" elbv2.LoadBalancerSchemeEnumInternal) with false.
  cbn iota.
  change (String.eqb elbv2.LoadBalancerSchemeEnumInternetFacing
                     elbv2.LoadBalancerSchemeEnumInternal) with false.
  cbn iota.
  change (String.eqb "" "false") with false.
  change (String.eqb "" aws.IPAddressTypeDualstack) with false.
  cbn iota.
  rewrite andb_false_r.
  replace (match SSLPolicies !! ingressDefaultSSLPolicy a with
           | Some _ => ingressDefaultSSLPolicy a
           | None => ingressDefaultSSLPolicy a
           end) with (ingressDefaultSSLPolicy a)
    by (now destruct (SSLPolicies !! ingressDefaultSSLPolicy a)).
  replace (match loadBalancerTypesIngressToAWS
                   !! ingressDefaultLoadBalancerType a with
           | Some _ => ingressDefaultLoadBalancerType a
           | None => ingressDefaultLoadBalancerType a
           end) with (ingressDefaultLoadBalancerType a)
    by (now destruct (loadBalancerTypesIngressToAWS
                        !! ingressDefaultLoadBalancerType a)).
  destruct (String.eqb _ aws.LoadBalancerTypeNetwork); reflexivity.
Qed.


(** X6.  An ingress without annotations is never refused.  Its record is
    internet-facing, shared, with HTTP/2, ipv4, no certificate, no WAF and
    no extra listener; it has the default security group and SSL policy
    of the adapter, and the translation of its default load-balancer type.
    The adapter is left as it was. *)
Theorem record_without_annotations (a : Adapter) (typ : string)
  (metadata : kubeItemMetadata) (host : string) (hostnames : list string) :
  Annotations metadata = ∅ ->
  newIngress SSLPolicies json_Unmarshal a typ metadata host hostnames
  = (a, inr (mkIngress typ (md_Namespace metadata) (md_Name metadata)
               true true (length hostnames <? 1)%nat "" host []
               "internet-facing"
               (ingressDefaultSecurityGroup a)
               (ingressDefaultSSLPolicy a)
               "ipv4"
               (mapIndex loadBalancerTypesIngressToAWS
                         (ingressDefaultLoadBalancerType a))
               "" hostnames)).
Proof. apply newIngress_without_annotations. Qed.

(** X27.  [NewAdapter] and the normalisation together: the adapter takes
    the default load-balancer type in the AWS naming and keeps it in the
    annotation naming.  An ingress without annotations gets the default
    security group and SSL policy the adapter was made with, and the
    default type back when that is [application] or [network]; for any
    other default type the record has the empty type. *)
Theorem default_type_of_new_adapter (config : option Config)
  (ingressAPIVersion : string) (ingressClassFilters : list string)
  (securityGroup sslPolicy loadBalancerType domain : string)
  (disableInstrumentedHttpClient : bool) (a : Adapter) (typ : string)
  (metadata : kubeItemMetadata) (host : string) (hostnames : list string) :
  NewAdapter config ingressAPIVersion ingressClassFilters securityGroup
    sslPolicy loadBalancerType domain disableInstrumentedHttpClient None
  = inr a ->
  Annotations metadata = ∅ ->
  exists ing,
    newIngress SSLPolicies json_Unmarshal a typ metadata host hostnames
    = (a, inr ing)
    /\ SecurityGroup ing = securityGroup
    /\ SSLPolicy ing = sslPolicy
    /\ LoadBalancerType ing
       = (if String.eqb loadBalancerType "application" then "application"
          else if String.eqb loadBalancerType "network" then "network"
          else "").
Proof.
  intros Hnew He. unfold NewAdapter in Hnew.
  destruct config as [config|]; [|discriminate].
  destruct (String.eqb (BaseURL config) ""); [discriminate|].
  injection Hnew as <-.
  rewrite (newIngress_without_annotations _ typ metadata host hostnames He).
  eexists. split; [reflexivity|].
  split; [reflexivity|]. split; [reflexivity|].
  cbn [LoadBalancerType ingressDefaultLoadBalancerType].
  destruct (String.eqb_spec loadBalancerType "application") as [-> | Ha];
    [reflexivity|].
  destruct (String.eqb_spec loadBalancerType "network") as [-> | Hn];
    [reflexivity|].
  unfold mapIndex at 2. unfold loadBalancerTypesAWSToIngress.
  rewrite lookup_insert_ne
    by (unfold aws.LoadBalancerTypeApplication; congruence).
  rewrite lookup_insert_ne
    by (unfold aws.LoadBalancerTypeNetwork; congruence).
  rewrite lookup_empty. reflexivity.
Qed.

(** X28.  The class filter.  Without filters every resource is listed.
    With filters an ingress is listed exactly when its class is one of
    them, where the class is the [ingressClassName] of its spec and, only
    when that is empty, the value of the deprecated class annotation: a
    class name in the spec hides the annotation.  A routegroup has the
    annotation only.  A resource without any class is listed only when the
    empty string is one of the filters. *)
Theorem class_filter (a : Adapter) :
  (forall i : ingress,
      supportedIngress a i = true <->
      ingressFilters a = []
      \/ In (if String.eqb (IngressClassName (Spec i)) ""
             then default "" (Annotations (Metadata i)
                                !! "kubernetes.io/ingress.class")
             else IngressClassName (Spec i))
            (ingressFilters a))
  /\ (forall metadata : kubeItemMetadata,
        supportedCRD a metadata = true <->
        ingressFilters a = []
        \/ In (default "" (Annotations metadata
                             !! "kubernetes.io/ingress.class"))
              (ingressFilters a)).
Proof.
  assert (Hclass : forall cls,
             supportedIngressClass a cls = true <-> In cls (ingressFilters a)).
  { intros cls. unfold supportedIngressClass. rewrite existsb_exists. split.
    - intros [v [Hin Heq]]. apply String.eqb_eq in Heq. now subst.
    - intros Hin. exists cls. split; [exact Hin | apply String.eqb_refl]. }
  split.
  - intros i. unfold supportedIngress, getIngressClassName, getAnnotationsString.
    change ingressClassAnnotation with "kubernetes.io/ingress.class".
    destruct (ingressFilters a) as [|f fs] eqn:Hf.
    + cbn. split; [now left | reflexivity].
    + cbn [length Nat.eqb].
      assert (Hne : f :: fs = [] <-> False) by easy.
      rewrite Hne.
      destruct (String.eqb (IngressClassName (Spec i)) "") eqn:Ecls;
        cbn [negb]; rewrite ?String.eqb_refl, ?Ecls, Hclass.
      * destruct (Annotations (Metadata i) !! "kubernetes.io/ingress.class");
          cbn [default from_option id]; tauto.
      * tauto.
  - intros metadata. unfold supportedCRD, getAnnotationsString.
    change ingressClassAnnotation with "kubernetes.io/ingress.class".
    destruct (ingressFilters a) as [|f fs] eqn:Hf.
    + cbn. split; [now left | reflexivity].
    + cbn [length Nat.eqb].
      assert (Hne : f :: fs = [] <-> False) by easy.
      rewrite Hne, Hclass.
      destruct (Annotations metadata !! "kubernetes.io/ingress.class");
        cbn [default from_option id]; tauto.
Qed.

End RecordProperties.

(** A controller made with the default type [network] and an ingress
    without annotations. *)
Lemma default_type_of_new_adapter_witness :
  exists ing,
    kubernetes.newIngress fixtures.sslPolicies fixtures.unmarshal
      fixtures.nlbAdapter kubernetes.TypeIngress (fixtures.metadata ∅) ""
      ["foo.bar.org"]
    = (fixtures.nlbAdapter, inr ing)
    /\ kubernetes.SecurityGroup ing = "sg-default"
    /\ kubernetes.SSLPolicy ing = "ELBSecurityPolicy-2016-08"
    /\ kubernetes.LoadBalancerType ing = "network".
Proof.
  apply (default_type_of_new_adapter fixtures.sslPolicies fixtures.unmarshal
           (Some (kubernetes.mkConfig "https://kubernetes.default.svc"))
           "networking.k8s.io/v1" [] "sg-default" "ELBSecurityPolicy-2016-08"
           "network" "" true fixtures.nlbAdapter kubernetes.TypeIngress
           (fixtures.metadata ∅) "" ["foo.bar.org"]).
  - vm_compute. reflexivity.
  - reflexivity.
Defined.

(** An ingress without annotations under a controller whose default type
    is NLB. *)
Lemma LoadBalancerType_of_record_witness :
  exists ing,
    (kubernetes.newIngress fixtures.sslPolicies fixtures.unmarshal
       fixtures.nlbAdapter kubernetes.TypeIngress (fixtures.metadata ∅) ""
       ["foo.bar.org"]).2 = inr ing
    /\ (kubernetes.LoadBalancerType ing = "application"
        \/ kubernetes.LoadBalancerType ing = "network"
        \/ (kubernetes.LoadBalancerType ing = ""
            /\ kubernetes.ingressDefaultLoadBalancerType fixtures.nlbAdapter
               <> "alb"
            /\ kubernetes.ingressDefaultLoadBalancerType fixtures.nlbAdapter
               <> "nlb")).
Proof.
  eexists. split; [vm_compute; reflexivity|].
  apply (LoadBalancerType_of_record fixtures.sslPolicies fixtures.unmarshal
           fixtures.nlbAdapter kubernetes.TypeIngress (fixtures.metadata ∅) ""
           ["foo.bar.org"]).
  vm_compute. reflexivity.
Defined.


(** Scheme [internal] under a controller whose default type is NLB. *)
Lemma internal_scheme_is_alb_witness :
  exists ing,
    kubernetes.newIngress fixtures.sslPolicies fixtures.unmarshal
      fixtures.nlbAdapter kubernetes.TypeIngress
      (fixtures.metadata fixtures.internalScheme) "" ["foo.bar.org"]
    = (fixtures.nlbAdapter, inr ing)
    /\ kubernetes.LoadBalancerType ing = "application"
    /\ kubernetes.Scheme ing = "internal".
Proof.
  apply (internal_scheme_is_alb fixtures.sslPolicies fixtures.unmarshal
           fixtures.nlbAdapter kubernetes.TypeIngress
           (fixtures.metadata fixtures.internalScheme) "" ["foo.bar.org"]
           ltac:(vm_compute; reflexivity) ltac:(vm_compute; reflexivity)).
Defined.

(** Type [nlb] with one TCP listener: the record holds the listener with
    the namespace of the ingress, the adapter one more CNI endpoint. *)
Lemma extra_listeners_of_record_witness :
  exists a' ing,
    kubernetes.newIngress fixtures.sslPolicies fixtures.unmarshalListeners
      fixtures.nlbAdapter kubernetes.TypeIngress
      (fixtures.metadata fixtures.nlbWithListeners) "" ["foo.bar.org"]
    = (a', inr ing)
    /\ exists listeners,
         fixtures.unmarshalListeners fixtures.listenersJSON = inr listeners
         /\ kubernetes.ExtraListeners ing
            = List.map (fun l => aws.mkExtraListener
                                   (aws.ListenProtocol l) (aws.ListenPort l)
                                   (aws.TargetPort l) (aws.PodLabel l)
                                   "default") listeners
         /\ Forall (fun l => aws.ListenProtocol l = "TCP"
                             \/ aws.ListenProtocol l = "UDP"
                             \/ aws.ListenProtocol l = "TCP_UDP") listeners
         /\ kubernetes.extraCNIEndpoints a'
            = kubernetes.extraCNIEndpoints fixtures.nlbAdapter
                ++ List.map (fun l => aws.mkCNIEndpoint "default" (aws.PodLabel l))
                            listeners.
Proof.
  eexists. eexists. split; [vm_compute; reflexivity|].
  apply (extra_listeners_of_record fixtures.sslPolicies
           fixtures.unmarshalListeners
           fixtures.nlbAdapter _ kubernetes.TypeIngress
           (fixtures.metadata fixtures.nlbWithListeners) "" ["foo.bar.org"]).
  vm_compute. reflexivity.
Defined.

(** Type [nlb], a security group and one TCP listener: refused, with one
    more CNI endpoint in the adapter. *)
Lemma refused_ingress_leaves_endpoints_witness :
  kubernetes.newIngress fixtures.sslPolicies fixtures.unmarshalListeners
    fixtures.nlbAdapter kubernetes.TypeIngress
    (fixtures.metadata fixtures.nlbWithListenersAndSG) "" ["foo.bar.org"]
  = (kubernetes.set_extraCNIEndpoints
       (kubernetes.extraCNIEndpoints fixtures.nlbAdapter
          ++ List.map (fun l => aws.mkCNIEndpoint
                                  (kubernetes.md_Namespace
                                     (fixtures.metadata
                                        fixtures.nlbWithListenersAndSG))
                                  (aws.PodLabel l)) [fixtures.tcpListener])
       fixtures.nlbAdapter,
     inl (errorsNew
       "security group or WAF are not supported by NLB (configured by annotation)")).
Proof.
  apply (refused_ingress_leaves_endpoints fixtures.sslPolicies
           fixtures.unmarshalListeners fixtures.nlbAdapter kubernetes.TypeIngress
           (fixtures.metadata fixtures.nlbWithListenersAndSG) "" ["foo.bar.org"]
           fixtures.listenersJSON [fixtures.tcpListener]).
  - vm_compute. reflexivity.
  - left. vm_compute. eauto.
  - vm_compute. reflexivity.
  - vm_compute. reflexivity.
  - constructor; [left; reflexivity | constructor].
Defined.

(** An ingress without annotations under a controller whose default type
    is NLB. *)
Lemma record_without_annotations_witness :
  kubernetes.newIngress fixtures.sslPolicies fixtures.unmarshal
    fixtures.nlbAdapter kubernetes.TypeIngress (fixtures.metadata ∅) ""
    ["foo.bar.org"]
  = (fixtures.nlbAdapter,
     inr (kubernetes.mkIngress kubernetes.TypeIngress "default" "myingress" true
            true false "" "" [] "internet-facing" "sg-default"
            "ELBSecurityPolicy-2016-08" "ipv4" "network" "" ["foo.bar.org"])).
Proof.
  exact (record_without_annotations fixtures.sslPolicies fixtures.unmarshal
           fixtures.nlbAdapter kubernetes.TypeIngress (fixtures.metadata ∅) ""
           ["foo.bar.org"] eq_refl).
Defined.

(** ** Listings *)

Section ListingProperties.

Import kubernetes.

Variable SSLPolicies : gmap string bool.
Variable json_Unmarshal : string -> error + list aws.ExtraListener.

Lemma newIngressFromRouteGroup_result (eps : list aws.CNIEndpoint) (a : Adapter)
  (rg : routegroup) :
  (newIngressFromRouteGroup SSLPolicies json_Unmarshal
     (set_extraCNIEndpoints eps a) rg).2
  = (newIngressFromRouteGroup SSLPolicies json_Unmarshal a rg).2.
Proof.
  unfold newIngressFromRouteGroup.
  change (externalHost (set_extraCNIEndpoints eps a)) with (externalHost a).
  apply newIngress_result.
Qed.

Lemma collectIngress_records (items : list ingress) :
  forall (a : Adapter) (ret : list Ingress),
    (collectIngress SSLPolicies json_Unmarshal a items ret).2
    = ret ++ omap (normalisedIngress SSLPolicies json_Unmarshal a) items.
Proof.
  induction items as [|x rest IH]; intros a ret; simpl.
  - now rewrite app_nil_r.
  - unfold normalisedIngress at 1.
    destruct (supportedIngress a x); cbn [negb]; [|apply IH].
    destruct (newIngressFromKube_adapter SSLPolicies json_Unmarshal a x)
      as [e He].
    destruct (newIngressFromKube SSLPolicies json_Unmarshal a x) as [a' r].
    simpl in He. subst a'. cbn [snd].
    destruct r as [err|ing].
    + rewrite collectIngress_result. apply IH.
    + rewrite collectIngress_result, IH, <- app_assoc. reflexivity.
Qed.

Lemma collectRoutegroups_result (eps : list aws.CNIEndpoint) (a : Adapter)
  (items : list routegroup) (ret : list Ingress) :
  (collectRoutegroups SSLPolicies json_Unmarshal (set_extraCNIEndpoints eps a)
                      items ret).2
  = (collectRoutegroups SSLPolicies json_Unmarshal a items ret).2.
Proof.
  revert eps a ret. induction items as [|x rest IH]; intros eps a ret; simpl.
  - reflexivity.
  - change (supportedCRD (set_extraCNIEndpoints eps a) (rg_Metadata x))
      with (supportedCRD a (rg_Metadata x)).
    destruct (negb (supportedCRD a (rg_Metadata x))); [apply IH|].
    pose proof (newIngressFromRouteGroup_result eps a x) as HR.
    destruct (newIngressFromRouteGroup_adapter SSLPolicies json_Unmarshal a x)
      as [e2 H2].
    destruct (newIngressFromRouteGroup_adapter SSLPolicies json_Unmarshal
                (set_extraCNIEndpoints eps a) x) as [e1 H1].
    destruct (newIngressFromRouteGroup SSLPolicies json_Unmarshal a x)
      as [a2 r2].
    destruct (newIngressFromRouteGroup SSLPolicies json_Unmarshal
                (set_extraCNIEndpoints eps a) x) as [a1 r1].
    simpl in HR, H1, H2. subst a1 a2 r1.
    rewrite set_extraCNIEndpoints_twice.
    destruct r2 as [err|ing]; now rewrite !IH.
Qed.

Lemma collectRoutegroups_records (items : list routegroup) :
  forall (a : Adapter) (ret : list Ingress),
    (collectRoutegroups SSLPolicies json_Unmarshal a items ret).2
    = ret ++ omap (normalisedRoutegroup SSLPolicies json_Unmarshal a) items.
Proof.
  induction items as [|x rest IH]; intros a ret; simpl.
  - now rewrite app_nil_r.
  - unfold normalisedRoutegroup at 1.
    destruct (supportedCRD a (rg_Metadata x)); cbn [negb]; [|apply IH].
    destruct (newIngressFromRouteGroup_adapter SSLPolicies json_Unmarshal a x)
      as [e He].
    destruct (newIngressFromRouteGroup SSLPolicies json_Unmarshal a x)
      as [a' r].
    simpl in He. subst a'. cbn [snd].
    destruct r as [err|ing].
    + rewrite collectRoutegroups_result. apply IH.
    + rewrite collectRoutegroups_result, IH, <- app_assoc. reflexivity.
Qed.

Lemma normalisedRoutegroup_frame (eps : list aws.CNIEndpoint) (a : Adapter)
  (items : list routegroup) :
  omap (normalisedRoutegroup SSLPolicies json_Unmarshal
          (set_extraCNIEndpoints eps a)) items
  = omap (normalisedRoutegroup SSLPolicies json_Unmarshal a) items.
Proof.
  induction items as [|rg rest IH]; [reflexivity|].
  cbn [omap list_omap]. rewrite IH.
  unfold normalisedRoutegroup at 1 3.
  change (supportedCRD (set_extraCNIEndpoints eps a) (rg_Metadata rg))
    with (supportedCRD a (rg_Metadata rg)).
  now rewrite newIngressFromRouteGroup_result.
Qed.

Lemma ListIngress_result (a : Adapter) (w : list Call)
  (reply : getReply ingressList) :
  (ListIngress SSLPolicies json_Unmarshal a w reply).2
  = match reply with
    | Body (inr il) =>
        inr (omap (normalisedIngress SSLPolicies json_Unmarshal a) (Items il))
    | Body (inl err) | ReadError err => inl err
    | GetError err => inl (ErrorfW "failed to get ingress list: %w" [] err)
    end.
Proof.
  unfold ListIngress, listIngress.
  destruct reply as [err|err|[err|il]]; try reflexivity.
  pose proof (collectIngress_records (Items il) a []) as H.
  destruct (collectIngress SSLPolicies json_Unmarshal a (Items il) [])
    as [a' ret].
  simpl in *. now rewrite H.
Qed.

(** X7.  [ListIngress] returns, in the order of the listing, the records of
    the items that pass the class filter and whose normalisation succeeds;
    the others leave no trace, and what the adapter has accumulated
    before does not matter.  A failed GET comes back wrapped, a failed
    read or decoding as it is. *)
Theorem ListIngress_records (a : Adapter) (w : list Call)
  (reply : getReply ingressList) :
  (ListIngress SSLPolicies json_Unmarshal a w reply).2
  = match reply with
    | Body (inr il) =>
        inr (omap (normalisedIngress SSLPolicies json_Unmarshal a) (Items il))
    | Body (inl err) | ReadError err => inl err
    | GetError err => inl (ErrorfW "failed to get ingress list: %w" [] err)
    end.
Proof. apply ListIngress_result. Qed.

(** X8.  When both listings succeed, [ListResources] returns the ingress
    records followed by the routegroup records, each group in listing
    order; with routegroup support off it returns the ingress records
    alone. *)
Theorem ListResources_records (a : Adapter) (w : list Call)
  (il : ingressList) (rgs : routegroupList) :
  (ListResources SSLPolicies json_Unmarshal a w (Body (inr il)) (inr rgs)).2
  = inr (omap (normalisedIngress SSLPolicies json_Unmarshal a) (Items il)
         ++ (if routeGroupSupport a
             then omap (normalisedRoutegroup SSLPolicies json_Unmarshal a)
                       (rg_Items rgs)
             else [])).
Proof.
  unfold ListResources.
  pose proof (ListIngress_result a w (Body (inr il))) as HI.
  destruct (ListIngress_shape SSLPolicies json_Unmarshal a w (Body (inr il)))
    as (eps & r & HS).
  rewrite HS in HI |- *. cbn [snd] in HI. subst r.
  change (routeGroupSupport (set_extraCNIEndpoints eps a))
    with (routeGroupSupport a).
  destruct (routeGroupSupport a); [|reflexivity].
  unfold ListRoutegroups, listRoutegroups.
  pose proof (collectRoutegroups_records (rg_Items rgs)
                (set_extraCNIEndpoints eps a) []) as HR.
  destruct (collectRoutegroups SSLPolicies json_Unmarshal
              (set_extraCNIEndpoints eps a) (rg_Items rgs) []) as [a' ret].
  simpl in HR. subst ret. cbn [snd].
  now rewrite normalisedRoutegroup_frame.
Qed.

(** *** The CNI endpoints accumulate *)

Lemma checkExtraListeners_frame (ns : string) (listeners : list aws.ExtraListener) :
  forall (eps : list aws.CNIEndpoint) (a : Adapter),
    (checkExtraListeners (set_extraCNIEndpoints eps a) ns listeners).1
    = set_extraCNIEndpoints
        (eps ++ extraCNIEndpoints
                  (checkExtraListeners (set_extraCNIEndpoints [] a) ns listeners).1)
        a.
Proof.
  induction listeners as [|l rest IH]; intros eps a; simpl.
  - now rewrite app_nil_r.
  - destruct (negb (String.eqb (aws.ListenProtocol l) "TCP")
              && negb (String.eqb (aws.ListenProtocol l) "UDP")
              && negb (String.eqb (aws.ListenProtocol l) "TCP_UDP")); simpl.
    + now rewrite app_nil_r.
    + rewrite !set_extraCNIEndpoints_twice.
      pose proof (IH (eps ++ [aws.mkCNIEndpoint ns (aws.PodLabel l)]) a) as H1.
      pose proof (IH [aws.mkCNIEndpoint ns (aws.PodLabel l)] a) as H2.
      destruct (checkExtraListeners
                  (set_extraCNIEndpoints
                     (eps ++ [aws.mkCNIEndpoint ns (aws.PodLabel l)]) a) ns rest)
        as [a1 r1].
      destruct (checkExtraListeners
                  (set_extraCNIEndpoints
                     [aws.mkCNIEndpoint ns (aws.PodLabel l)] a) ns rest)
        as [a2 r2].
      simpl in H1, H2. subst a1 a2.
      destruct r1, r2; simpl; now rewrite <- app_assoc.
Qed.

Lemma parseExtraListeners_frame (eps : list aws.CNIEndpoint) (a : Adapter)
  (metadata : kubeItemMetadata) (loadBalancerType : string) :
  (parseExtraListeners json_Unmarshal (set_extraCNIEndpoints eps a) metadata
                       loadBalancerType).1
  = set_extraCNIEndpoints
      (eps ++ extraCNIEndpoints
                (parseExtraListeners json_Unmarshal (set_extraCNIEndpoints [] a)
                                     metadata loadBalancerType).1)
      a.
Proof.
  unfold parseExtraListeners.
  destruct (Annotations metadata !! ingressNLBExtraListenersAnnotation);
    [|simpl; now rewrite app_nil_r].
  destruct (negb _); [simpl; now rewrite app_nil_r|].
  destruct (json_Unmarshal _); [simpl; now rewrite app_nil_r|].
  apply checkExtraListeners_frame.
Qed.

Lemma newIngress_adapter_is_parsed (a : Adapter) (typ : string)
  (metadata : kubeItemMetadata) (host : string) (hostnames : list string) :
  exists loadBalancerType,
    forall eps,
      (newIngress SSLPolicies json_Unmarshal (set_extraCNIEndpoints eps a)
                  typ metadata host hostnames).1
      = (parseExtraListeners json_Unmarshal (set_extraCNIEndpoints eps a)
                             metadata loadBalancerType).1.
Proof.
  exists (match Annotations metadata !! ingressLoadBalancerTypeAnnotation with
          | Some v => v
          | None =>
              if String.eqb
                   (if String.eqb
                         (getAnnotationsString (Annotations metadata)
                                               ingressSchemeAnnotation "")
                         elbv2.LoadBalancerSchemeEnumInternal
                    then elbv2.LoadBalancerSchemeEnumInternal
                    else elbv2.LoadBalancerSchemeEnumInternetFacing)
                   elbv2.LoadBalancerSchemeEnumInternal
              then loadBalancerTypeALB
              else ingressDefaultLoadBalancerType a
          end).
  intros eps. unfold newIngress.
  change (ingressDefaultLoadBalancerType (set_extraCNIEndpoints eps a))
    with (ingressDefaultLoadBalancerType a).
  destruct (parseExtraListeners json_Unmarshal (set_extraCNIEndpoints eps a)
                                metadata _) as [a' [err|ls]]; [reflexivity|].
  match goal with |- context [if ?c then _ else _] => destruct c end.
  - match goal with |- context [if ?c then _ else _] => destruct c end;
      reflexivity.
  - reflexivity.
Qed.

Lemma newIngress_frame (eps : list aws.CNIEndpoint) (a : Adapter) (typ : string)
  (metadata : kubeItemMetadata) (host : string) (hostnames : list string) :
  (newIngress SSLPolicies json_Unmarshal (set_extraCNIEndpoints eps a)
              typ metadata host hostnames).1
  = set_extraCNIEndpoints
      (eps ++ extraCNIEndpoints
                (newIngress SSLPolicies json_Unmarshal
                            (set_extraCNIEndpoints [] a)
                            typ metadata host hostnames).1)
      a.
Proof.
  destruct (newIngress_adapter_is_parsed a typ metadata host hostnames)
    as [t Ht].
  rewrite (Ht eps), (Ht []). apply parseExtraListeners_frame.
Qed.

Lemma collectIngress_frame (items : list ingress) :
  forall (eps : list aws.CNIEndpoint) (a : Adapter) (ret : list Ingress),
    (collectIngress SSLPolicies json_Unmarshal (set_extraCNIEndpoints eps a)
                    items ret).1
    = set_extraCNIEndpoints
        (eps ++ extraCNIEndpoints
                  (collectIngress SSLPolicies json_Unmarshal
                                  (set_extraCNIEndpoints [] a) items ret).1)
        a.
Proof.
  induction items as [|x rest IH]; intros eps a ret; simpl.
  - now rewrite app_nil_r.
  - change (supportedIngress (set_extraCNIEndpoints eps a) x)
      with (supportedIngress a x).
    change (supportedIngress (set_extraCNIEndpoints [] a) x)
      with (supportedIngress a x).
    destruct (negb (supportedIngress a x)); [apply IH|].
    pose proof (newIngressFromKube_result SSLPolicies json_Unmarshal eps a x)
      as HR1.
    pose proof (newIngressFromKube_result SSLPolicies json_Unmarshal [] a x)
      as HR2.
    unfold newIngressFromKube in *.
    change (externalHost (set_extraCNIEndpoints eps a))
      with (externalHost a) in *.
    change (externalHost (set_extraCNIEndpoints [] a))
      with (externalHost a) in *.
    pose proof (newIngress_frame eps a TypeIngress (Metadata x)
                  (firstHostname (lb_Ingress (LoadBalancer (Status x))))
                  (List.filter (externalHost a) (List.map Host (Rules (Spec x)))))
      as HF1.
    destruct (newIngress_adapter SSLPolicies json_Unmarshal
                (set_extraCNIEndpoints [] a) TypeIngress (Metadata x)
                (firstHostname (lb_Ingress (LoadBalancer (Status x))))
                (List.filter (externalHost a) (List.map Host (Rules (Spec x)))))
      as [d Hd].
    destruct (newIngress SSLPolicies json_Unmarshal (set_extraCNIEndpoints eps a)
                TypeIngress (Metadata x) _ _) as [a1 r1].
    destruct (newIngress SSLPolicies json_Unmarshal (set_extraCNIEndpoints [] a)
                TypeIngress (Metadata x) _ _) as [a2 r2].
    simpl in HR1, HR2, HF1, Hd. subst a2.
    rewrite set_extraCNIEndpoints_twice in HF1 |- *.
    cbn [extraCNIEndpoints set_extraCNIEndpoints] in HF1. subst a1.
    rewrite HR1, <- HR2.
    destruct r2 as [err|ing]; rewrite IH, (IH d), <- app_assoc; reflexivity.
Qed.

(** X9.  The CNI endpoints of the adapter are never cleared: a listing
    keeps the ones it finds and appends its own, and the same listing made
    again appends the same endpoints once more. *)
Theorem ListIngress_accumulates_endpoints (a : Adapter) (w w' : list Call)
  (reply : getReply ingressList) :
  let a1 := (ListIngress SSLPolicies json_Unmarshal a w reply).1.1 in
  let a2 := (ListIngress SSLPolicies json_Unmarshal a1 w' reply).1.1 in
  exists new,
    extraCNIEndpoints a1 = extraCNIEndpoints a ++ new
    /\ extraCNIEndpoints a2 = extraCNIEndpoints a ++ new ++ new.
Proof.
  intros a1 a2. subst a1 a2. unfold ListIngress, listIngress.
  destruct reply as [err|err|[err|il]];
    try (exists []; cbn; now rewrite !app_nil_r).
  cbn [fst snd].
  exists (extraCNIEndpoints
            (collectIngress SSLPolicies json_Unmarshal
                            (set_extraCNIEndpoints [] a) (Items il) []).1).
  pose proof (collectIngress_frame (Items il) (extraCNIEndpoints a) a []) as H1.
  rewrite set_extraCNIEndpoints_same in H1.
  destruct (collectIngress SSLPolicies json_Unmarshal a (Items il) [])
    as [a1 r1].
  cbn [fst snd] in *. subst a1.
  split; [reflexivity|].
  pose proof (collectIngress_frame (Items il)
                (extraCNIEndpoints a
                   ++ extraCNIEndpoints
                        (collectIngress SSLPolicies json_Unmarshal
                           (set_extraCNIEndpoints [] a) (Items il) []).1)
                a []) as H2.
  destruct (collectIngress SSLPolicies json_Unmarshal
              (set_extraCNIEndpoints _ a) (Items il) []) as [a2 r2].
  cbn [fst snd] in *. subst a2. cbn. now rewrite <- app_assoc.
Qed.

(** X10.  Starting with routegroup support on, [ListResources] turns it off
    in one case only: the ingress listing succeeded and the routegroup
    listing failed with resource-not-found or permission-denied.  Any
    other failure of the routegroup listing is returned as the error of
    the call, and when the ingress listing fails the routegroups are not
    listed at all. *)
Theorem routeGroupSupport_cleared_only_by_sentinels (a : Adapter)
  (w : list Call) (ingressReply : getReply ingressList)
  (routegroupReply : error + routegroupList) :
  routeGroupSupport a = true ->
  let listed := ListIngress SSLPolicies json_Unmarshal a w ingressReply in
  let r := ListResources SSLPolicies json_Unmarshal a w ingressReply
                         routegroupReply in
  (routeGroupSupport r.1.1 = false <->
     (exists ings, listed.2 = inr ings)
     /\ exists err, routegroupReply = inl err
                    /\ (errors_Is err ErrResourceNotFound = true
                        \/ errors_Is err ErrNoPermissionToAccessResource = true))
  /\ (forall ings err,
        listed.2 = inr ings -> routegroupReply = inl err ->
        errors_Is err ErrResourceNotFound = false ->
        errors_Is err ErrNoPermissionToAccessResource = false ->
        r.2 = inl err)
  /\ (forall err, listed.2 = inl err -> r = listed).
Proof.
  intros Hon listed r. subst listed r. unfold ListResources.
  destruct (ListIngress_shape SSLPolicies json_Unmarshal a w ingressReply)
    as (eps & r0 & ->).
  cbn [fst snd].
  change (routeGroupSupport (set_extraCNIEndpoints eps a))
    with (routeGroupSupport a).
  rewrite Hon. unfold ListRoutegroups, listRoutegroups.
  destruct r0 as [e0|ings].
  - cbn [fst snd].
    change (routeGroupSupport (set_extraCNIEndpoints eps a))
      with (routeGroupSupport a).
    split; [|split].
    + split; [congruence|]. intros [[ings H] _]. discriminate.
    + intros ? ? H. discriminate.
    + reflexivity.
  - destruct routegroupReply as [err|rgs].
    + destruct (errors_Is err ErrResourceNotFound) eqn:E1;
        [|destruct (errors_Is err ErrNoPermissionToAccessResource) eqn:E2];
        cbn [orb fst snd];
        change (routeGroupSupport (set_extraCNIEndpoints eps a))
          with (routeGroupSupport a).
      * split; [|split].
        -- split; [|reflexivity]. intros _. split; [eauto|].
           exists err. auto.
        -- intros ? ? _ H. injection H as <-. congruence.
        -- intros ? H. discriminate.
      * split; [|split].
        -- split; [|reflexivity]. intros _. split; [eauto|].
           exists err. auto.
        -- intros ? ? _ H. injection H as <-. congruence.
        -- intros ? H. discriminate.
      * split; [|split].
        -- split; [congruence|].
           intros [_ (err' & H & [H1|H1])]; injection H as <-; congruence.
        -- intros ? ? _ H. injection H as <-. reflexivity.
        -- intros ? H. discriminate.
    + destruct (collectRoutegroups_adapter SSLPolicies json_Unmarshal
                  (set_extraCNIEndpoints eps a) (rg_Items rgs) []) as [e He].
      destruct (collectRoutegroups SSLPolicies json_Unmarshal
                  (set_extraCNIEndpoints eps a) (rg_Items rgs) []) as [a' ret].
      simpl in He. subst a'. cbn [fst snd].
      change (routeGroupSupport
                (set_extraCNIEndpoints e (set_extraCNIEndpoints eps a)))
        with (routeGroupSupport a).
      split; [|split].
      * split; [congruence|]. intros [_ (err & H & _)]. discriminate.
      * intros ? ? _ H. discriminate.
      * intros ? H. discriminate.
Qed.

End ListingProperties.

(** A cluster without the routegroup resource: the ingress listing
    succeeds, the routegroup listing is refused. *)
Lemma routeGroupSupport_cleared_only_by_sentinels_witness :
  kubernetes.routeGroupSupport
    (kubernetes.ListResources fixtures.sslPolicies fixtures.unmarshal
       fixtures.nlbAdapter []
       (kubernetes.Body (inr fixtures.emptyIngressList))
       (inl fixtures.permissionDenied)).1.1 = false.
Proof.
  apply (proj1 (routeGroupSupport_cleared_only_by_sentinels
                  fixtures.sslPolicies fixtures.unmarshal fixtures.nlbAdapter []
                  (kubernetes.Body (inr fixtures.emptyIngressList))
                  (inl fixtures.permissionDenied) eq_refl)).
  split.
  - eexists. vm_compute. reflexivity.
  - exists fixtures.permissionDenied.
    split; [reflexivity | right; reflexivity].
Defined.

(** ** Status write-back: what is sent *)

(** X11.  [UpdateIngressLoadBalancer] sends nothing or exactly one status
    PATCH.  It returns nil only after a PATCH that succeeded, and the PATCH
    writes one hostname: the given DNS name, or the empty hostname when the
    DNS name is the cluster-local sentinel. *)
Theorem UpdateIngressLoadBalancer_calls (a : kubernetes.Adapter)
  (w : list kubernetes.Call) (ingress : option kubernetes.Ingress)
  (dns : string) (reply : option error) :
  let r := kubernetes.UpdateIngressLoadBalancer a w ingress dns reply in
  (r.1 = w /\ r.2 <> None)
  \/ (exists c, r.1 = w ++ [c]
                /\ kubernetes.isPatch c = true
                /\ patchedHostnames c = [clusterLocalToEmpty dns]
                /\ (r.2 = None <-> reply = None)).
Proof.
  intros r. subst r. unfold kubernetes.UpdateIngressLoadBalancer.
  destruct ingress as [ing|]; [|left; split; [reflexivity|discriminate]].
  destruct (String.eqb dns ""); [left; split; [reflexivity|discriminate]|].
  fold (clusterLocalToEmpty dns).
  destruct (String.eqb (kubernetes.Hostname ing) (clusterLocalToEmpty dns));
    [left; split; [reflexivity|discriminate]|].
  destruct (String.eqb (kubernetes.ResourceType ing) kubernetes.TypeRouteGroup).
  - right. eexists. split; [reflexivity|].
    split; [reflexivity|]. split; [reflexivity|]. reflexivity.
  - destruct (String.eqb (kubernetes.ResourceType ing) kubernetes.TypeIngress).
    + right. eexists. split; [reflexivity|].
      split; [reflexivity|]. split; [reflexivity|].
      cbn. destruct reply; split; congruence.
    + left. split; [reflexivity|discriminate].
Qed.

(** ** Tags and maps *)

Lemma convertCloudFormationTags_snoc (l : list cloudformation.Tag)
  (t : cloudformation.Tag) :
  aws.convertCloudFormationTags (l ++ [t])
  = <[StringValue (cloudformation.Key t) := StringValue (cloudformation.Value t)]>
      (aws.convertCloudFormationTags l).
Proof. unfold aws.convertCloudFormationTags. now rewrite foldl_app. Qed.

Lemma convertCloudFormationTags_None (l : list cloudformation.Tag) (k : string) :
  aws.convertCloudFormationTags l !! k = None <->
  forall t, In t l -> StringValue (cloudformation.Key t) <> k.
Proof.
  induction l as [|t l IH] using rev_ind.
  - split; [intros _ t []|reflexivity].
  - rewrite convertCloudFormationTags_snoc, lookup_insert_None, IH. split.
    + intros [H Hne] t' Hin. apply in_app_or in Hin as [Hin|[<-|[]]]; auto.
    + intros H. split.
      * intros t' Hin. apply H, in_or_app. now left.
      * apply H, in_or_app. right. now left.
Qed.

Lemma convertCloudFormationTags_app_other (l1 l2 : list cloudformation.Tag)
  (k : string) :
  (forall t, In t l2 -> StringValue (cloudformation.Key t) <> k) ->
  aws.convertCloudFormationTags (l1 ++ l2) !! k
  = aws.convertCloudFormationTags l1 !! k.
Proof.
  induction l2 as [|t l2 IH] using rev_ind; intros H.
  - now rewrite app_nil_r.
  - rewrite app_assoc, convertCloudFormationTags_snoc, lookup_insert_ne.
    + apply IH. intros t' Hin. apply H, in_or_app. now left.
    + apply H, in_or_app. right. now left.
Qed.

(** X12.  In the map made from a tag list the last tag with a key wins, and
    a key is absent exactly when no tag carries it (a tag without key
    counts as a tag with the empty key). *)
Theorem convertCloudFormationTags_last_wins (l : list cloudformation.Tag) :
  (forall k,
      aws.convertCloudFormationTags l !! k = None <->
      forall t, In t l -> StringValue (cloudformation.Key t) <> k)
  /\ (forall l1 t l2,
        l = l1 ++ t :: l2 ->
        (forall t', In t' l2 ->
                    StringValue (cloudformation.Key t')
                    <> StringValue (cloudformation.Key t)) ->
        aws.convertCloudFormationTags l !! StringValue (cloudformation.Key t)
        = Some (StringValue (cloudformation.Value t))).
Proof.
  split; [intros k; apply convertCloudFormationTags_None|].
  intros l1 t l2 -> Hlater.
  change (l1 ++ t :: l2) with (l1 ++ [t] ++ l2).
  rewrite app_assoc, convertCloudFormationTags_app_other by exact Hlater.
  rewrite convertCloudFormationTags_snoc. apply lookup_insert_eq.
Qed.

(** The key [team] is given twice: the later value is kept. *)
Lemma convertCloudFormationTags_last_wins_witness :
  aws.convertCloudFormationTags fixtures.repeatedTags !! "team" = Some "b".
Proof.
  apply (proj2 (convertCloudFormationTags_last_wins fixtures.repeatedTags)
           [cloudformation.mkTag (Some "team") (Some "a");
            cloudformation.mkTag (Some "env") (Some "test")]
           (cloudformation.mkTag (Some "team") (Some "b")) []).
  - reflexivity.
  - intros t' [].
Defined.

Lemma convertCloudFormationTags_NoDup (l : list cloudformation.Tag)
  (k v : string) :
  NoDup (List.map (fun t => StringValue (cloudformation.Key t)) l) ->
  aws.convertCloudFormationTags l !! k = Some v <->
  exists t, In t l /\ StringValue (cloudformation.Key t) = k
            /\ StringValue (cloudformation.Value t) = v.
Proof.
  induction l as [|t l IH] using rev_ind; intros Hnd.
  - split; [discriminate | intros (t & [] & _)].
  - rewrite List.map_app in Hnd. apply NoDup_app in Hnd as (Hnd & Hdis & _).
    rewrite convertCloudFormationTags_snoc, lookup_insert_Some, (IH Hnd).
    split.
    + intros [[<- <-]|[Hne (t' & Hin & Hk & Hv)]].
      * exists t. split; [apply in_or_app; right; now left|auto].
      * exists t'. split; [apply in_or_app; now left|auto].
    + intros (t' & Hin & Hk & Hv).
      apply in_app_or in Hin as [Hin|[<-|[]]]; [right|left; auto].
      split; [|eauto].
      intros Heq. apply (Hdis (StringValue (cloudformation.Key t'))).
      * apply list_elem_of_In, in_map_iff. eauto.
      * rewrite Hk, <- Heq. simpl. left.
Qed.

Lemma convertCloudFormationTags_of_map (tags : gmap string string)
  (cfTags : list cloudformation.Tag) :
  Permutation cfTags (aws.tagMapToCloudformationTags tags) ->
  aws.convertCloudFormationTags cfTags = tags.
Proof.
  intros Hperm. apply map_eq. intros k. apply option_eq. intros v.
  assert (Hnd : NoDup (List.map (fun t => StringValue (cloudformation.Key t))
                                cfTags)).
  { rewrite (Permutation_map
               (fun t => StringValue (cloudformation.Key t)) Hperm).
    unfold aws.tagMapToCloudformationTags. rewrite List.map_map. simpl.
    apply (NoDup_fst_map_to_list tags). }
  rewrite (convertCloudFormationTags_NoDup _ _ _ Hnd). split.
  - intros (t & Hin & <- & <-).
    eapply Permutation_in in Hin; [|exact Hperm].
    unfold aws.tagMapToCloudformationTags in Hin.
    apply in_map_iff in Hin as ([k' v'] & <- & Hin). simpl.
    now apply list_elem_of_In, elem_of_map_to_list in Hin.
  - intros Hl. exists (cloudformation.mkTag (Some k) (Some v)).
    split; [|auto].
    eapply Permutation_in; [symmetry; exact Hperm|].
    unfold aws.tagMapToCloudformationTags. apply in_map_iff.
    exists (k, v). split; [reflexivity|].
    now apply list_elem_of_In, elem_of_map_to_list.
Qed.

(** X13.  Turning a tag map into CloudFormation tags and back gives the map
    again, in whatever order the map was visited. *)
Theorem tags_round_trip (tags : gmap string string)
  (cfTags : list cloudformation.Tag) :
  Permutation cfTags (aws.tagMapToCloudformationTags tags) ->
  aws.convertCloudFormationTags cfTags = tags.
Proof. apply convertCloudFormationTags_of_map. Qed.

Lemma foldl_insert_pairs (kvs : list (string * string)) :
  NoDup kvs.*1 ->
  forall acc : gmap string string,
    foldl (fun m kv => <[kv.1 := kv.2]> m) acc kvs
    = (list_to_map kvs : gmap string string) ∪ acc.
Proof.
  induction kvs as [|[k v] rest IH]; intros Hnd acc.
  - simpl. now rewrite (left_id ∅ (∪)).
  - rewrite fmap_cons in Hnd. apply NoDup_cons in Hnd as [Hk Hnd].
    cbn [foldl fst snd]. rewrite (IH Hnd), list_to_map_cons, <- insert_union_l.
    symmetry. apply insert_union_r. now apply not_elem_of_list_to_map_1.
Qed.

(** The tags of a two-key map, in either order. *)
Lemma tags_round_trip_witness :
  aws.convertCloudFormationTags
    [cloudformation.mkTag (Some "env") (Some "test");
     cloudformation.mkTag (Some "team") (Some "a")]
  = <["team" := "a"]> (<["env" := "test"]> ∅).
Proof.
  apply (tags_round_trip (<["team" := "a"]> (<["env" := "test"]> ∅))).
  vm_compute. first [apply Permutation_refl | apply perm_swap].
Defined.

Lemma mergeTags_snoc (tags : list (gmap string string))
  (last : gmap string string) :
  aws.mergeTags (tags ++ [last]) = last ∪ aws.mergeTags tags.
Proof.
  unfold aws.mergeTags. rewrite foldl_app. simpl.
  rewrite foldl_insert_pairs by apply NoDup_fst_map_to_list.
  now rewrite list_to_map_to_list.
Qed.

Lemma mergeTags_two (first second : gmap string string) :
  aws.mergeTags [first; second] = second ∪ first.
Proof.
  change [first; second] with ([first] ++ [second]).
  rewrite mergeTags_snoc. change [first] with ([] ++ [first]).
  rewrite mergeTags_snoc.
  change (aws.mergeTags []) with (∅ : gmap string string).
  now rewrite (right_id ∅ (∪)).
Qed.

(** X14.  [mergeTags] lets a later map win over an earlier one: merging
    one more map is the union that prefers it. *)
Theorem mergeTags_later_wins :
  aws.mergeTags [] = ∅
  /\ (forall (tags : list (gmap string string)) (last : gmap string string),
        aws.mergeTags (tags ++ [last]) = last ∪ aws.mergeTags tags)
  /\ (forall (first second : gmap string string) (k : string),
        aws.mergeTags [first; second] !! k
        = match second !! k with
          | Some v => Some v
          | None => first !! k
          end).
Proof.
  split; [reflexivity|]. split; [exact mergeTags_snoc|].
  intros first second k. rewrite mergeTags_two, lookup_union.
  destruct (second !! k), (first !! k); reflexivity.
Qed.

Lemma targetGroupARNs_fold (kvs : list (string * string)) (acc : list string) :
  foldl (fun arns kv => if aws.Contains kv.1 "TargetGroupARN"
                        then arns ++ [kv.2] else arns) acc kvs
  = acc ++ List.map snd
             (List.filter (fun kv => aws.Contains kv.1 "TargetGroupARN") kvs).
Proof.
  revert acc. induction kvs as [|kv rest IH]; intros acc; simpl.
  - now rewrite app_nil_r.
  - rewrite IH. destruct (aws.Contains kv.1 "TargetGroupARN"); simpl.
    + now rewrite <- app_assoc.
    + reflexivity.
Qed.

(** X15.  The target-group ARNs of a stack are exactly the values of the
    outputs whose key contains [TargetGroupARN]: the primary one, the HTTP
    one and those of the extra listeners alike. *)
Theorem targetGroupARNs_spec (o : gmap string string) (arn : string) :
  In arn (aws.targetGroupARNs o) <->
  exists k, o !! k = Some arn /\ aws.Contains k "TargetGroupARN" = true.
Proof.
  unfold aws.targetGroupARNs. rewrite targetGroupARNs_fold. simpl.
  rewrite in_map_iff. split.
  - intros ([k v] & <- & Hin). apply filter_In in Hin as [Hin Hc].
    exists k. split; [|exact Hc].
    now apply list_elem_of_In, elem_of_map_to_list in Hin.
  - intros (k & Hl & Hc). exists (k, arn). split; [reflexivity|].
    apply filter_In. split; [|exact Hc].
    now apply list_elem_of_In, elem_of_map_to_list.
Qed.

(** ** Prefixes *)

Lemma prefix_append (pre s : string) : String.prefix pre (pre +:+ s) = true.
Proof.
  induction pre as [|c pre IH]; simpl; [now destruct s|].
  destruct (ascii_dec c c); [exact IH | contradiction].
Qed.

Lemma substring_all (s : string) : String.substring 0 (String.length s) s = s.
Proof. induction s as [|c s IH]; simpl; [reflexivity | now rewrite IH]. Qed.

Lemma TrimPrefix_append (pre s : string) : aws.TrimPrefix (pre +:+ s) pre = s.
Proof.
  unfold aws.TrimPrefix, HasPrefix. rewrite prefix_append.
  induction pre as [|c pre IH]; simpl.
  - rewrite Nat.sub_0_r. apply substring_all.
  - exact IH.
Qed.

Lemma prefix_split (pre k : string) :
  String.prefix pre k = true -> k = pre +:+ aws.TrimPrefix k pre.
Proof.
  intros H. unfold aws.TrimPrefix, HasPrefix. rewrite H.
  revert k H. induction pre as [|c pre IH]; intros k H; simpl.
  - rewrite Nat.sub_0_r. now rewrite substring_all.
  - destruct k as [|c' k]; simpl in H; [discriminate|].
    destruct (ascii_dec c c') as [<-|]; [|discriminate].
    change (String c k
            = String c (pre +:+ String.substring (String.length pre)
                              (String.length k - String.length pre) k)).
    f_equal. now apply IH.
Qed.

Lemma append_inj (pre s t : string) : pre +:+ s = pre +:+ t -> s = t.
Proof.
  induction pre as [|c pre IH]; simpl; [auto|].
  intros H. injection H as H. auto.
Qed.

(** ** Decoding a stack *)

Section DecodingProperties.

Variable time_Parse_RFC3339 : string -> error + Time.
Variable base64_DecodeString : string -> string.
Variable json_Unmarshal : string -> error + list aws.ExtraListener.

(** The certificate map after one tag. *)
Lemma scanTag_certificates (acc acc' : aws.tagScan) (key value : string) :
  aws.scanTag time_Parse_RFC3339 base64_DecodeString json_Unmarshal
      acc key value = inr acc' ->
  aws.scanCertificateARNs acc'
  = if HasPrefix key aws.certificateARNTagPrefix then
      <[aws.TrimPrefix key aws.certificateARNTagPrefix :=
          match time_Parse_RFC3339 value with
          | inr ttl => ttl
          | inl _ => zeroTime
          end]> (aws.scanCertificateARNs acc)
    else if String.eqb key aws.certificateARNTagLegacy then
      <[value := zeroTime]> (aws.scanCertificateARNs acc)
    else aws.scanCertificateARNs acc.
Proof.
  unfold aws.scanTag.
  destruct (HasPrefix key aws.certificateARNTagPrefix) eqn:Ep.
  - assert (Hl : String.eqb key aws.certificateARNTagLegacy = false).
    { apply String.eqb_neq. intros ->. vm_compute in Ep. discriminate. }
    rewrite Hl.
    destruct (String.eqb key aws.extraListenersTag);
      [destruct (json_Unmarshal _); [discriminate|]|];
      intros H; injection H as <-; reflexivity.
  - destruct (String.eqb key aws.extraListenersTag);
      [destruct (json_Unmarshal _); [discriminate|]|];
      intros H; injection H as <-; reflexivity.
Qed.

(** Every certificate in the decoded map comes from a tag. *)
Lemma scanTags_certificates_sound (kvs : list (string * string)) :
  forall (acc scan : aws.tagScan) (arn : string) (t : Time),
    aws.scanTags time_Parse_RFC3339 base64_DecodeString json_Unmarshal
      acc kvs = inr scan ->
    aws.scanCertificateARNs scan !! arn = Some t ->
    (exists value,
        In (aws.certificateARNTagPrefix +:+ arn, value) kvs
        /\ t = match time_Parse_RFC3339 value with
               | inr ttl => ttl
               | inl _ => zeroTime
               end)
    \/ (In (aws.certificateARNTagLegacy, arn) kvs /\ t = zeroTime)
    \/ aws.scanCertificateARNs acc !! arn = Some t.
Proof.
  induction kvs as [|[key value] rest IH]; intros acc scan arn t; simpl.
  - intros H. injection H as <-. auto.
  - destruct (aws.scanTag time_Parse_RFC3339 base64_DecodeString json_Unmarshal
      acc key value) as [err|acc1] eqn:E1; [discriminate|].
    intros Hrest Hl.
    destruct (IH _ _ _ _ Hrest Hl) as [(v & Hin & Ht)|[[Hin Ht]|Hacc1]].
    + left. exists v. auto.
    + right. left. auto.
    + apply scanTag_certificates in E1. rewrite E1 in Hacc1.
      destruct (HasPrefix key aws.certificateARNTagPrefix) eqn:Ep.
      * apply lookup_insert_Some in Hacc1 as [[Hk Ht]|[_ Hacc]]; [|auto].
        left. exists value. split; [|now symmetry].
        left. f_equal. rewrite <- Hk. now apply prefix_split.
      * destruct (String.eqb key aws.certificateARNTagLegacy) eqn:El; [|auto].
        apply String.eqb_eq in El. subst key.
        apply lookup_insert_Some in Hacc1 as [[Hk Ht]|[_ Hacc]]; [|auto].
        right. left. subst. auto.
Qed.

(** Every certificate tag leaves a certificate in the decoded map. *)
Lemma scanTags_certificates_complete (kvs : list (string * string)) :
  forall (acc scan : aws.tagScan) (arn : string),
    aws.scanTags time_Parse_RFC3339 base64_DecodeString json_Unmarshal
      acc kvs = inr scan ->
    (exists value, In (aws.certificateARNTagPrefix +:+ arn, value) kvs)
    \/ In (aws.certificateARNTagLegacy, arn) kvs
    \/ is_Some (aws.scanCertificateARNs acc !! arn) ->
    is_Some (aws.scanCertificateARNs scan !! arn).
Proof.
  induction kvs as [|[key value] rest IH]; intros acc scan arn; simpl.
  - intros H. injection H as <-. intros [[v []]|[[]|H]]. exact H.
  - destruct (aws.scanTag time_Parse_RFC3339 base64_DecodeString json_Unmarshal
      acc key value) as [err|acc1] eqn:E1; [discriminate|].
    intros Hrest Hsrc. apply (IH _ _ _ Hrest).
    apply scanTag_certificates in E1.
    destruct Hsrc as [(v & [Heq|Hin])|[[Heq|Hin]|Hacc]].
    + injection Heq as -> ->. right. right. rewrite E1.
      unfold HasPrefix. rewrite prefix_append, TrimPrefix_append.
      rewrite lookup_insert_eq. eauto.
    + left. eauto.
    + injection Heq as -> ->. right. right. rewrite E1.
      change (HasPrefix aws.certificateARNTagLegacy aws.certificateARNTagPrefix)
        with false.
      rewrite String.eqb_refl, lookup_insert_eq. eauto.
    + right. left. exact Hin.
    + right. right. rewrite E1.
      destruct (HasPrefix key aws.certificateARNTagPrefix).
      * rewrite lookup_insert_is_Some. destruct (decide
          (aws.TrimPrefix key aws.certificateARNTagPrefix = arn)); auto.
      * destruct (String.eqb key aws.certificateARNTagLegacy); [|exact Hacc].
        rewrite lookup_insert_is_Some.
        destruct (decide (value = arn)); auto.
Qed.

Lemma mapToManagedStack_scan (stack : cloudformation.Stack) (s : aws.Stack) :
  aws.mapToManagedStack time_Parse_RFC3339 base64_DecodeString json_Unmarshal
    stack = (s, None) ->
  exists scan,
    aws.scanTags time_Parse_RFC3339 base64_DecodeString json_Unmarshal
      (aws.mkTagScan ∅ "" [])
      (map_to_list (aws.convertCloudFormationTags (cloudformation.Tags stack)))
    = inr scan
    /\ aws.CertificateARNs s = aws.scanCertificateARNs scan
    /\ aws.OwnerIngress s = aws.scanOwnerIngress scan
    /\ aws.ExtraListeners s = aws.scanExtraListeners scan.
Proof.
  unfold aws.mapToManagedStack.
  destruct (aws.scanTags _ _ _ _ _) as [err|scan]; [discriminate|].
  intros H. injection H as <-. exists scan. auto.
Qed.

Lemma decoded_certificates (stack : cloudformation.Stack)
  (s : aws.Stack) (arn : string) :
  aws.mapToManagedStack time_Parse_RFC3339 base64_DecodeString json_Unmarshal
    stack = (s, None) ->
  let tags := aws.convertCloudFormationTags (cloudformation.Tags stack) in
  (forall value,
      tags !! ("ingress:certificate-arn/" +:+ arn) = Some value ->
      tags !! "ingress:certificate-arn" <> Some arn ->
      aws.CertificateARNs s !! arn
      = Some match time_Parse_RFC3339 value with
             | inr ttl => ttl
             | inl _ => zeroTime
             end)
  /\ (tags !! "ingress:certificate-arn" = Some arn ->
      tags !! ("ingress:certificate-arn/" +:+ arn) = None ->
      aws.CertificateARNs s !! arn = Some zeroTime)
  /\ (tags !! ("ingress:certificate-arn/" +:+ arn) = None ->
      tags !! "ingress:certificate-arn" <> Some arn ->
      aws.CertificateARNs s !! arn = None).
Proof.
  intros Hd tags.
  apply mapToManagedStack_scan in Hd as (scan & Hscan & Hc & _). fold tags in Hscan.
  rewrite Hc.
  assert (Hsound : forall t,
             aws.scanCertificateARNs scan !! arn = Some t ->
             (exists value,
                 tags !! ("ingress:certificate-arn/" +:+ arn) = Some value
                 /\ t = match time_Parse_RFC3339 value with
                        | inr ttl => ttl
                        | inl _ => zeroTime
                        end)
             \/ (tags !! "ingress:certificate-arn" = Some arn /\ t = zeroTime)).
  { intros t Ht.
    destruct (scanTags_certificates_sound _ _ _ _ _ Hscan Ht)
      as [(v & Hin & Hv)|[[Hin Hv]|Hacc]].
    - left. exists v. split; [|exact Hv].
      now apply list_elem_of_In, elem_of_map_to_list in Hin.
    - right. split; [|exact Hv].
      now apply list_elem_of_In, elem_of_map_to_list in Hin.
    - simpl in Hacc. rewrite lookup_empty in Hacc. discriminate. }
  assert (Hcomplete :
            (exists value,
                tags !! ("ingress:certificate-arn/" +:+ arn) = Some value)
            \/ tags !! "ingress:certificate-arn" = Some arn ->
            is_Some (aws.scanCertificateARNs scan !! arn)).
  { intros Hsrc. apply (scanTags_certificates_complete _ _ _ _ Hscan).
    destruct Hsrc as [[v Hv]|Hl].
    - left. exists v. now apply list_elem_of_In, elem_of_map_to_list.
    - right. left. now apply list_elem_of_In, elem_of_map_to_list. }
  split; [|split].
  - intros value Hv Hnl.
    destruct Hcomplete as [t Ht]; [left; eauto|].
    rewrite Ht. f_equal.
    destruct (Hsound t Ht) as [(v & Hv' & ->)|[Hl _]]; [|contradiction].
    rewrite Hv in Hv'. now injection Hv' as <-.
  - intros Hl Hnone.
    destruct Hcomplete as [t Ht]; [right; exact Hl|].
    rewrite Ht. f_equal.
    destruct (Hsound t Ht) as [(v & Hv' & _)|[_ ->]]; [|reflexivity].
    rewrite Hnone in Hv'. discriminate.
  - intros Hnone Hnl.
    destruct (aws.scanCertificateARNs scan !! arn) as [t|] eqn:Ht;
      [|reflexivity].
    destruct (Hsound t eq_refl) as [(v & Hv' & _)|[Hl _]].
    + rewrite Hnone in Hv'. discriminate.
    + contradiction.
Qed.

(** When the dated tag and the legacy tag name the same ARN, the one that
    is visited last decides. *)
Lemma decoded_certificates_both (stack : cloudformation.Stack)
  (s : aws.Stack) (arn value : string) :
  aws.mapToManagedStack time_Parse_RFC3339 base64_DecodeString json_Unmarshal
    stack = (s, None) ->
  let tags := aws.convertCloudFormationTags (cloudformation.Tags stack) in
  tags !! ("ingress:certificate-arn/" +:+ arn) = Some value ->
  tags !! "ingress:certificate-arn" = Some arn ->
  aws.CertificateARNs s !! arn
  = Some match time_Parse_RFC3339 value with
         | inr ttl => ttl
         | inl _ => zeroTime
         end
  \/ aws.CertificateARNs s !! arn = Some zeroTime.
Proof.
  intros Hd tags Hv Hl.
  apply mapToManagedStack_scan in Hd as (scan & Hscan & Hc & _).
  fold tags in Hscan. rewrite Hc.
  destruct (scanTags_certificates_complete _ _ _ arn Hscan) as [t Ht].
  { left. exists value. now apply list_elem_of_In, elem_of_map_to_list. }
  rewrite Ht.
  destruct (scanTags_certificates_sound _ _ _ _ _ Hscan Ht)
    as [(v & Hin & Hv')|[[Hin Hv']|Hacc]].
  - apply list_elem_of_In, elem_of_map_to_list in Hin.
    fold tags in Hin. change aws.certificateARNTagPrefix
      with "ingress:certificate-arn/" in Hin.
    rewrite Hv in Hin. injection Hin as <-. left. now rewrite Hv'.
  - right. now rewrite Hv'.
  - simpl in Hacc. rewrite lookup_empty in Hacc. discriminate.
Qed.

(** X16.  The certificates of a decoded stack are read from its tags.  A
    tag [ingress:certificate-arn/<ARN>] gives the ARN the TTL its value
    parses to, or the zero instant when the value does not parse, provided
    the legacy tag [ingress:certificate-arn] does not name the same ARN.
    The legacy tag gives its value, as an ARN, the zero instant, provided
    there is no dated tag for that ARN.  When both tags name the same ARN,
    the ARN has one of the two TTLs: which one depends on the order in
    which the tags are visited.  An ARN named by neither tag is not in the
    map. *)
Theorem certificates_of_decoded_stack (stack : cloudformation.Stack)
  (s : aws.Stack) (arn : string) :
  aws.mapToManagedStack time_Parse_RFC3339 base64_DecodeString json_Unmarshal
    stack = (s, None) ->
  let tags := aws.convertCloudFormationTags (cloudformation.Tags stack) in
  (forall value,
      tags !! ("ingress:certificate-arn/" +:+ arn) = Some value ->
      tags !! "ingress:certificate-arn" <> Some arn ->
      aws.CertificateARNs s !! arn
      = Some match time_Parse_RFC3339 value with
             | inr ttl => ttl
             | inl _ => zeroTime
             end)
  /\ (tags !! "ingress:certificate-arn" = Some arn ->
      tags !! ("ingress:certificate-arn/" +:+ arn) = None ->
      aws.CertificateARNs s !! arn = Some zeroTime)
  /\ (forall value,
        tags !! ("ingress:certificate-arn/" +:+ arn) = Some value ->
        tags !! "ingress:certificate-arn" = Some arn ->
        aws.CertificateARNs s !! arn
        = Some match time_Parse_RFC3339 value with
               | inr ttl => ttl
               | inl _ => zeroTime
               end
        \/ aws.CertificateARNs s !! arn = Some zeroTime)
  /\ (tags !! ("ingress:certificate-arn/" +:+ arn) = None ->
      tags !! "ingress:certificate-arn" <> Some arn ->
      aws.CertificateARNs s !! arn = None).
Proof.
  intros Hd tags.
  destruct (decoded_certificates stack s arn Hd) as (Hdated & Hlegacy & Hnone).
  split; [exact Hdated|]. split; [exact Hlegacy|]. split; [|exact Hnone].
  intros value. now apply decoded_certificates_both.
Qed.

(** X17.  A decoded stack that has a certificate tag whose value does not
    parse as a time, or a legacy certificate tag alone for its ARN, is
    never deletion-eligible; a decoded stack without any certificate tag
    is deletion-eligible at any time. *)
Theorem deletion_of_decoded_stack (stack : cloudformation.Stack) (s : aws.Stack) :
  aws.mapToManagedStack time_Parse_RFC3339 base64_DecodeString json_Unmarshal
    stack = (s, None) ->
  let tags := aws.convertCloudFormationTags (cloudformation.Tags stack) in
  (forall arn,
      (exists value e,
          tags !! ("ingress:certificate-arn/" +:+ arn) = Some value
          /\ time_Parse_RFC3339 value = inl e)
      \/ (tags !! "ingress:certificate-arn" = Some arn
          /\ tags !! ("ingress:certificate-arn/" +:+ arn) = None) ->
      forall now, aws.ShouldDelete (Some s) now = false)
  /\ ((forall k, is_Some (tags !! k) ->
                 HasPrefix k "ingress:certificate-arn/" = false
                 /\ k <> "ingress:certificate-arn") ->
      forall now, aws.ShouldDelete (Some s) now = true).
Proof.
  intros Hd tags.
  pose proof (mapToManagedStack_scan _ _ Hd) as (scan & Hscan & Hc & _).
  fold tags in Hscan. split.
  - intros arn Hsrc now. apply not_true_iff_false. intros Hdel.
    assert (Hz : aws.CertificateARNs s !! arn = Some zeroTime).
    { destruct Hsrc as [(value & e & Hv & Hp)|[Hl Hnone]].
      - destruct (aws.CertificateARNs s !! arn) as [t|] eqn:Ht.
        + rewrite Hc in Ht.
          destruct (scanTags_certificates_sound _ _ _ _ _ Hscan Ht)
            as [(v & Hin & ->)|[[_ ->]|Hacc]].
          * apply list_elem_of_In, elem_of_map_to_list in Hin.
            fold tags in Hin.
            change aws.certificateARNTagPrefix
              with "ingress:certificate-arn/" in Hin.
            rewrite Hv in Hin. injection Hin as <-. now rewrite Hp.
          * reflexivity.
          * simpl in Hacc. rewrite lookup_empty in Hacc. discriminate.
        + rewrite Hc in Ht.
          destruct (scanTags_certificates_complete _ _ _ arn Hscan) as [t Ht'].
          * left. exists value.
            now apply list_elem_of_In, elem_of_map_to_list.
          * rewrite Ht in Ht'. discriminate.
      - now apply (decoded_certificates stack s arn Hd). }
    destruct (proj1 (ShouldDelete_true_iff s now) Hdel arn zeroTime Hz)
      as [Hzero _].
    discriminate.
  - intros Hnone now. apply ShouldDelete_true_iff. intros arn t Ht.
    rewrite Hc in Ht.
    destruct (scanTags_certificates_sound _ _ _ _ _ Hscan Ht)
      as [(v & Hin & _)|[[Hin _]|Hacc]].
    + apply list_elem_of_In, elem_of_map_to_list in Hin. fold tags in Hin.
      destruct (Hnone _ (mk_is_Some _ _ Hin)) as [Hp _].
      unfold HasPrefix in Hp.
      change aws.certificateARNTagPrefix with "ingress:certificate-arn/" in Hp.
      now rewrite prefix_append in Hp.
    + apply list_elem_of_In, elem_of_map_to_list in Hin. fold tags in Hin.
      destruct (Hnone _ (mk_is_Some _ _ Hin)) as [_ Hk]. now destruct Hk.
    + simpl in Hacc. rewrite lookup_empty in Hacc. discriminate.
Qed.

Lemma scanTag_error_iff (acc : aws.tagScan) (key value : string) (err : error) :
  aws.scanTag time_Parse_RFC3339 base64_DecodeString json_Unmarshal
    acc key value = inl err <->
  key = aws.extraListenersTag
  /\ json_Unmarshal (base64_DecodeString value) = inl err.
Proof.
  unfold aws.scanTag.
  destruct (String.eqb key aws.extraListenersTag) eqn:E.
  - apply String.eqb_eq in E. subst key.
    destruct (json_Unmarshal (base64_DecodeString value)).
    + split; [intros H; injection H as <-; auto
             | intros [_ H]; injection H as <-; reflexivity].
    + split; [discriminate | intros [_ H]; discriminate].
  - apply String.eqb_neq in E. split; [discriminate | intros [H _]; contradiction].
Qed.

Lemma scanTags_error_iff (kvs : list (string * string)) :
  NoDup kvs.*1 ->
  forall (acc : aws.tagScan) (err : error),
    aws.scanTags time_Parse_RFC3339 base64_DecodeString json_Unmarshal acc kvs
    = inl err <->
    exists value,
      In (aws.extraListenersTag, value) kvs
      /\ json_Unmarshal (base64_DecodeString value) = inl err.
Proof.
  induction kvs as [|[key value] rest IH]; intros Hnd acc err.
  - simpl. split; [discriminate | intros (v & [] & _)].
  - rewrite fmap_cons in Hnd. apply NoDup_cons in Hnd as [Hk Hnd].
    cbn [aws.scanTags].
    destruct (aws.scanTag _ _ _ acc key value) as [e|acc1] eqn:E.
    + apply scanTag_error_iff in E as [-> Hj]. split.
      * intros H. injection H as <-. exists value. split; [now left|exact Hj].
      * intros (v & [Heq|Hin] & Hv).
        -- injection Heq as <-. rewrite Hj in Hv. now injection Hv as <-.
        -- exfalso. apply Hk. simpl.
           apply list_elem_of_In, in_map_iff. now exists (aws.extraListenersTag, v).
    + rewrite (IH Hnd). split.
      * intros (v & Hin & Hv). exists v. split; [now right|exact Hv].
      * intros (v & [Heq|Hin] & Hv); [|eauto].
        injection Heq as -> ->.
        assert (He : aws.scanTag time_Parse_RFC3339 base64_DecodeString
                       json_Unmarshal acc aws.extraListenersTag v = inl err)
          by (apply scanTag_error_iff; auto).
        rewrite He in E. discriminate.
Qed.

(** X18.  Decoding a stack fails in one case only: its
    [ingress:extra-listeners] tag does not decode; the error is the one of
    the decoder and the stack returned with it is the empty one. *)
Theorem mapToManagedStack_error_iff (stack : cloudformation.Stack) (err : error) :
  let r := aws.mapToManagedStack time_Parse_RFC3339 base64_DecodeString
             json_Unmarshal stack in
  (r.2 = Some err <->
     exists value,
       aws.convertCloudFormationTags (cloudformation.Tags stack)
         !! "ingress:extra-listeners" = Some value
       /\ json_Unmarshal (base64_DecodeString value) = inl err)
  /\ (r.2 <> None -> r.1 = aws.emptyStack).
Proof.
  intros r. subst r. unfold aws.mapToManagedStack.
  pose proof (scanTags_error_iff
                (map_to_list (aws.convertCloudFormationTags
                                (cloudformation.Tags stack)))
                (NoDup_fst_map_to_list _) (aws.mkTagScan ∅ "" []) err) as H.
  destruct (aws.scanTags _ _ _ _ _) as [e|scan]; cbn [fst snd].
  - split; [|reflexivity]. split.
    + intros Heq. injection Heq as ->.
      destruct (proj1 H eq_refl) as (v & Hin & Hv). exists v.
      split; [|exact Hv]. now apply list_elem_of_In, elem_of_map_to_list in Hin.
    + intros (v & Hl & Hv). f_equal.
      assert (He : inl e = (inl err : error + aws.tagScan)).
      { apply H. exists v. split; [|exact Hv].
        now apply list_elem_of_In, elem_of_map_to_list. }
      now injection He.
  - split; [|intros Hn; now destruct Hn]. split; [discriminate|].
    intros (v & Hl & Hv).
    assert (He : inr scan = (inl err : error + aws.tagScan)).
    { apply H. exists v. split; [|exact Hv].
      now apply list_elem_of_In, elem_of_map_to_list. }
    discriminate.
Qed.

Lemma collectManaged_errors (clusterID controllerID : string)
  (page : list cloudformation.Stack) (acc : list aws.Stack * list error) :
  (aws.collectManaged time_Parse_RFC3339 base64_DecodeString json_Unmarshal
     clusterID controllerID page acc).2
  = acc.2 ++ omap (fun s =>
                     if managedBy clusterID controllerID s
                     then (aws.mapToManagedStack time_Parse_RFC3339
                             base64_DecodeString json_Unmarshal s).2
                     else None) page.
Proof.
  revert acc. induction page as [|s rest IH]; intros acc.
  - simpl. now rewrite app_nil_r.
  - cbn [aws.collectManaged omap list_omap]. rewrite IH. unfold managedBy at 2.
    destruct (aws.isManagedStack (cloudformation.Tags s) clusterID controllerID);
      [|reflexivity].
    destruct (aws.mapToManagedStack _ _ _ s) as [stack [e|]]; cbn [fst snd].
    + now rewrite <- app_assoc.
    + reflexivity.
Qed.

Lemma collectManaged_pages_errors (clusterID controllerID : string)
  (pages : list (list cloudformation.Stack)) (acc : list aws.Stack * list error) :
  (foldl (fun acc page =>
            aws.collectManaged time_Parse_RFC3339 base64_DecodeString
              json_Unmarshal clusterID controllerID page acc) acc pages).2
  = acc.2 ++ omap (fun s =>
                     if managedBy clusterID controllerID s
                     then (aws.mapToManagedStack time_Parse_RFC3339
                             base64_DecodeString json_Unmarshal s).2
                     else None) (concat pages).
Proof.
  revert acc. induction pages as [|page rest IH]; intros acc; simpl.
  - now rewrite app_nil_r.
  - rewrite IH, collectManaged_errors, omap_app. now rewrite app_assoc.
Qed.

(** X19.  The stack listing is all or nothing.  An error of the listing
    call comes back wrapped.  Otherwise the decoding errors of the managed
    stacks of all pages are gathered: if there is one, the listing fails
    with all of them and returns no stack; if there is none, it returns
    the decoded managed stacks in page order.  Stacks that are not managed
    are not decoded. *)
Theorem findManagedStacks_all_or_nothing
  (pages : list (list cloudformation.Stack)) (err : option error)
  (clusterID controllerID : string) :
  aws.findManagedStacks time_Parse_RFC3339 base64_DecodeString json_Unmarshal
    pages err clusterID controllerID
  = match err with
    | Some e =>
        inl (ErrorfW "findManagedStacks failed to list stacks: %w" [] e)
    | None =>
        match omap (fun s =>
                      if managedBy clusterID controllerID s
                      then (aws.mapToManagedStack time_Parse_RFC3339
                              base64_DecodeString json_Unmarshal s).2
                      else None) (concat pages) with
        | [] =>
            inr (List.map (decodedStack time_Parse_RFC3339 base64_DecodeString
                                        json_Unmarshal)
                          (List.filter (managedBy clusterID controllerID)
                                       (concat pages)))
        | errors =>
            inl (ErrorfV "mapToManagedStacks returned errors: %v" errors)
        end
    end.
Proof.
  unfold aws.findManagedStacks.
  pose proof (collectManaged_pages time_Parse_RFC3339 base64_DecodeString
                json_Unmarshal clusterID controllerID pages ([], [])) as Hs.
  pose proof (collectManaged_pages_errors clusterID controllerID pages ([], []))
    as He.
  destruct (foldl _ _ pages) as [stacks errors]. cbn [fst snd app] in Hs, He.
  subst stacks errors.
  destruct err; [reflexivity|].
  destruct (omap _ (concat pages)); reflexivity.
Qed.

Lemma scanTag_owner_and_listeners (acc acc' : aws.tagScan) (key value : string) :
  aws.scanTag time_Parse_RFC3339 base64_DecodeString json_Unmarshal
    acc key value = inr acc' ->
  aws.scanOwnerIngress acc'
  = (if String.eqb key aws.ingressOwnerTag then value
     else aws.scanOwnerIngress acc)
  /\ (if String.eqb key aws.extraListenersTag
      then json_Unmarshal (base64_DecodeString value)
           = inr (aws.scanExtraListeners acc')
      else aws.scanExtraListeners acc' = aws.scanExtraListeners acc).
Proof.
  unfold aws.scanTag.
  destruct (String.eqb key aws.extraListenersTag).
  - destruct (json_Unmarshal _); [discriminate|].
    intros H. injection H as <-. auto.
  - intros H. injection H as <-. auto.
Qed.

Lemma scanTags_owner_and_listeners (kvs : list (string * string)) :
  NoDup kvs.*1 ->
  forall (acc scan : aws.tagScan),
    aws.scanTags time_Parse_RFC3339 base64_DecodeString json_Unmarshal acc kvs
    = inr scan ->
    (forall value, In (aws.ingressOwnerTag, value) kvs ->
                   aws.scanOwnerIngress scan = value)
    /\ ((forall value, ~ In (aws.ingressOwnerTag, value) kvs) ->
        aws.scanOwnerIngress scan = aws.scanOwnerIngress acc)
    /\ (forall value, In (aws.extraListenersTag, value) kvs ->
                      json_Unmarshal (base64_DecodeString value)
                      = inr (aws.scanExtraListeners scan))
    /\ ((forall value, ~ In (aws.extraListenersTag, value) kvs) ->
        aws.scanExtraListeners scan = aws.scanExtraListeners acc).
Proof.
  induction kvs as [|[key value] rest IH]; intros Hnd acc scan.
  - simpl. intros H. injection H as <-.
    repeat split; auto; intros v [].
  - rewrite fmap_cons in Hnd. apply NoDup_cons in Hnd as [Hk Hnd].
    cbn [aws.scanTags].
    destruct (aws.scanTag _ _ _ acc key value) as [e|acc1] eqn:E; [discriminate|].
    intros Hrest.
    destruct (IH Hnd _ _ Hrest) as (Ho1 & Ho2 & Hl1 & Hl2).
    apply scanTag_owner_and_listeners in E as [Eo El].
    assert (Hfresh : forall v, ~ In (key, v) rest).
    { intros v Hin. apply Hk. simpl.
      apply list_elem_of_In, in_map_iff. now exists (key, v). }
    repeat split.
    + intros v [Heq|Hin]; [|auto]. injection Heq as -> ->.
      rewrite Ho2 by apply Hfresh. now rewrite Eo, String.eqb_refl.
    + intros Hno. rewrite Ho2, Eo.
      * destruct (String.eqb key aws.ingressOwnerTag) eqn:Ek; [|reflexivity].
        apply String.eqb_eq in Ek. subst key.
        exfalso. apply (Hno value). now left.
      * intros v Hin. apply (Hno v). now right.
    + intros v [Heq|Hin]; [|auto]. injection Heq as -> ->.
      rewrite Hl2 by apply Hfresh. now rewrite String.eqb_refl in El.
    + intros Hno. rewrite Hl2.
      * destruct (String.eqb key aws.extraListenersTag) eqn:Ek; [|exact El].
        apply String.eqb_eq in Ek. subst key.
        exfalso. apply (Hno value). now left.
      * intros v Hin. apply (Hno v). now right.
Qed.

Lemma decoded_owner_and_listeners (stack : cloudformation.Stack) (s : aws.Stack) :
  aws.mapToManagedStack time_Parse_RFC3339 base64_DecodeString json_Unmarshal
    stack = (s, None) ->
  let tags := aws.convertCloudFormationTags (cloudformation.Tags stack) in
  aws.OwnerIngress s = mapIndex tags aws.ingressOwnerTag
  /\ match tags !! aws.extraListenersTag with
     | Some value =>
         json_Unmarshal (base64_DecodeString value) = inr (aws.ExtraListeners s)
     | None => aws.ExtraListeners s = []
     end.
Proof.
  intros Hd tags.
  apply mapToManagedStack_scan in Hd as (scan & Hscan & _ & -> & ->).
  fold tags in Hscan.
  destruct (scanTags_owner_and_listeners _ (NoDup_fst_map_to_list tags) _ _ Hscan)
    as (Ho1 & Ho2 & Hl1 & Hl2).
  split.
  - unfold mapIndex. destruct (tags !! aws.ingressOwnerTag) as [v|] eqn:E.
    + apply Ho1. now apply list_elem_of_In, elem_of_map_to_list.
    + rewrite Ho2; [reflexivity|]. intros v Hin.
      apply list_elem_of_In, elem_of_map_to_list in Hin. congruence.
  - destruct (tags !! aws.extraListenersTag) as [v|] eqn:E.
    + apply Hl1. now apply list_elem_of_In, elem_of_map_to_list.
    + rewrite Hl2; [reflexivity|]. intros v Hin.
      apply list_elem_of_In, elem_of_map_to_list in Hin. congruence.
Qed.

End DecodingProperties.

(** A stack with a dated certificate tag for [arn:A]. *)
Lemma certificates_of_decoded_stack_witness :
  exists s,
    aws.mapToManagedStack fixtures.parseTime fixtures.base64Decode
      fixtures.unmarshalListeners (fixtures.taggedStack None) = (s, None)
    /\ aws.CertificateARNs s !! "arn:A" = Some fixtures.tomorrow.
Proof.
  eexists. split; [vm_compute; reflexivity|].
  apply (proj1 (certificates_of_decoded_stack fixtures.parseTime
                  fixtures.base64Decode fixtures.unmarshalListeners
                  (fixtures.taggedStack None) _ "arn:A"
                  ltac:(vm_compute; reflexivity))
               "2026-01-02T00:00:00Z").
  - vm_compute. reflexivity.
  - vm_compute. discriminate.
Defined.

(** A stack with a legacy certificate tag is never deleted. *)
Lemma deletion_of_decoded_stack_witness :
  exists s,
    aws.mapToManagedStack fixtures.parseTime fixtures.base64Decode
      fixtures.unmarshalListeners (fixtures.taggedStack None) = (s, None)
    /\ forall now, aws.ShouldDelete (Some s) now = false.
Proof.
  eexists. split; [vm_compute; reflexivity|].
  apply (proj1 (deletion_of_decoded_stack fixtures.parseTime
                  fixtures.base64Decode fixtures.unmarshalListeners
                  (fixtures.taggedStack None) _
                  ltac:(vm_compute; reflexivity))
               "arn:legacy").
  right. split; vm_compute; reflexivity.
Defined.

(** A listener tag that holds the base64 text of a lone opening brace. *)
Lemma mapToManagedStack_error_iff_witness :
  (aws.mapToManagedStack fixtures.parseTime fixtures.base64Decode
     fixtures.unmarshalListeners (fixtures.taggedStack (Some "ew=="))).2
  = Some (errorsNew "unexpected end of JSON input").
Proof.
  apply (proj1 (mapToManagedStack_error_iff fixtures.parseTime
                  fixtures.base64Decode fixtures.unmarshalListeners
                  (fixtures.taggedStack (Some "ew=="))
                  (errorsNew "unexpected end of JSON input"))).
  exists "ew==". split; vm_compute; reflexivity.
Defined.

(** ** From a stack specification to the tags and back *)

Lemma convertCloudFormationTags_app (l1 l2 : list cloudformation.Tag) :
  aws.convertCloudFormationTags (l1 ++ l2)
  = aws.convertCloudFormationTags l2 ∪ aws.convertCloudFormationTags l1.
Proof.
  induction l2 as [|t l2 IH] using rev_ind.
  - rewrite app_nil_r. change (aws.convertCloudFormationTags [])
      with (∅ : gmap string string).
    now rewrite (left_id ∅ (∪)).
  - rewrite app_assoc, !convertCloudFormationTags_snoc, IH.
    now rewrite insert_union_l.
Qed.

Lemma convertStackParameters_snoc (l : list cloudformation.StackParameter)
  (p : cloudformation.StackParameter) :
  aws.convertStackParameters (l ++ [p])
  = <[StringValue (cloudformation.ParameterKey p) :=
        StringValue (cloudformation.ParameterValue p)]>
      (aws.convertStackParameters l).
Proof. unfold aws.convertStackParameters. now rewrite foldl_app. Qed.

Lemma convertStackParameters_app (l1 l2 : list cloudformation.StackParameter) :
  aws.convertStackParameters (l1 ++ l2)
  = aws.convertStackParameters l2 ∪ aws.convertStackParameters l1.
Proof.
  induction l2 as [|p l2 IH] using rev_ind.
  - rewrite app_nil_r. change (aws.convertStackParameters [])
      with (∅ : gmap string string).
    now rewrite (left_id ∅ (∪)).
  - rewrite app_assoc, !convertStackParameters_snoc, IH.
    now rewrite insert_union_l.
Qed.

Section RoundTrip.

Variable CloudWatchAlarm : Type.
Variable cwAlarms_Hash : list CloudWatchAlarm -> string.
Variable time_Format_RFC3339 : Time -> string.
Variable json_Marshal : list aws.ExtraListener -> string.
Variable base64_EncodeToString : string -> string.
Variable Sprintf_seconds : Z -> string.
Variable time_Parse_RFC3339 : string -> error + Time.
Variable base64_DecodeString : string -> string.
Variable json_Unmarshal : string -> error + list aws.ExtraListener.

(** The tag list of a specification, layer by layer. *)
Lemma stackTagList_layers (spec : aws.stackSpec CloudWatchAlarm) :
  aws.stackTagList CloudWatchAlarm cwAlarms_Hash time_Format_RFC3339
    json_Marshal base64_EncodeToString spec
  = aws.tagMapToCloudformationTags
      (aws.mergeTags
         [aws.spec_tags _ spec;
          <[aws.clusterIDTagPrefix +:+ aws.clusterID _ spec :=
              aws.resourceLifecycleOwned]>
            (<[aws.kubernetesCreatorTag := aws.controllerID _ spec]> ∅)])
    ++ List.map (fun kv => aws.cfTag (aws.certificateARNTagPrefix +:+ kv.1)
                                     (time_Format_RFC3339 kv.2))
                (map_to_list (aws.certificateARNs _ spec))
    ++ (if negb (String.eqb (aws.ownerIngress _ spec) "")
        then [aws.cfTag aws.ingressOwnerTag (aws.ownerIngress _ spec)] else [])
    ++ (if (0 <? length (aws.cwAlarms _ spec))%nat
        then [aws.cfTag aws.cwAlarmConfigHashTag
                        (cwAlarms_Hash (aws.cwAlarms _ spec))] else [])
    ++ (if (0 <? length (aws.extraListeners _ spec))%nat
        then [aws.cfTag aws.extraListenersTag
                        (base64_EncodeToString
                           (json_Marshal (aws.extraListeners _ spec)))]
        else []).
Proof.
  unfold aws.stackTagList.
  destruct (negb _), (0 <? length (aws.cwAlarms _ spec))%nat,
    (0 <? length (aws.extraListeners _ spec))%nat;
    rewrite ?app_nil_r, <- ?app_assoc; reflexivity.
Qed.

Lemma certificateTags_lookup (certs : gmap string Time) :
  let m := aws.convertCloudFormationTags
             (List.map (fun kv => aws.cfTag (aws.certificateARNTagPrefix +:+ kv.1)
                                            (time_Format_RFC3339 kv.2))
                       (map_to_list certs)) in
  (forall arn, m !! (aws.certificateARNTagPrefix +:+ arn)
               = time_Format_RFC3339 <$> certs !! arn)
  /\ (forall k, HasPrefix k aws.certificateARNTagPrefix = false -> m !! k = None).
Proof.
  intros m. subst m. split.
  - intros arn. apply option_eq. intros v.
    rewrite convertCloudFormationTags_NoDup.
    + rewrite fmap_Some. split.
      * intros (t & Hin & Hk & Hv). apply in_map_iff in Hin as ([a ttl] & <- & Hin).
        simpl in Hk, Hv. apply append_inj in Hk. subst a v.
        exists ttl. split; [|reflexivity].
        now apply list_elem_of_In, elem_of_map_to_list in Hin.
      * intros (ttl & Hl & ->).
        exists (aws.cfTag (aws.certificateARNTagPrefix +:+ arn)
                          (time_Format_RFC3339 ttl)).
        split; [|auto]. apply in_map_iff. exists (arn, ttl).
        split; [reflexivity|]. now apply list_elem_of_In, elem_of_map_to_list.
    + rewrite List.map_map. simpl.
      rewrite <- (List.map_map fst (fun a => aws.certificateARNTagPrefix +:+ a)).
      apply (NoDup_fmap_2_strong (fun a => aws.certificateARNTagPrefix +:+ a)).
      * intros x y _ _. apply append_inj.
      * apply NoDup_fst_map_to_list.
  - intros k Hk. apply convertCloudFormationTags_None.
    intros t Hin. apply in_map_iff in Hin as ([a ttl] & <- & _). simpl.
    intros <-. unfold HasPrefix in Hk. now rewrite prefix_append in Hk.
Qed.

(** The map read back from the tag list of a specification, at a key that
    none of the three optional tags uses. *)
Lemma stackTagList_lookup (spec : aws.stackSpec CloudWatchAlarm) (k : string) :
  k <> aws.ingressOwnerTag -> k <> aws.cwAlarmConfigHashTag ->
  k <> aws.extraListenersTag ->
  aws.convertCloudFormationTags
    (aws.stackTagList CloudWatchAlarm cwAlarms_Hash time_Format_RFC3339
       json_Marshal base64_EncodeToString spec) !! k
  = match aws.convertCloudFormationTags
            (List.map (fun kv => aws.cfTag (aws.certificateARNTagPrefix +:+ kv.1)
                                           (time_Format_RFC3339 kv.2))
                      (map_to_list (aws.certificateARNs _ spec))) !! k with
    | Some v => Some v
    | None =>
        match (<[aws.clusterIDTagPrefix +:+ aws.clusterID _ spec :=
                   aws.resourceLifecycleOwned]>
                 (<[aws.kubernetesCreatorTag := aws.controllerID _ spec]> ∅)
               : gmap string string) !! k with
        | Some v => Some v
        | None => aws.spec_tags _ spec !! k
        end
    end.
Proof.
  intros Ho Hh He. rewrite stackTagList_layers.
  rewrite !convertCloudFormationTags_app.
  rewrite (convertCloudFormationTags_of_map _ _ (Permutation_refl _)).
  rewrite mergeTags_two.
  assert (Hopt : forall (c : bool) key value,
             k <> key ->
             aws.convertCloudFormationTags
               (if c then [aws.cfTag key value] else []) !! k = None).
  { intros c key value Hne. destruct c; [|reflexivity].
    apply convertCloudFormationTags_None. intros t [<-|[]]. simpl. congruence. }
  rewrite !lookup_union.
  rewrite !Hopt by assumption.
  destruct (aws.convertCloudFormationTags (List.map _ _) !! k),
    ((<[_ := _]> (<[_ := _]> ∅) : gmap string string) !! k),
    (aws.spec_tags _ spec !! k); reflexivity.
Qed.

(** X20.  The tags [createStack] and [updateStack] put on a stack make the
    inventory accept it for the cluster and the controller of its
    specification, whatever the free-form tags, the certificates and the
    other fields of the specification are. *)
Theorem created_stack_is_managed (spec : aws.stackSpec CloudWatchAlarm) :
  aws.isManagedStack
    (aws.stackTagList CloudWatchAlarm cwAlarms_Hash time_Format_RFC3339
       json_Marshal base64_EncodeToString spec)
    (aws.clusterID _ spec) (aws.controllerID _ spec) = true.
Proof.
  apply isManagedStack_true_iff. unfold mapIndex.
  destruct (certificateTags_lookup (aws.certificateARNs _ spec)) as [_ Hc].
  rewrite !stackTagList_lookup by (intros H; vm_compute in H; discriminate).
  rewrite !Hc by reflexivity.
  rewrite lookup_insert_ne by (intros H; vm_compute in H; discriminate).
  rewrite !lookup_insert_eq. simpl. auto.
Qed.

Lemma stackParameters_layers (spec : aws.stackSpec CloudWatchAlarm) :
  aws.stackParameters CloudWatchAlarm Sprintf_seconds spec
  = [ aws.cfParam aws.parameterLoadBalancerSchemeParameter (aws.scheme _ spec);
      aws.cfParam aws.parameterLoadBalancerSecurityGroupParameter
                  (aws.securityGroupID _ spec);
      aws.cfParam aws.parameterLoadBalancerSubnetsParameter
                  (String.concat "," (aws.subnets _ spec));
      aws.cfParam aws.parameterTargetGroupVPCIDParameter (aws.vpcID _ spec);
      aws.cfParam aws.parameterTargetGroupTargetPortParameter
                  (aws.Sprintf_d (aws.targetPort _ spec));
      aws.cfParam aws.parameterListenerSslPolicyParameter (aws.sslPolicy _ spec);
      aws.cfParam aws.parameterIpAddressTypeParameter (aws.ipAddressType _ spec);
      aws.cfParam aws.parameterLoadBalancerTypeParameter
                  (aws.loadbalancerType _ spec);
      aws.cfParam aws.parameterHTTP2Parameter (aws.Sprintf_t (aws.http2 _ spec)) ]
    ++ (if negb (String.eqb (aws.wafWebAclId _ spec) "")
        then [aws.cfParam aws.parameterLoadBalancerWAFWebACLIDParameter
                          (aws.wafWebAclId _ spec)] else [])
    ++ (if negb (aws.httpDisabled _ spec)
           && negb (N.eqb (aws.httpTargetPort _ spec) (aws.targetPort _ spec))
        then [aws.cfParam aws.parameterTargetGroupHTTPTargetPortParameter
                          (aws.Sprintf_d (aws.httpTargetPort _ spec))] else [])
    ++ match aws.spec_healthCheck _ spec with
       | Some hc =>
           [ aws.cfParam aws.parameterTargetGroupHealthCheckPathParameter
                         (aws.path hc);
             aws.cfParam aws.parameterTargetGroupHealthCheckPortParameter
                         (aws.Sprintf_d (aws.port hc));
             aws.cfParam aws.parameterTargetGroupHealthCheckIntervalParameter
                         (Sprintf_seconds (aws.interval hc));
             aws.cfParam aws.parameterTargetGroupHealthCheckTimeoutParameter
                         (Sprintf_seconds (aws.timeout hc)) ]
       | None => []
       end.
Proof.
  unfold aws.stackParameters.
  destruct (negb (String.eqb _ "")), (negb (aws.httpDisabled _ spec) && _),
    (aws.spec_healthCheck _ spec);
    rewrite ?app_nil_r, <- ?app_assoc; reflexivity.
Qed.

Lemma mapToManagedStack_fields (stack : cloudformation.Stack) (s : aws.Stack) :
  aws.mapToManagedStack time_Parse_RFC3339 base64_DecodeString json_Unmarshal
    stack = (s, None) ->
  let parameters :=
    aws.convertStackParameters (cloudformation.Parameters stack) in
  aws.Scheme s = mapIndex parameters aws.parameterLoadBalancerSchemeParameter
  /\ aws.SecurityGroup s
     = mapIndex parameters aws.parameterLoadBalancerSecurityGroupParameter
  /\ aws.SSLPolicy s = mapIndex parameters aws.parameterListenerSslPolicyParameter
  /\ aws.IpAddressType s = mapIndex parameters aws.parameterIpAddressTypeParameter
  /\ aws.LoadBalancerType s
     = mapIndex parameters aws.parameterLoadBalancerTypeParameter
  /\ aws.HTTP2 s
     = negb (String.eqb (mapIndex parameters aws.parameterHTTP2Parameter) "false")
  /\ aws.WAFWebACLID s
     = mapIndex parameters aws.parameterLoadBalancerWAFWebACLIDParameter
  /\ aws.CWAlarmConfigHash s
     = mapIndex (aws.convertCloudFormationTags (cloudformation.Tags stack))
                aws.cwAlarmConfigHashTag
  /\ aws.Name s = StringValue (cloudformation.StackName stack).
Proof.
  unfold aws.mapToManagedStack.
  destruct (aws.scanTags _ _ _ _ _) as [err|scan]; [discriminate|].
  intros H. injection H as <-. cbn.
  destruct (String.eqb _ "false"); repeat split; reflexivity.
Qed.

(** X21.  The policy fields survive the trip through CloudFormation: a
    stack whose parameters are those [createStack] and [updateStack] send
    for a specification decodes to a record with the scheme, security
    group, SSL policy, IP address type, load-balancer type, HTTP/2 flag
    and WAF web-ACL of that specification. *)
Theorem policy_fields_round_trip (spec : aws.stackSpec CloudWatchAlarm)
  (stackName stackStatus reason : option string)
  (outputs : list cloudformation.Output) (cfTags : list cloudformation.Tag)
  (s : aws.Stack) :
  aws.mapToManagedStack time_Parse_RFC3339 base64_DecodeString json_Unmarshal
    (cloudformation.mkStack stackName stackStatus reason outputs
       (aws.stackParameters CloudWatchAlarm Sprintf_seconds spec) cfTags)
  = (s, None) ->
  aws.Scheme s = aws.scheme _ spec
  /\ aws.SecurityGroup s = aws.securityGroupID _ spec
  /\ aws.SSLPolicy s = aws.sslPolicy _ spec
  /\ aws.IpAddressType s = aws.ipAddressType _ spec
  /\ aws.LoadBalancerType s = aws.loadbalancerType _ spec
  /\ aws.HTTP2 s = aws.http2 _ spec
  /\ aws.WAFWebACLID s = aws.wafWebAclId _ spec.
Proof.
  intros Hd.
  apply mapToManagedStack_fields in Hd
    as (-> & -> & -> & -> & -> & -> & -> & _).
  cbn [cloudformation.Parameters]. rewrite stackParameters_layers.
  rewrite !convertStackParameters_app. unfold mapIndex.
  rewrite !lookup_union.
  destruct (aws.spec_healthCheck _ spec) as [hc|],
    (negb (aws.httpDisabled _ spec) && _),
    (String.eqb (aws.wafWebAclId _ spec) "") eqn:Ew;
    try (apply String.eqb_eq in Ew; rewrite Ew);
    destruct (aws.http2 _ spec); repeat split; reflexivity.
Qed.

Lemma optional_tag_lookup (c : bool) (key value k : string) :
  aws.convertCloudFormationTags (if c then [aws.cfTag key value] else []) !! k
  = if c && String.eqb key k then Some value else None.
Proof.
  destruct c; [|reflexivity]. cbn [andb].
  change (aws.convertCloudFormationTags [aws.cfTag key value])
    with (<[key := value]> (∅ : gmap string string)).
  destruct (String.eqb key k) eqn:E.
  - apply String.eqb_eq in E. subst k. apply lookup_insert_eq.
  - apply String.eqb_neq in E. now rewrite lookup_insert_ne, lookup_empty.
Qed.

Lemma stackTags_lookup (spec : aws.stackSpec CloudWatchAlarm) (k : string) :
  k <> aws.kubernetesCreatorTag ->
  k <> aws.clusterIDTagPrefix +:+ aws.clusterID _ spec ->
  (<[aws.clusterIDTagPrefix +:+ aws.clusterID _ spec :=
       aws.resourceLifecycleOwned]>
     (<[aws.kubernetesCreatorTag := aws.controllerID _ spec]> ∅)
   : gmap string string) !! k = None.
Proof.
  intros H1 H2. now rewrite !lookup_insert_ne, lookup_empty by congruence.
Qed.

(** The map read back from the tag list of a specification, at the keys
    the controller reserves, when the free-form tags do not use them. *)
Lemma reserved_tags_of_specification (spec : aws.stackSpec CloudWatchAlarm) :
  (forall k, is_Some (aws.spec_tags _ spec !! k) ->
             HasPrefix k "ingress:certificate-arn/" = false
             /\ k <> "ingress:certificate-arn"
             /\ k <> "ingress:owner"
             /\ k <> "ingress:extra-listeners"
             /\ k <> "cloudwatch:alarm-config-hash") ->
  let tags := aws.convertCloudFormationTags
                (aws.stackTagList CloudWatchAlarm cwAlarms_Hash
                   time_Format_RFC3339 json_Marshal base64_EncodeToString spec) in
  (forall arn, tags !! ("ingress:certificate-arn/" +:+ arn)
               = time_Format_RFC3339 <$> aws.certificateARNs _ spec !! arn)
  /\ tags !! "ingress:certificate-arn" = None
  /\ tags !! "ingress:owner"
     = (if negb (String.eqb (aws.ownerIngress _ spec) "")
        then Some (aws.ownerIngress _ spec) else None)
  /\ tags !! "cloudwatch:alarm-config-hash"
     = (if (0 <? length (aws.cwAlarms _ spec))%nat
        then Some (cwAlarms_Hash (aws.cwAlarms _ spec)) else None)
  /\ tags !! "ingress:extra-listeners"
     = (if (0 <? length (aws.extraListeners _ spec))%nat
        then Some (base64_EncodeToString
                     (json_Marshal (aws.extraListeners _ spec)))
        else None).
Proof.
  intros Hfree tags.
  assert (Huser : forall k,
             (HasPrefix k "ingress:certificate-arn/" = true
              \/ k = "ingress:certificate-arn" \/ k = "ingress:owner"
              \/ k = "ingress:extra-listeners"
              \/ k = "cloudwatch:alarm-config-hash") ->
             aws.spec_tags _ spec !! k = None).
  { intros k Hk. destruct (aws.spec_tags _ spec !! k) as [v|] eqn:E;
      [|reflexivity].
    destruct (Hfree k (mk_is_Some _ _ E)) as (H1 & H2 & H3 & H4 & H5).
    destruct Hk as [Hk|[Hk|[Hk|[Hk|Hk]]]]; congruence. }
  destruct (certificateTags_lookup (aws.certificateARNs _ spec)) as [Hc1 Hc2].
  subst tags. split; [|split; [|split; [|split]]].
  - intros arn.
    rewrite stackTagList_lookup by (intros H; vm_compute in H; discriminate).
    change "ingress:certificate-arn/" with aws.certificateARNTagPrefix.
    rewrite Hc1.
    destruct (aws.certificateARNs _ spec !! arn); [reflexivity|]. simpl.
    rewrite stackTags_lookup by (intros H; vm_compute in H; discriminate).
    apply Huser. left. unfold HasPrefix. apply prefix_append.
  - rewrite stackTagList_lookup by (intros H; vm_compute in H; discriminate).
    rewrite Hc2 by reflexivity.
    rewrite stackTags_lookup by (intros H; vm_compute in H; discriminate).
    apply Huser. auto.
  - rewrite stackTagList_layers, !convertCloudFormationTags_app, !lookup_union,
      !optional_tag_lookup.
    rewrite (convertCloudFormationTags_of_map _ _ (Permutation_refl _)),
      mergeTags_two, lookup_union.
    rewrite Hc2 by reflexivity.
    rewrite stackTags_lookup by (intros H; vm_compute in H; discriminate).
    rewrite Huser by auto.
    change (String.eqb aws.extraListenersTag "ingress:owner") with false.
    change (String.eqb aws.cwAlarmConfigHashTag "ingress:owner") with false.
    change (String.eqb aws.ingressOwnerTag "ingress:owner") with true.
    rewrite !andb_false_r, andb_true_r.
    destruct (negb _); reflexivity.
  - rewrite stackTagList_layers, !convertCloudFormationTags_app, !lookup_union,
      !optional_tag_lookup.
    rewrite (convertCloudFormationTags_of_map _ _ (Permutation_refl _)),
      mergeTags_two, lookup_union.
    rewrite Hc2 by reflexivity.
    rewrite stackTags_lookup by (intros H; vm_compute in H; discriminate).
    rewrite Huser by auto.
    change (String.eqb aws.extraListenersTag "cloudwatch:alarm-config-hash")
      with false.
    change (String.eqb aws.cwAlarmConfigHashTag "cloudwatch:alarm-config-hash")
      with true.
    change (String.eqb aws.ingressOwnerTag "cloudwatch:alarm-config-hash")
      with false.
    rewrite !andb_false_r, andb_true_r.
    destruct (0 <? _)%nat; reflexivity.
  - rewrite stackTagList_layers, !convertCloudFormationTags_app, !lookup_union,
      !optional_tag_lookup.
    rewrite (convertCloudFormationTags_of_map _ _ (Permutation_refl _)),
      mergeTags_two, lookup_union.
    rewrite Hc2 by reflexivity.
    rewrite stackTags_lookup by (intros H; vm_compute in H; discriminate).
    rewrite Huser by auto 6.
    change (String.eqb aws.extraListenersTag "ingress:extra-listeners")
      with true.
    change (String.eqb aws.cwAlarmConfigHashTag "ingress:extra-listeners")
      with false.
    change (String.eqb aws.ingressOwnerTag "ingress:extra-listeners")
      with false.
    rewrite !andb_false_r, andb_true_r.
    destruct (0 <? length (aws.extraListeners _ spec))%nat; reflexivity.
Qed.

(** X22.  What a specification says about certificates, owner, alarms and
    extra listeners survives the trip through the tags, provided its
    free-form tags stay clear of the keys the controller reserves.  The
    decoded stack has the certificates of the specification, each with
    the TTL that its formatted TTL parses to (the zero instant when it
    does not parse), the owner ingress and the alarm hash of the
    specification, and the listeners its encoded listeners decode to. *)
Theorem tags_of_specification_round_trip (spec : aws.stackSpec CloudWatchAlarm)
  (stackName stackStatus reason : option string)
  (outputs : list cloudformation.Output)
  (parameters : list cloudformation.StackParameter) (s : aws.Stack) :
  (forall k, is_Some (aws.spec_tags _ spec !! k) ->
             HasPrefix k "ingress:certificate-arn/" = false
             /\ k <> "ingress:certificate-arn"
             /\ k <> "ingress:owner"
             /\ k <> "ingress:extra-listeners"
             /\ k <> "cloudwatch:alarm-config-hash") ->
  aws.mapToManagedStack time_Parse_RFC3339 base64_DecodeString json_Unmarshal
    (cloudformation.mkStack stackName stackStatus reason outputs parameters
       (aws.stackTagList CloudWatchAlarm cwAlarms_Hash time_Format_RFC3339
          json_Marshal base64_EncodeToString spec))
  = (s, None) ->
  aws.CertificateARNs s
  = (fun ttl => match time_Parse_RFC3339 (time_Format_RFC3339 ttl) with
                | inr t => t
                | inl _ => zeroTime
                end) <$> aws.certificateARNs _ spec
  /\ aws.OwnerIngress s = aws.ownerIngress _ spec
  /\ aws.CWAlarmConfigHash s
     = (if (0 <? length (aws.cwAlarms _ spec))%nat
        then cwAlarms_Hash (aws.cwAlarms _ spec) else "")
  /\ (if (0 <? length (aws.extraListeners _ spec))%nat
      then json_Unmarshal
             (base64_DecodeString
                (base64_EncodeToString
                   (json_Marshal (aws.extraListeners _ spec))))
           = inr (aws.ExtraListeners s)
      else aws.ExtraListeners s = []).
Proof.
  intros Hfree Hd.
  destruct (reserved_tags_of_specification spec Hfree)
    as (Hcert & Hlegacy & Howner & Hhash & Hextra).
  pose proof (decoded_owner_and_listeners _ _ _ _ _ Hd) as [Ho Hl].
  pose proof (mapToManagedStack_fields _ _ Hd) as (_ & _ & _ & _ & _ & _ & _ & Hh & _).
  cbn [cloudformation.Tags] in Ho, Hl, Hh.
  split; [|split; [|split]].
  - apply map_eq. intros arn. rewrite lookup_fmap.
    destruct (decoded_certificates _ _ _ _ _ arn Hd) as (H1 & _ & H3).
    cbn [cloudformation.Tags] in H1, H3.
    destruct (aws.certificateARNs _ spec !! arn) as [ttl|] eqn:E; simpl.
    + apply H1.
      * now rewrite Hcert, E.
      * rewrite Hlegacy. discriminate.
    + apply H3.
      * now rewrite Hcert, E.
      * rewrite Hlegacy. discriminate.
  - rewrite Ho. unfold mapIndex.
    change aws.ingressOwnerTag with "ingress:owner". rewrite Howner.
    destruct (String.eqb (aws.ownerIngress _ spec) "") eqn:E; [|reflexivity].
    apply String.eqb_eq in E. now rewrite E.
  - rewrite Hh. unfold mapIndex.
    change aws.cwAlarmConfigHashTag with "cloudwatch:alarm-config-hash".
    rewrite Hhash. destruct (0 <? _)%nat; reflexivity.
  - change aws.extraListenersTag with "ingress:extra-listeners" in Hl.
    rewrite Hextra in Hl.
    destruct (0 <? length (aws.extraListeners _ spec))%nat; exact Hl.
Qed.

End RoundTrip.

(** The stack that CloudFormation holds after [createStack] with the
    specification of the fixtures. *)
Lemma policy_fields_round_trip_witness :
  exists s,
    aws.mapToManagedStack fixtures.parseTime fixtures.base64Decode
      fixtures.unmarshalListeners
      (cloudformation.mkStack (Some "stack")
         (Some cloudformation.StackStatusCreateComplete) None []
         (aws.stackParameters unit fixtures.sprintfSeconds fixtures.spec)
         (aws.stackTagList unit fixtures.alarmsHash fixtures.formatTime
            fixtures.marshalListeners fixtures.base64Encode fixtures.spec))
    = (s, None)
    /\ aws.Scheme s = "internet-facing"
    /\ aws.SecurityGroup s = "sg-default"
    /\ aws.SSLPolicy s = "ELBSecurityPolicy-2016-08"
    /\ aws.IpAddressType s = "ipv4"
    /\ aws.LoadBalancerType s = "network"
    /\ aws.HTTP2 s = true
    /\ aws.WAFWebACLID s = "waf-1".
Proof.
  eexists. split; [vm_compute; reflexivity|].
  apply (policy_fields_round_trip unit fixtures.sprintfSeconds
           fixtures.parseTime fixtures.base64Decode fixtures.unmarshalListeners
           fixtures.spec (Some "stack")
           (Some cloudformation.StackStatusCreateComplete) None []
           (aws.stackTagList unit fixtures.alarmsHash fixtures.formatTime
              fixtures.marshalListeners fixtures.base64Encode fixtures.spec)).
  vm_compute. reflexivity.
Defined.

(** The same stack: certificate, owner, alarm hash and listener come back. *)
Lemma tags_of_specification_round_trip_witness :
  exists s,
    aws.mapToManagedStack fixtures.parseTime fixtures.base64Decode
      fixtures.unmarshalListeners
      (cloudformation.mkStack (Some "stack")
         (Some cloudformation.StackStatusCreateComplete) None []
         (aws.stackParameters unit fixtures.sprintfSeconds fixtures.spec)
         (aws.stackTagList unit fixtures.alarmsHash fixtures.formatTime
            fixtures.marshalListeners fixtures.base64Encode fixtures.spec))
    = (s, None)
    /\ aws.CertificateARNs s = <["arn:A" := fixtures.tomorrow]> ∅
    /\ aws.OwnerIngress s = "default/myingress"
    /\ aws.CWAlarmConfigHash s = "alarm-hash"
    /\ fixtures.unmarshalListeners
         (fixtures.base64Decode
            (fixtures.base64Encode
               (fixtures.marshalListeners [fixtures.storedListener])))
       = inr (aws.ExtraListeners s).
Proof.
  eexists. split; [vm_compute; reflexivity|].
  pose proof (tags_of_specification_round_trip unit fixtures.alarmsHash
                fixtures.formatTime fixtures.marshalListeners
                fixtures.base64Encode fixtures.parseTime fixtures.base64Decode
                fixtures.unmarshalListeners fixtures.spec (Some "stack")
                (Some cloudformation.StackStatusCreateComplete) None []
                (aws.stackParameters unit fixtures.sprintfSeconds fixtures.spec))
    as H.
  apply H.
  - intros k Hk.
    assert (Hteam : k = "team").
    { destruct Hk as [v Hv]. unfold fixtures.spec in Hv. cbn [aws.spec_tags] in Hv.
      apply lookup_insert_Some in Hv as [[<- _] | [_ Hv]]; [reflexivity|].
      rewrite lookup_empty in Hv. discriminate. }
    subst k. repeat split; try discriminate.
  - vm_compute. reflexivity.
Defined.

(** ** Stacks: the requests of an update and of a deletion *)

Section OperationProperties.

Variable CloudWatchAlarm : Type.
Variable cwAlarms_Hash : list CloudWatchAlarm -> string.
Variable time_Format_RFC3339 : Time -> string.
Variable json_Marshal : list aws.ExtraListener -> string.
Variable base64_EncodeToString : string -> string.
Variable Sprintf_seconds : Z -> string.

(** X23.  [updateStack] only adds requests to the log, and never one that
    switches termination protection off or deletes a stack: a stack that
    is protected stays so when the specification no longer asks for
    protection.  [UpdateStack] is sent exactly when the template was
    generated and the protection request, if the specification asks for
    one, did not fail; it is then the last request, and the only one of
    its kind that was added. *)
Theorem updateStack_requests (w : list aws.cfCall)
  (spec : aws.stackSpec CloudWatchAlarm) (template : error + string)
  (protectionReply : option error) (reply : error + option string) :
  exists added,
    (aws.updateStack CloudWatchAlarm cwAlarms_Hash time_Format_RFC3339
       json_Marshal base64_EncodeToString Sprintf_seconds
       w spec template protectionReply reply).1 = w ++ added
    /\ List.filter disablesProtection added = []
    /\ List.filter isDeleteStack added = []
    /\ (length (List.filter isUpdateStack added) <= 1)%nat
    /\ ((exists input, last added = Some (aws.callUpdateStack input))
        <-> (exists body, template = inr body)
            /\ (aws.stackTerminationProtection _ spec = true ->
                protectionReply = None)).
Proof.
  unfold aws.updateStack.
  destruct template as [e | body].
  - exists []. rewrite app_nil_r.
    split; [reflexivity|]. split; [reflexivity|]. split; [reflexivity|].
    split; [simpl; lia|]. split.
    + intros [input H]. discriminate.
    + intros [[b Hb] _]. discriminate.
  - destruct (aws.stackTerminationProtection _ spec) eqn:Hp.
    + destruct protectionReply as [e |].
      * eexists. split; [reflexivity|].
        split; [reflexivity|]. split; [reflexivity|].
        split; [simpl; lia|]. split.
        -- intros [input H]. discriminate.
        -- intros [_ H]. specialize (H eq_refl). discriminate.
      * eexists. split; [rewrite <- app_assoc; reflexivity|].
        split; [reflexivity|]. split; [reflexivity|].
        split; [simpl; lia|]. split.
        -- intros _. split; [eauto | reflexivity].
        -- intros _. eexists. reflexivity.
    + eexists. split; [reflexivity|].
      split; [reflexivity|]. split; [reflexivity|].
      split; [simpl; lia|]. split.
      * intros _. split; [eauto | discriminate].
      * intros _. eexists. reflexivity.
Qed.

End OperationProperties.

(** X24.  [deleteStack] first switches termination protection off for the
    stack it is given.  [DeleteStack] follows exactly when that request
    succeeded, for the same stack, and its answer is the result; otherwise
    the error of the protection request is the result and the stack is
    left, unprotected. *)
Theorem deleteStack_requests (w : list aws.cfCall) (stackName : string)
  (protectionReply deleteReply : option error) :
  exists rest,
    (aws.deleteStack w stackName protectionReply deleteReply).1
      = w ++ aws.callUpdateTerminationProtection stackName false :: rest
    /\ (forall c, In c rest -> c = aws.callDeleteStack stackName)
    /\ (length rest = match protectionReply with Some _ => 0 | None => 1 end)%nat
    /\ (aws.deleteStack w stackName protectionReply deleteReply).2
         = match protectionReply with
           | Some e => Some e
           | None => deleteReply
           end.
Proof.
  unfold aws.deleteStack.
  destruct protectionReply as [e |].
  - exists []. split; [reflexivity|]. split; [intros c []|].
    split; reflexivity.
  - exists [aws.callDeleteStack stackName]. rewrite <- app_assoc.
    split; [reflexivity|]. split; [|split; reflexivity].
    intros c [<- | []]. reflexivity.
Qed.

(** ** The EC2 mock *)

Lemma pair_induction {A : Type} (P : list A -> Prop) :
  P [] -> (forall a, P [a]) -> (forall a b l, P l -> P (a :: b :: l)) ->
  forall l, P l.
Proof.
  intros H0 H1 H2 l.
  assert (P l /\ forall a, P (a :: l)) as [H _].
  { induction l as [|x l [IH IH']].
    - split; [exact H0 | exact H1].
    - split; [apply IH' | intros a; apply H2, IH]. }
  exact H.
Qed.

Section PagingProperties.

Variable R : fake.apiOutput -> option error -> fake.ApiResponse.

(** [R] keeps what it is given. *)
Hypothesis R_response : forall o e, fake.response (R o e) = o.
Hypothesis R_err : forall o e, fake.err (R o e) = e.

Lemma MockDIPOutput_two (e : option error) (a b : fake.TestInstance)
  (l : list fake.TestInstance) :
  fake.MockDIPOutput R e (a :: b :: l)
  = R (fake.instancesOutput (fake.MockDIOutput [a; b])) e
    :: fake.MockDIPOutput R e l.
Proof.
  unfold fake.MockDIPOutput, fake.dipSplitSize.
  change (length (a :: b :: l)) with (1 * 2 + length l)%nat.
  rewrite (Nat.div_add_l 1 2 (length l)) by lia.
  replace ((1 * 2 + length l) mod 2)%nat with (length l mod 2)%nat
    by (rewrite Nat.add_comm, Nat.Div0.mod_add; reflexivity).
  change (1 + length l / 2)%nat with (S (length l / 2)).
  cbn [seq List.map].
  rewrite <- seq_shift, List.map_map.
  assert (Hpages : List.map
            (fun i => R (fake.instancesOutput
                           (fake.MockDIOutput
                              (fake.slice (a :: b :: l) (S i * 2) ((S i + 1) * 2))))
                        e) (seq 0 (length l / 2))
          = List.map
            (fun i => R (fake.instancesOutput
                           (fake.MockDIOutput
                              (fake.slice l (i * 2) ((i + 1) * 2))))
                        e) (seq 0 (length l / 2))).
  { apply List.map_ext. intros i. unfold fake.slice.
    replace (S i * 2)%nat with (S (S (i * 2))) by lia.
    replace ((S i + 1) * 2 - S (S (i * 2)))%nat with ((i + 1) * 2 - i * 2)%nat
      by lia.
    reflexivity. }
  rewrite Hpages.
  replace (S (length l / 2) * 2)%nat with (S (S (length l / 2 * 2))) by lia.
  cbn [skipn].
  destruct (negb (length l mod 2 =? 0)%nat); reflexivity.
Qed.

Lemma pageInstances_R (e : option error) (l : list fake.TestInstance) :
  pageInstances (R (fake.instancesOutput (fake.MockDIOutput l)) e)
  = List.map fake.mockInstance l.
Proof.
  unfold pageInstances, outputInstances. rewrite R_response. simpl.
  apply app_nil_r.
Qed.

(** X25.  [MockDIPOutput] cuts the instances into pages of [dipSplitSize]:
    the pages, one after the other, hold the instances it was given, in
    order and once each; every page holds at least one instance and at
    most two; every page carries the error [e]; and there are half as many
    pages as instances, rounded up. *)
Theorem MockDIPOutput_pages (e : option error) (l : list fake.TestInstance) :
  concat (List.map pageInstances (fake.MockDIPOutput R e l))
    = List.map fake.mockInstance l
  /\ Forall (fun p => (1 <= length (pageInstances p) <= fake.dipSplitSize)%nat
                      /\ fake.err p = e)
            (fake.MockDIPOutput R e l)
  /\ length (fake.MockDIPOutput R e l) = ((length l + 1) / 2)%nat.
Proof.
  induction l as [| a | a b l (IHc & IHf & IHl)] using pair_induction.
  - repeat split; constructor.
  - change (fake.MockDIPOutput R e [a])
      with [R (fake.instancesOutput (fake.MockDIOutput [a])) e].
    cbn [List.map concat]. rewrite pageInstances_R.
    repeat split.
    constructor; [|constructor].
    rewrite pageInstances_R, R_err. unfold fake.dipSplitSize. simpl.
    repeat split; lia.
  - rewrite MockDIPOutput_two. cbn [List.map concat].
    rewrite pageInstances_R, IHc. repeat split.
    + constructor; [|exact IHf].
      rewrite pageInstances_R, R_err. unfold fake.dipSplitSize. simpl.
      repeat split; lia.
    + cbn [length]. rewrite IHl.
      replace (S (S (length l)) + 1)%nat with (1 * 2 + (length l + 1))%nat by lia.
      rewrite (Nat.div_add_l 1 2) by lia. reflexivity.
Qed.

Lemma DescribeInstancesPages_collect
  (more : ec2.DescribeInstancesOutput -> bool) (pages : list fake.ApiResponse)
  (seen : list ec2.Instance) :
  (fake.DescribeInstancesPages pages (collectInstances more) seen).1
  = seen ++ concat (List.map pageInstances pages).
Proof.
  unfold fake.DescribeInstancesPages. cbn [fst].
  revert seen. induction pages as [|p pages IH]; intros seen.
  - simpl. symmetry. apply app_nil_r.
  - cbn [foldl List.map concat]. rewrite IH. unfold pageInstances at 2.
    destruct (fake.response p) as [out |]; unfold collectInstances; cbn [fst].
    + rewrite <- app_assoc. reflexivity.
    + reflexivity.
Qed.

(** X26.  Paging through the mock with the pages of [MockDIPOutput]: a
    callback that collects the instances gets every instance, in order and
    once, whatever it answers when asked whether it wants more pages (the
    mock does not look at the answer).  The call returns the error [e]
    when there is an instance, and no error at all when there is none: an
    error given together with no instance is lost. *)
Theorem DescribeInstancesPages_of_MockDIPOutput
  (more : ec2.DescribeInstancesOutput -> bool) (e : option error)
  (l : list fake.TestInstance) :
  fake.DescribeInstancesPages (fake.MockDIPOutput R e l)
    (collectInstances more) []
  = (List.map fake.mockInstance l,
     match l with [] => None | _ :: _ => e end).
Proof.
  apply injective_projections.
  - rewrite DescribeInstancesPages_collect. cbn [app fst].
    induction l as [| a | a b l IH] using pair_induction.
    + reflexivity.
    + change (fake.MockDIPOutput R e [a])
        with [R (fake.instancesOutput (fake.MockDIOutput [a])) e].
      cbn [List.map concat]. rewrite pageInstances_R. apply app_nil_r.
    + rewrite MockDIPOutput_two. cbn [List.map concat].
      rewrite pageInstances_R, IH. reflexivity.
  - unfold fake.DescribeInstancesPages. cbn [snd].
    destruct l as [|a [|b l]].
    + reflexivity.
    + change (fake.MockDIPOutput R e [a])
        with [R (fake.instancesOutput (fake.MockDIOutput [a])) e].
      apply R_err.
    + rewrite MockDIPOutput_two. apply R_err.
Qed.

End PagingProperties.

(** Three instances make two pages. *)
Lemma MockDIPOutput_pages_witness :
  length (fake.MockDIPOutput fake.mkApiResponse None
            [fixtures.testInstance "i-1"; fixtures.testInstance "i-2";
             fixtures.testInstance "i-3"]) = 2%nat.
Proof.
  apply (proj2 (proj2 (MockDIPOutput_pages fake.mkApiResponse
                         (fun _ _ => eq_refl) (fun _ _ => eq_refl) None
                         [fixtures.testInstance "i-1"; fixtures.testInstance "i-2";
                          fixtures.testInstance "i-3"]))).
Defined.

(** An error given with no instance is lost; with one instance it is
    returned. *)
Lemma DescribeInstancesPages_of_MockDIPOutput_witness :
  (fake.DescribeInstancesPages
     (fake.MockDIPOutput fake.mkApiResponse
        (Some (errorsNew "describe instances failed")) [])
     (collectInstances (fun _ => false)) []).2 = None
  /\ (fake.DescribeInstancesPages
        (fake.MockDIPOutput fake.mkApiResponse
           (Some (errorsNew "describe instances failed"))
           [fixtures.testInstance "i-1"])
        (collectInstances (fun _ => false)) []).2
     = Some (errorsNew "describe instances failed").
Proof.
  split.
  - rewrite (DescribeInstancesPages_of_MockDIPOutput fake.mkApiResponse
               (fun _ _ => eq_refl) (fun _ _ => eq_refl)).
    reflexivity.
  - rewrite (DescribeInstancesPages_of_MockDIPOutput fake.mkApiResponse
               (fun _ _ => eq_refl) (fun _ _ => eq_refl)).
    reflexivity.
Defined.

(** ** Stacks: lookup by name *)

Section LookupProperties.

Variable time_Parse_RFC3339 : string -> error + Time.
Variable base64_DecodeString : string -> string.
Variable json_Unmarshal : string -> error + list aws.ExtraListener.
Variable ErrLoadBalancerStackNotFound : error.
Variable ErrLoadBalancerStackNotReady : error.

(** X29.  [getStack] looks at the first stack of the answer only, and
    returns a stack exactly when there is one.  Whatever goes wrong in the
    lookup (the request fails, the answer is empty, the first stack is
    nil) it reports as [ErrLoadBalancerStackNotReady]: the error of the
    request and [ErrLoadBalancerStackNotFound], which [getCFStackByName]
    returns for an empty answer, are not passed on.  Any other error of
    [getStack] is the decoding error of that first stack. *)
Theorem getStack_errors (reply : error + list (option cloudformation.Stack)) :
  let r := aws.getStack time_Parse_RFC3339 base64_DecodeString json_Unmarshal
             ErrLoadBalancerStackNotFound ErrLoadBalancerStackNotReady reply in
  let decode := aws.mapToManagedStack time_Parse_RFC3339 base64_DecodeString
                  json_Unmarshal in
  match reply with
  | inr (Some stack :: _) =>
      r = (Some (decode stack).1, (decode stack).2)
      /\ aws.getCFStackByName ErrLoadBalancerStackNotFound
           ErrLoadBalancerStackNotReady reply = inr stack
  | _ =>
      r = (None, Some ErrLoadBalancerStackNotReady)
      /\ (reply = inr [] ->
          aws.getCFStackByName ErrLoadBalancerStackNotFound
            ErrLoadBalancerStackNotReady reply
          = inl ErrLoadBalancerStackNotFound)
      /\ (forall e, reply = inl e ->
          aws.getCFStackByName ErrLoadBalancerStackNotFound
            ErrLoadBalancerStackNotReady reply = inl e)
  end.
Proof.
  unfold aws.getStack.
  destruct reply as [e | [| [stack |] rest]]; cbn.
  - split; [reflexivity|]. split; [discriminate|].
    intros e' He. injection He as <-. reflexivity.
  - split; [reflexivity|]. split; [reflexivity | discriminate].
  - split; [|reflexivity].
    destruct (aws.mapToManagedStack _ _ _ stack) as [s err]. reflexivity.
  - split; [reflexivity|]. split; discriminate.
Qed.

End LookupProperties.
